(** * AceLineBot: the movie chart scraper and the vocabulary card

    A shallow embedding of [app/utils/movie.py] and [app/utils/words.py].

    Python [str] values are sequences of Unicode code points, dictionaries
    are finite maps, and a call that may raise returns a [result]: a value or
    the exception.  The libraries the two modules call ([re], [bs4],
    [urllib.parse.quote], [linebot.models], Playwright) are modelled by what
    the calls made here observe of them. *)

From Stdlib Require Import NArith Ascii String.
From stdpp Require Import gmap list strings.

Set Warnings "-register-all".

(** ** Python strings *)

(** A code point. *)
Abbreviation char := N.

(** A [str]: its code points, in order. *)
Abbreviation pystr := (list N).

Module Py.

(** *** Literals

    The literals of the Python sources are written here as Rocq strings, that
    is as their UTF-8 bytes, and decoded to code points. *)

Definition byte_of (a : ascii) : N := N_of_ascii a.

Fixpoint utf8_decode (bs : list N) : pystr :=
  match bs with
  | [] => []
  | b0 :: r0 =>
      if (b0 <? 128)%N then b0 :: utf8_decode r0
      else if (b0 <? 224)%N then
        match r0 with
        | b1 :: r1 => ((b0 - 192) * 64 + (b1 - 128))%N :: utf8_decode r1
        | _ => []
        end
      else if (b0 <? 240)%N then
        match r0 with
        | b1 :: b2 :: r2 =>
            ((b0 - 224) * 4096 + (b1 - 128) * 64 + (b2 - 128))%N :: utf8_decode r2
        | _ => []
        end
      else
        match r0 with
        | b1 :: b2 :: b3 :: r3 =>
            ((b0 - 240) * 262144 + (b1 - 128) * 4096 + (b2 - 128) * 64 + (b3 - 128))%N
              :: utf8_decode r3
        | _ => []
        end
  end.

Definition lit (s : string) : pystr :=
  utf8_decode (map byte_of (list_ascii_of_string s)).

(** *** Character classes

    [str.isspace], which is also what [str.strip()] removes and what [\s]
    matches in a [str] pattern. *)
Definition isspace (c : char) : bool :=
  ((9 <=? c) && (c <=? 13) || (28 <=? c) && (c <=? 32)
   || (c =? 133) || (c =? 160) || (c =? 5760)
   || (8192 <=? c) && (c <=? 8202) || (c =? 8232) || (c =? 8233)
   || (c =? 8239) || (c =? 8287) || (c =? 12288))%N.

(** The first code point of every run of ten decimal digits (general category
    Nd, Unicode 14.0); the mathematical digits U+1D7CE..U+1D7FF are five such
    runs in a row. *)
Definition decimal_runs : list N :=
  [48; 1632; 1776; 1984; 2406; 2534; 2662; 2790; 2918; 3046; 3174; 3302; 3430;
   3558; 3664; 3792; 3872; 4160; 4240; 6112; 6160; 6470; 6608; 6784; 6800; 6992;
   7088; 7232; 7248; 42528; 43216; 43264; 43472; 43504; 43600; 44016; 65296;
   66720; 68912; 69734; 69872; 69942; 70096; 70384; 70736; 70864; 71248; 71360;
   71472; 71904; 72016; 72784; 73040; 73120; 92768; 92864; 93008;
   120782; 120792; 120802; 120812; 120822;
   123200; 123632; 125264; 130032]%N.

(** [str.isdecimal] on one character: what [\d] matches in a [str] pattern. *)
Definition isdecimal (c : char) : bool :=
  existsb (fun lo => (lo <=? c) && (c <=? lo + 9))%N decimal_runs.

(** *** Methods of [str] *)

(** Truth value of a [str]. *)
Definition truthy (s : pystr) : bool :=
  match s with [] => false | _ => true end.

Fixpoint lstrip (p : char -> bool) (s : pystr) : pystr :=
  match s with
  | c :: s' => if p c then lstrip p s' else s
  | [] => []
  end.

Definition rstrip (p : char -> bool) (s : pystr) : pystr :=
  rev (lstrip p (rev s)).

(** [s.strip()] *)
Definition strip (s : pystr) : pystr := rstrip isspace (lstrip isspace s).

(** [s.strip(chars)] *)
Definition strip_chars (chars : pystr) (s : pystr) : pystr :=
  let p c := existsb (N.eqb c) chars in
  rstrip p (lstrip p s).

(** [s.startswith(prefix)] *)
Fixpoint startswith (prefix s : pystr) : bool :=
  match prefix, s with
  | [], _ => true
  | a :: prefix', b :: s' => (a =? b)%N && startswith prefix' s'
  | _ :: _, [] => false
  end.

(** [sub in s] *)
Fixpoint contains (sub s : pystr) : bool :=
  startswith sub s || match s with [] => false | _ :: s' => contains sub s' end.

(** [sep.join(parts)] *)
Fixpoint join (sep : pystr) (parts : list pystr) : pystr :=
  match parts with
  | [] => []
  | [x] => x
  | x :: rest => x ++ sep ++ join sep rest
  end.

(** [s.split(sep)[-1]] for a one-character separator: what follows the last
    [sep], the whole of [s] when there is none. *)
Fixpoint after_last (sep : char) (s : pystr) : pystr :=
  match s with
  | [] => []
  | c :: s' =>
      if (c =? sep)%N && negb (existsb (N.eqb sep) s') then s'
      else if existsb (N.eqb sep) s then after_last sep s'
      else s
  end.

End Py.

(** ** Regular expressions

    The patterns of the two modules use character classes, concatenation,
    one alternation, one capturing group each, and the quantifiers [?], [*],
    [+] and [*?] on a single character class.  The matcher is the
    backtracking matcher of [re]: alternatives in order, a greedy quantifier
    the longest repetition first, a lazy one the shortest first. *)

Module Re.

Inductive regex : Type :=
| Chr (p : char -> bool)          (* one character of the class [p] *)
| Cat (r1 r2 : regex)             (* [r1 r2] *)
| Alt (r1 r2 : regex)             (* [r1|r2] *)
| Grp (r : regex)                 (* [(r)], the group 1 of the pattern *)
| Opt (p : char -> bool)          (* [p?] *)
| Star (p : char -> bool)         (* [p*] *)
| Plus (p : char -> bool)         (* [p+] *)
| LazyStar (p : char -> bool).    (* [p*?] *)

(** Character classes. *)
Definition one (c : char) : char -> bool := fun x => (x =? c)%N.
Definition any_of (cs : pystr) : char -> bool := fun x => existsb (N.eqb x) cs.
(** [.] without DOTALL: anything but a newline. *)
Definition dot : char -> bool := fun x => negb (x =? 10)%N.
(** [.] with DOTALL. *)
Definition dot_all : char -> bool := fun _ => true.

Definition lower_ascii (c : char) : char :=
  if ((65 <=? c) && (c <=? 90))%N then (c + 32)%N else c.

(** A literal ASCII character [p] of a pattern compiled with IGNORECASE: the
    two cases of a letter, and the three letters with further characters that
    lower to them (dotted I and dotless i, the Kelvin sign, the long s). *)
Definition one_i (p : char) : char -> bool := fun c =>
  ((lower_ascii c =? lower_ascii p)
   || (lower_ascii p =? 105) && ((c =? 304) || (c =? 305))
   || (lower_ascii p =? 107) && (c =? 8490)
   || (lower_ascii p =? 115) && (c =? 383))%N.

(** A literal string, character by character. *)
Fixpoint str (f : char -> char -> bool) (w : pystr) (tail : regex) : regex :=
  match w with
  | [] => tail
  | c :: w' => Cat (Chr (f c)) (str f w' tail)
  end.

Section Matcher.
Context {A : Type}.

(** [p*] before the continuation [k]: one more character first. *)
Fixpoint star_greedy (p : char -> bool) (k : pystr -> option A) (s : pystr) : option A :=
  match s with
  | c :: s' =>
      if p c then
        match star_greedy p k s' with
        | Some a => Some a
        | None => k s
        end
      else k s
  | [] => k s
  end.

(** [p*?] before the continuation [k]: the continuation first. *)
Fixpoint star_lazy (p : char -> bool) (k : pystr -> option A) (s : pystr) : option A :=
  match k s with
  | Some a => Some a
  | None =>
      match s with
      | c :: s' => if p c then star_lazy p k s' else None
      | [] => None
      end
  end.

(** [run r s g k]: match [r] at the head of [s], with [g] the text captured so
    far, then go on with [k] on what is left; [None] when every way fails. *)
Fixpoint run (r : regex) (s : pystr) (g : option pystr)
    (k : pystr -> option pystr -> option A) : option A :=
  match r with
  | Chr p =>
      match s with
      | c :: s' => if p c then k s' g else None
      | [] => None
      end
  | Cat r1 r2 => run r1 s g (fun s' g' => run r2 s' g' k)
  | Alt r1 r2 =>
      match run r1 s g k with
      | Some a => Some a
      | None => run r2 s g k
      end
  | Grp r1 => run r1 s g (fun s' _ => k s' (Some (take (length s - length s') s)))
  | Opt p =>
      match s with
      | c :: s' =>
          if p c then
            match k s' g with
            | Some a => Some a
            | None => k s g
            end
          else k s g
      | [] => k s g
      end
  | Star p => star_greedy p (fun s' => k s' g) s
  | Plus p =>
      match s with
      | c :: s' => if p c then star_greedy p (fun s'' => k s'' g) s' else None
      | [] => None
      end
  | LazyStar p => star_lazy p (fun s' => k s' g) s
  end.

End Matcher.

(** A match object: where the match starts, [group(0)] and [group(1)]. *)
Record Match : Type := { start : nat; group0 : pystr; group1 : option pystr }.

(** [re.match]'s core: the pattern at the head of [s]; the result is the group
    and what follows the match. *)
Definition match_here (r : regex) (s : pystr) : option (option pystr * pystr) :=
  run r s None (fun rest g => Some (g, rest)).

Fixpoint search_from (r : regex) (i : nat) (s : pystr) : option Match :=
  match match_here r s with
  | Some (g, rest) =>
      Some {| start := i; group0 := take (length s - length rest) s; group1 := g |}
  | None =>
      match s with
      | [] => None
      | _ :: s' => search_from r (S i) s'
      end
  end.

(** [re.search(r, s)]: the first position, from the left, where [r] matches. *)
Definition search (r : regex) (s : pystr) : option Match := search_from r 0 s.

(** [m.group(1)], for the patterns here, whose group takes part in every
    match. *)
Definition group_1 (m : Match) : pystr := default [] (group1 m).

(** [re.split] on a pattern [p+]: the pieces between the runs of [p], the
    empty ones before a leading and after a trailing run included. *)
Fixpoint split_runs (p : char -> bool) (s : pystr) (cur : pystr) (insep : bool)
    : list pystr :=
  match s with
  | [] => [cur]
  | c :: s' =>
      if p c then
        if insep then split_runs p s' [] true
        else cur :: split_runs p s' [] true
      else split_runs p s' (cur ++ [c]) false
  end.

Definition split_plus (p : char -> bool) (s : pystr) : list pystr :=
  split_runs p s [] false.

(** *** What a pattern matches

    [matches r w g g']: [r] matches the text [w], and the captured text goes
    from [g] to [g']; the order in which the matcher tries the ways to match
    is left out. *)
Inductive matches : regex -> pystr -> option pystr -> option pystr -> Prop :=
| M_Chr p c g : p c = true -> matches (Chr p) [c] g g
| M_Cat r1 r2 w1 w2 g g1 g2 :
    matches r1 w1 g g1 -> matches r2 w2 g1 g2 -> matches (Cat r1 r2) (w1 ++ w2) g g2
| M_AltL r1 r2 w g g' : matches r1 w g g' -> matches (Alt r1 r2) w g g'
| M_AltR r1 r2 w g g' : matches r2 w g g' -> matches (Alt r1 r2) w g g'
| M_Grp r w g g' : matches r w g g' -> matches (Grp r) w g (Some w)
| M_OptNone p g : matches (Opt p) [] g g
| M_OptSome p c g : p c = true -> matches (Opt p) [c] g g
| M_Star p w g : forallb p w = true -> matches (Star p) w g g
| M_Plus p w g : w <> [] -> forallb p w = true -> matches (Plus p) w g g
| M_LazyStar p w g : forallb p w = true -> matches (LazyStar p) w g g.

End Re.

(** ** Exceptions *)

Inductive exn : Type :=
| PlaywrightTimeoutError
| PlaywrightError
| JSONDecodeError
| ValueError
| TypeError
| AttributeError
| UnicodeEncodeError
| ParserRejectedMarkup.

(** The outcome of a call: a value, or the exception it raised. *)
Inductive result (A : Type) : Type :=
| Ok (a : A)
| Raise (e : exn).

Arguments Ok {A} a.
Arguments Raise {A} e.

#[global] Instance result_ret : MRet result := fun _ a => Ok a.
#[global] Instance result_bind : MBind result := fun _ _ f m =>
  match m with
  | Ok a => f a
  | Raise e => Raise e
  end.
#[global] Instance result_fmap : FMap result := fun _ _ f m =>
  match m with
  | Ok a => Ok (f a)
  | Raise e => Raise e
  end.

(** [try: body finally: fin]: [fin] runs in every case; what it raises
    replaces the outcome of [body]. *)
Definition try_finally {A : Type} (body : result A) (fin : result unit) : result A :=
  match fin with
  | Ok _ => body
  | Raise e => Raise e
  end.

(** ** The parse tree of [bs4] *)

Module Bs4.

(** A node of the tree [BeautifulSoup(html, 'html.parser')] builds: a tag with
    its name, the tokens of its [class] attribute, its other attributes and
    its children; a text node; or a string that [get_text] leaves out (a
    comment, a declaration, the content of a script or a style sheet). *)
Inductive node : Type :=
| Tag (name : pystr) (classes : list pystr) (attrs : gmap pystr pystr)
      (children : list node)
| NavigableString (s : pystr)
| Comment (s : pystr).

(** Every node below [n], in document order. *)
Fixpoint descendants (n : node) : list node :=
  match n with
  | Tag _ _ _ cs =>
      (fix go (l : list node) : list node :=
         match l with
         | [] => []
         | c :: l' => c :: descendants c ++ go l'
         end) cs
  | _ => []
  end.

(** The test of [find(name, class_=cls)] on one node. *)
Definition is_tag (name cls : pystr) (n : node) : bool :=
  match n with
  | Tag nm classes _ _ => bool_decide (nm = name) && bool_decide (cls ∈ classes)
  | _ => false
  end.

(** [n.find_all(name, class_=cls)] *)
Definition find_all (n : node) (name cls : pystr) : list node :=
  filter (fun d => is_tag name cls d = true) (descendants n).

(** [n.find(name, class_=cls)]: the first one, [None] when there is none. *)
Definition find (n : node) (name cls : pystr) : option node :=
  head (find_all n name cls).

(** [n.has_attr(a)] and [n[a]], for an attribute other than [class]. *)
Definition attr (n : node) (a : pystr) : option pystr :=
  match n with
  | Tag _ _ attrs _ => attrs !! a
  | _ => None
  end.

(** The text nodes of [get_text(strip=True)]: each stripped, the empty ones
    dropped. *)
Definition stripped_strings (n : node) : list pystr :=
  omap (fun d =>
          match d with
          | NavigableString s =>
              let t := Py.strip s in if Py.truthy t then Some t else None
          | _ => None
          end) (descendants n).

(** [n.get_text(strip=True)] *)
Definition get_text (n : node) : pystr := concat (stripped_strings n).

End Bs4.

(** ** The message objects of [linebot.models] *)

Module Linebot.

(** The value of a keyword argument. *)
Inductive kw : Type :=
| KStr (s : pystr)
| KBool (b : bool)
| KInt (n : Z).

Definition kstr (s : string) : kw := KStr (Py.lit s).

Record URIAction : Type := { label : pystr; uri : pystr }.

(** A component, with the keyword arguments it was built with. *)
Inductive component : Type :=
| ImageComponent (url : pystr) (opts : list (string * kw))
| TextComponent (text : pystr) (opts : list (string * kw))
| ButtonComponent (action : URIAction) (opts : list (string * kw))
| BoxComponent (layout : pystr) (contents : list component) (opts : list (string * kw)).

Record BubbleContainer : Type :=
  { header : option component;
    hero : option component;
    body : option component;
    footer : option component }.

Inductive container : Type :=
| Bubble (b : BubbleContainer)
| CarouselContainer (contents : list BubbleContainer).

Record FlexSendMessage : Type := { alt_text : pystr; contents : container }.

(** What a constructor of the library is called on. *)
Inductive sdk_object : Type :=
| ObjAction (a : URIAction)
| ObjComponent (c : component)
| ObjBubble (b : BubbleContainer)
| ObjContainer (c : container)
| ObjMessage (m : FlexSendMessage).

(** The library is not part of the repository: [sdk] says which objects its
    constructors refuse, and with which exception. *)
Definition sdk : Type := sdk_object -> option exn.

(** The constructors that only store their arguments. *)
Definition permissive : sdk := fun _ => None.

Section Constructors.
Variable refuses : sdk.

Definition construct {A : Type} (inj : A -> sdk_object) (a : A) : result A :=
  match refuses (inj a) with
  | Some e => Raise e
  | None => Ok a
  end.

Definition new_action := construct ObjAction.
Definition new_component := construct ObjComponent.
Definition new_bubble := construct ObjBubble.
Definition new_container := construct ObjContainer.
Definition new_message := construct ObjMessage.

End Constructors.

End Linebot.

(** ** [app/utils/movie.py] *)

Module Movie.
Import Py Re Bs4 Linebot.

Definition MAX_MOVIES : nat := 10.

(** The keys of a movie record. *)
Definition K_poster : pystr := Eval vm_compute in lit "圖片".
Definition K_title : pystr := Eval vm_compute in lit "中文片名".
Definition K_eng_title : pystr := Eval vm_compute in lit "英文片名".
Definition K_rating : pystr := Eval vm_compute in lit "評分".
Definition K_certificate : pystr := Eval vm_compute in lit "分級".
Definition K_duration : pystr := Eval vm_compute in lit "片長".
Definition K_release : pystr := Eval vm_compute in lit "上映時間".
Definition K_genre : pystr := Eval vm_compute in lit "類型".
Definition K_trailer : pystr := Eval vm_compute in lit "預告片連結".

(** Tag and class names. *)
Definition s_li : pystr := Eval vm_compute in lit "li".
Definition s_item : pystr := Eval vm_compute in lit "detailList-item".
Definition s_figure : pystr := Eval vm_compute in lit "figure".
Definition s_poster : pystr := Eval vm_compute in lit "detailListItem-posterImage".
Definition s_style : pystr := Eval vm_compute in lit "style".
Definition s_h2 : pystr := Eval vm_compute in lit "h2".
Definition s_title : pystr := Eval vm_compute in lit "detailListItem-title".
Definition s_h3 : pystr := Eval vm_compute in lit "h3".
Definition s_eng_title : pystr := Eval vm_compute in lit "detailListItem-engTitle".
Definition s_span : pystr := Eval vm_compute in lit "span".
Definition s_icon_text : pystr := Eval vm_compute in lit "iconInfo-text".
Definition s_div : pystr := Eval vm_compute in lit "div".
Definition s_certificate : pystr := Eval vm_compute in lit "detailListItem-certificate".
Definition s_badge : pystr := Eval vm_compute in lit "glnBadge-text".
Definition s_status : pystr := Eval vm_compute in lit "detailListItem-status".
Definition s_category : pystr := Eval vm_compute in lit "detailListItem-category".
Definition s_a : pystr := Eval vm_compute in lit "a".
Definition s_trailer : pystr := Eval vm_compute in lit "detailListItem-trailer".
Definition s_href : pystr := Eval vm_compute in lit "href".
Definition s_origin : pystr := Eval vm_compute in lit "https://today.line.me".
Definition s_data : pystr := Eval vm_compute in lit "data:".
Definition s_released : pystr := Eval vm_compute in lit "上映".
Definition s_bullet_sep : pystr := Eval vm_compute in lit " • ".

(** Single characters of the patterns. *)
Definition c_quote : char := 39%N.      (* ' *)
Definition c_dquote : char := 34%N.     (* the double quote *)
Definition c_lparen : char := 40%N.     (* ( *)
Definition c_rparen : char := 41%N.     (* ) *)
Definition c_hour1 : char := 23567%N.   (* 小 *)
Definition c_hour2 : char := 26178%N.   (* 時 *)
Definition c_minute : char := 20998%N.  (* 分 *)
Definition c_week : char := 36913%N.    (* 週 *)
Definition c_day : char := 22825%N.     (* 天 *)
Definition c_level : char := 32026%N.   (* 級 *)
Definition c_bullet : char := 8226%N.   (* • *)

Definition quotes : pystr := [c_quote; c_dquote].

(** *** The patterns

    In the comments [Q] stands for the class of the two quote characters,
    written ['] and the double quote between brackets in the source. *)

(** [url\(Q?(.*?)Q?\)], the tail the three poster patterns share. *)
Definition url_core : regex :=
  str one_i (lit "url(")
    (Cat (Opt (any_of quotes))
       (Cat (Grp (LazyStar dot))
          (Cat (Opt (any_of quotes)) (Chr (one_i c_rparen))))).

(** [background-image:\s*url\(Q?(.*?)Q?\)], IGNORECASE *)
Definition pat_background_image : regex :=
  str one_i (lit "background-image:") (Cat (Star isspace) url_core).

(** [background:\s*url\(Q?(.*?)Q?\)], IGNORECASE *)
Definition pat_background : regex :=
  str one_i (lit "background:") (Cat (Star isspace) url_core).

(** [url\(Q?(.*?)Q?\)], IGNORECASE *)
Definition pat_url : regex := url_core.

Definition patterns : list regex :=
  [pat_background_image; pat_background; pat_url].

(** [(\d+小時\d+分)] *)
Definition pat_duration : regex :=
  Grp (Cat (Plus isdecimal)
         (Cat (Chr (one c_hour1))
            (Cat (Chr (one c_hour2))
               (Cat (Plus isdecimal) (Chr (one c_minute)))))).

(** [上映(\d+週|\d+天)] *)
Definition pat_release : regex :=
  str one s_released
    (Grp (Alt (Cat (Plus isdecimal) (Chr (one c_week)))
              (Cat (Plus isdecimal) (Chr (one c_day))))).

(** [[•\s]+], the separator of [re.split] *)
Definition genre_separator : char -> bool :=
  fun c => (c =? c_bullet)%N || isspace c.

(** *** The field extractor *)

(** [movie.get(key)] as a condition: the key is there with a non-empty text. *)
Definition has (movie : gmap pystr pystr) (key : pystr) : bool :=
  match movie !! key with
  | Some v => truthy v
  | None => false
  end.

(** The loop of [extract_image_url] over the patterns, on the style text: the
    first pattern that matches with a URL that is neither empty nor inline
    data gives the result; a match that is refused moves on to the next
    pattern. *)
Fixpoint image_url_of_style (ps : list regex) (style : pystr) : pystr :=
  match ps with
  | [] => []
  | pattern :: ps' =>
      match search pattern style with
      | Some m =>
          let img_url := strip (strip_chars quotes (group_1 m)) in
          if truthy img_url && negb (startswith s_data img_url) then img_url
          else image_url_of_style ps' style
      | None => image_url_of_style ps' style
      end
  end.

Definition extract_image_url (item : node) : pystr :=
  match find item s_figure s_poster with
  | None => []
  | Some figure =>
      match attr figure s_style with
      | None => []
      | Some style => image_url_of_style patterns style
      end
  end.

Definition extract_text_content (item : node) (tag class_name : pystr) : pystr :=
  match find item tag class_name with
  | Some element => get_text element
  | None => []
  end.

(** The two searches of [extract_status_info] on the status text. *)
Definition duration_of (text : pystr) : option pystr :=
  group_1 <$> search pat_duration text.

Definition release_of (text : pystr) : option pystr :=
  (fun m => s_released ++ group_1 m) <$> search pat_release text.

(** [movie[key] = v] when there is a [v] *)
Definition set_if (key : pystr) (v : option pystr) (movie : gmap pystr pystr)
    : gmap pystr pystr :=
  match v with
  | Some x => <[key := x]> movie
  | None => movie
  end.

Definition extract_status_info (item : node) (movie : gmap pystr pystr)
    : gmap pystr pystr :=
  match find item s_div s_status with
  | Some status =>
      let text := get_text status in
      let movie := set_if K_duration (duration_of text) movie in
      set_if K_release (release_of text) movie
  | None => movie
  end.

Definition extract_category_info (item : node) (movie : gmap pystr pystr)
    : gmap pystr pystr :=
  match find item s_div s_category with
  | Some category =>
      let text := get_text category in
      if existsb (N.eqb c_level) text then
        let types := after_last c_level text in
        let type_list := filter (fun t => truthy t = true) (split_plus genre_separator types) in
        match type_list with
        | [] => movie
        | _ => <[K_genre := join s_bullet_sep type_list]> movie
        end
      else movie
  | None => movie
  end.

Definition extract_movie_info (item : node) : gmap pystr pystr :=
  let movie : gmap pystr pystr := ∅ in
  let movie := <[K_poster := extract_image_url item]> movie in
  let movie := <[K_title := extract_text_content item s_h2 s_title]> movie in
  let movie := <[K_eng_title := extract_text_content item s_h3 s_eng_title]> movie in
  let movie := <[K_rating := extract_text_content item s_span s_icon_text]> movie in
  let movie :=
    match find item s_div s_certificate with
    | Some cert_div =>
        match find cert_div s_span s_badge with
        | Some badge => <[K_certificate := get_text badge]> movie
        | None => movie
        end
    | None => movie
    end in
  let movie := extract_status_info item movie in
  let movie := extract_category_info item movie in
  match find item s_a s_trailer with
  | Some trailer =>
      match attr trailer s_href with
      | Some href => <[K_trailer := s_origin ++ href]> movie
      | None => movie
      end
  | None => movie
  end.

(** *** The parser *)

Section Pipeline.

(** [BeautifulSoup(html, 'html.parser')]: the tree of a page, or the exception
    the constructor raises on markup the parser refuses (a marked section it
    cannot read makes [bs4] raise [ParserRejectedMarkup]). *)
Variable html_parser : pystr -> result node.

(** The constructors of [linebot.models]. *)
Variable refuses : sdk.

(** The loop of [parse_movies_from_html] over the entries. *)
Fixpoint collect_movies (items : list node) (movies : list (gmap pystr pystr))
    : list (gmap pystr pystr) :=
  match items with
  | [] => movies
  | item :: items' =>
      let movie := extract_movie_info item in
      if has movie K_title then collect_movies items' (movies ++ [movie])
      else collect_movies items' movies
  end.

Definition parse_movies_from_html (html : pystr)
    : result (list (gmap pystr pystr)) :=
  soup ← html_parser html;
  Ok (collect_movies (find_all soup s_li s_item) []).

(** *** The page loader *)

(** One run of the headless browser: the outcome of each call made on it.
    [launch] stands for entering [sync_playwright()], launching the browser
    and opening the page. *)
Record playwright : Type :=
  { launch : result unit;
    set_extra_http_headers : result unit;
    set_viewport_size : result unit;
    goto : result unit;
    wait_for_selector : result unit;
    scroll_and_load_images : result unit;
    content : result pystr;
    close : result unit }.

Definition get_line_today_top_movies (p : playwright)
    : result (list (gmap pystr pystr)) :=
  _ ← launch p;
  try_finally
    (_ ← set_extra_http_headers p;
     _ ← set_viewport_size p;
     _ ← goto p;
     match wait_for_selector p with
     | Raise PlaywrightTimeoutError => Ok []
     | Raise e => Raise e
     | Ok _ =>
         _ ← scroll_and_load_images p;
         html ← content p;
         parse_movies_from_html html
     end)
    (close p).

(** *** The card renderer *)

Definition s_unknown : pystr := Eval vm_compute in lit "未知電影".
Definition s_alt_text : pystr := Eval vm_compute in lit "電影排行榜".
Definition s_star : pystr := Eval vm_compute in lit "⭐ ".
Definition s_restricted : pystr := Eval vm_compute in lit "🔞 ".
Definition s_clock : pystr := Eval vm_compute in lit "⏱️".
Definition s_clapper : pystr := Eval vm_compute in lit "🎬".
Definition s_calendar : pystr := Eval vm_compute in lit "📅".
Definition s_watch_trailer : pystr := Eval vm_compute in lit "觀看預告片".
Definition s_space : pystr := Eval vm_compute in lit " ".
Definition s_horizontal : pystr := Eval vm_compute in lit "horizontal".
Definition s_vertical : pystr := Eval vm_compute in lit "vertical".

(** [movie[key]] where [movie.get(key)] was found true *)
Definition item_of (movie : gmap pystr pystr) (key : pystr) : pystr :=
  default [] (movie !! key).

(** The rows for the duration, the genre and the release window: the loop
    over [movie_info]. *)
Fixpoint info_rows (movie_info : list (option pystr * pystr))
    (contents : list component) : result (list component) :=
  match movie_info with
  | [] => Ok contents
  | (info, icon) :: rest =>
      match info with
      | Some ((_ :: _) as text) =>
          row ← new_component refuses
                  (TextComponent (icon ++ s_space ++ text)
                     [("size", kstr "sm"); ("color", kstr "#666666");
                      ("wrap", KBool true); ("margin", kstr "xs")]);
          info_rows rest (contents ++ [row])
      | _ => info_rows rest contents
      end
  end.

(** The body of the [try] of [create_movie_bubble]. *)
Definition build_movie_bubble (movie : gmap pystr pystr) : result BubbleContainer :=
  hero ←
    (if has movie K_poster then
       Some <$> new_component refuses
                  (ImageComponent (item_of movie K_poster)
                     [("size", kstr "full"); ("aspectRatio", kstr "2:3");
                      ("aspectMode", kstr "cover")])
     else Ok None);
  title ← new_component refuses
            (TextComponent (default s_unknown (movie !! K_title))
               [("weight", kstr "bold"); ("size", kstr "lg"); ("wrap", KBool true)]);
  let contents := [title] in
  contents ←
    (if has movie K_eng_title then
       row ← new_component refuses
               (TextComponent (item_of movie K_eng_title)
                  [("size", kstr "sm"); ("color", kstr "#666666");
                   ("wrap", KBool true); ("margin", kstr "xs")]);
       Ok (contents ++ [row])
     else Ok contents);
  let rating_box := [] in
  rating_box ←
    (if has movie K_rating then
       cell ← new_component refuses
                (TextComponent (s_star ++ item_of movie K_rating)
                   [("size", kstr "sm"); ("color", kstr "#FFD700"); ("flex", KInt 1)]);
       Ok (rating_box ++ [cell])
     else Ok rating_box);
  rating_box ←
    (if has movie K_certificate then
       cell ← new_component refuses
                (TextComponent (s_restricted ++ item_of movie K_certificate)
                   [("size", kstr "sm"); ("color", kstr "#FF4757"); ("flex", KInt 1)]);
       Ok (rating_box ++ [cell])
     else Ok rating_box);
  contents ←
    (match rating_box with
     | [] => Ok contents
     | _ =>
         box ← new_component refuses
                 (BoxComponent s_horizontal rating_box [("margin", kstr "sm")]);
         Ok (contents ++ [box])
     end);
  let movie_info :=
    [(movie !! K_duration, s_clock);
     (movie !! K_genre, s_clapper);
     (movie !! K_release, s_calendar)] in
  contents ← info_rows movie_info contents;
  footer ←
    (if has movie K_trailer then
       action ← new_action refuses
                  {| label := s_watch_trailer; uri := item_of movie K_trailer |};
       button ← new_component refuses
                  (ButtonComponent action
                     [("style", kstr "primary"); ("color", kstr "#FF6B6B")]);
       Some <$> new_component refuses
                  (BoxComponent s_vertical [button] [("paddingAll", kstr "20px")])
     else Ok None);
  body ← new_component refuses
           (BoxComponent s_vertical contents
              [("spacing", kstr "sm"); ("paddingAll", kstr "20px")]);
  new_bubble refuses
    {| header := None; hero := hero; body := Some body; footer := footer |}.

(** [create_movie_bubble]: the card, or [None] when building it raised. *)
Definition create_movie_bubble (movie : gmap pystr pystr) : option BubbleContainer :=
  match build_movie_bubble movie with
  | Ok bubble => Some bubble
  | Raise _ => None
  end.

(** The two comprehensions of [get_movies]: a card for each of the first
    [MAX_MOVIES] records, then the cards that are not [None]. *)
Definition bubbles_of (movie_list : list (gmap pystr pystr)) : list BubbleContainer :=
  let bubbles := create_movie_bubble <$> take MAX_MOVIES movie_list in
  omap id bubbles.

(** [get_movies], from the records on. *)
Definition render_movies (movie_list : list (gmap pystr pystr))
    : result (option FlexSendMessage) :=
  match movie_list with
  | [] => Ok None
  | _ =>
      match bubbles_of movie_list with
      | [] => Ok None
      | bubbles =>
          carousel ← new_container refuses (CarouselContainer bubbles);
          message ← new_message refuses
                      {| alt_text := s_alt_text; contents := carousel |};
          Ok (Some message)
      end
  end.

Definition get_movies (p : playwright) : result (option FlexSendMessage) :=
  movie_list ← get_line_today_top_movies p;
  render_movies movie_list.

End Pipeline.

End Movie.

(** ** [app/utils/words.py] *)

Module Words.
Import Py Re.

(** A Python value, as [json.loads] returns them.  A float is kept as the
    text of its literal. *)
Inductive pyval : Type :=
| PyNone
| PyBool (b : bool)
| PyInt (n : Z)
| PyFloat (literal : pystr)
| PyStr (s : pystr)
| PyList (l : list pyval)
| PyDict (d : gmap pystr pyval).

(** The three shapes of an answer of the text-generation service, and the
    rest: a [str], an object with a [text] attribute, an object with a [json]
    method (and the outcome of calling it). *)
Inductive response : Type :=
| RespStr (s : pystr)
| RespText (text : pystr)
| RespJson (outcome : result pyval)
| RespOther.

Definition c_lbrace : char := 123%N.
Definition c_rbrace : char := 125%N.

(** [(\{.*\})], DOTALL *)
Definition pat_json : regex :=
  Grp (Cat (Chr (one c_lbrace)) (Cat (Star dot_all) (Chr (one c_rbrace)))).

Definition required_fields : list pystr :=
  Eval vm_compute in
    map lit ["word"; "pronunciation"; "part_of_speech"; "definition_en";
             "definition_zh"; "example_sentence"; "example_translation"].

Definition K_word : pystr := Eval vm_compute in lit "word".

(** The record used when the answer cannot be read. *)
Definition fallback_word_data : gmap pystr pyval :=
  <[lit "word" := PyStr (lit "fallback")]>
  (<[lit "pronunciation" := PyStr (lit "/ˈfɔːlbæk/")]>
  (<[lit "part_of_speech" := PyStr (lit "noun")]>
  (<[lit "definition_en" :=
       PyStr (lit "something or someone to turn to in case of failure or emergency")]>
  (<[lit "definition_zh" := PyStr (lit "備用方案、後備選擇")]>
  (<[lit "example_sentence" :=
       PyStr (lit "We need a fallback plan in case this doesn't work.")]>
  (<[lit "example_translation" :=
       PyStr (lit "我們需要一個備用計劃，以防這個不起作用。")]> ∅)))))).

Section Fetcher.

(** [json.loads] *)
Variable json_loads : pystr -> result pyval.

(** The parse of a text: directly, and when that raises [JSONDecodeError],
    of the span from the first opening brace to the last closing one. *)
Definition loads_or_extract (text : pystr) : result pyval :=
  match json_loads text with
  | Raise JSONDecodeError =>
      match search pat_json text with
      | Some json_match => json_loads (group_1 json_match)
      | None => Raise ValueError
      end
  | outcome => outcome
  end.

(** The [try] of [get_english_word], without its handler. *)
Definition parse_response (resp : response) : result pyval :=
  match resp with
  | RespStr s => loads_or_extract s
  | RespText text => loads_or_extract text
  | RespJson outcome => outcome
  | RespOther => Raise TypeError
  end.

(** The same with the handler: any exception gives the fallback record. *)
Definition recover (resp : response) : pyval :=
  match parse_response resp with
  | Ok word_data => word_data
  | Raise _ => PyDict fallback_word_data
  end.

(** [field in word_data] and [word_data[field] = ""], by the type of
    [word_data]: a list is searched and cannot take a text index, a text is
    searched for the substring and cannot be assigned to, anything else cannot
    be searched. *)
Definition fill_field (field : pystr) (word_data : pyval) : result pyval :=
  match word_data with
  | PyDict d =>
      match d !! field with
      | Some _ => Ok word_data
      | None => Ok (PyDict (<[field := PyStr []]> d))
      end
  | PyList l =>
      if existsb (fun x => match x with PyStr s => bool_decide (s = field) | _ => false end) l
      then Ok word_data else Raise TypeError
  | PyStr s => if contains field s then Ok word_data else Raise TypeError
  | _ => Raise TypeError
  end.

(** The loop over [required_fields]. *)
Fixpoint fill_required (fields : list pystr) (word_data : pyval) : result pyval :=
  match fields with
  | [] => Ok word_data
  | field :: fields' =>
      word_data ← fill_field field word_data;
      fill_required fields' word_data
  end.

(** [get_english_word] up to the call of [create_flex_bubble]: the record the
    card is made from. *)
Definition get_english_word_data (resp : response) : result pyval :=
  fill_required required_fields (recover resp).

End Fetcher.

(** *** The audio link *)

Definition tts_template : pystr :=
  Eval vm_compute in
    lit "https://translate.google.com/translate_tts?ie=UTF-8&tl=en&client=tw-ob&q=".

(** [c.encode('utf-8')] for one character; a surrogate cannot be encoded. *)
Definition utf8_encode_char (c : char) : result (list N) :=
  if (c <? 128)%N then Ok [c]
  else if (c <? 2048)%N then Ok [192 + c / 64; 128 + c mod 64]%N
  else if ((55296 <=? c) && (c <=? 57343))%N then Raise UnicodeEncodeError
  else if (c <? 65536)%N then
    Ok [224 + c / 4096; 128 + (c / 64) mod 64; 128 + c mod 64]%N
  else if (c <? 1114112)%N then
    Ok [240 + c / 262144; 128 + (c / 4096) mod 64; 128 + (c / 64) mod 64;
        128 + c mod 64]%N
  else Raise UnicodeEncodeError.

Fixpoint utf8_encode (s : pystr) : result (list N) :=
  match s with
  | [] => Ok []
  | c :: s' =>
      bs ← utf8_encode_char c;
      rest ← utf8_encode s';
      Ok (bs ++ rest)
  end.

(** The bytes [quote] leaves as they are: letters, digits, [_.-~] and [/]. *)
Definition is_safe (b : N) : bool :=
  ((65 <=? b) && (b <=? 90) || (97 <=? b) && (b <=? 122)
   || (48 <=? b) && (b <=? 57)
   || (b =? 95) || (b =? 46) || (b =? 45) || (b =? 126) || (b =? 47))%N.

Definition hex_digit (n : N) : char :=
  if (n <? 10)%N then (48 + n)%N else (55 + n)%N.

(** One byte, as [quote] writes it. *)
Definition quote_byte (b : N) : pystr :=
  if is_safe b then [b] else [37%N; hex_digit (b / 16); hex_digit (b mod 16)].

(** [urllib.parse.quote(text)] *)
Definition quote (text : pystr) : result pystr :=
  bs ← utf8_encode text;
  Ok (concat (map quote_byte bs)).

Definition generate_audio_url (text : pystr) : result pystr :=
  if negb (truthy text) then Ok []
  else
    encoded_text ← quote text;
    Ok (tts_template ++ encoded_text).

End Words.

(** ** [app/utils/words.py]: the card and the message *)

Module WordsCard.
Import Py Re Linebot Words.

(** The exceptions of this part: those above, and [KeyError]. *)
Inductive pyexc : Type :=
| Exc (e : exn)
| KeyError.

(** The outcome of a call of this part. *)
Inductive outcome (A : Type) : Type :=
| Done (a : A)
| Raised (x : pyexc).

Arguments Done {A} a.
Arguments Raised {A} x.

#[global] Instance outcome_ret : MRet outcome := fun _ a => Done a.
#[global] Instance outcome_bind : MBind outcome := fun _ _ f m =>
  match m with
  | Done a => f a
  | Raised x => Raised x
  end.

Definition lift {A : Type} (r : result A) : outcome A :=
  match r with
  | Ok a => Done a
  | Raise e => Raised (Exc e)
  end.

(** The keys of the record, other than [word]. *)
Definition K_pronunciation : pystr := Eval vm_compute in lit "pronunciation".
Definition K_part_of_speech : pystr := Eval vm_compute in lit "part_of_speech".
Definition K_definition_en : pystr := Eval vm_compute in lit "definition_en".
Definition K_definition_zh : pystr := Eval vm_compute in lit "definition_zh".
Definition K_example_sentence : pystr := Eval vm_compute in lit "example_sentence".
Definition K_example_translation : pystr := Eval vm_compute in lit "example_translation".

(** The texts of the card. *)
Definition s_header : pystr := Eval vm_compute in lit "📖英文單字".
Definition s_books : pystr := Eval vm_compute in lit "📚 ".
Definition s_open : pystr := Eval vm_compute in lit " (".
Definition s_close : pystr := Eval vm_compute in lit ")".
Definition s_speaker : pystr := Eval vm_compute in lit "🔊 ".
Definition s_definition_en : pystr := Eval vm_compute in lit "💡 英文解釋: ".
Definition s_definition_zh : pystr := Eval vm_compute in lit "📘 中文解釋: ".
Definition s_example : pystr := Eval vm_compute in lit "✏️ 例句:".
Definition s_dot : pystr := Eval vm_compute in lit "● ".
Definition s_circle : pystr := Eval vm_compute in lit "○ ".
Definition s_word_audio : pystr := Eval vm_compute in lit "🔊 單字發音".
Definition s_example_audio : pystr := Eval vm_compute in lit "🔊 例句發音".
Definition s_alt_prefix : pystr := Eval vm_compute in lit "英文單字：".
Definition s_vertical : pystr := Eval vm_compute in lit "vertical".

Section Card.

(** The constructors of [linebot.models]. *)
Variable refuses : sdk.

(** [str(v)] for a value that is not a [str]. *)
Variable py_str : pyval -> pystr.

(** The truth value of a float, given by its literal. *)
Variable float_truthy : pystr -> bool.

(** [json.loads] *)
Variable json_loads : pystr -> result pyval.

(** A value inside an f-string. *)
Definition format_value (v : pyval) : pystr :=
  match v with
  | PyStr s => s
  | _ => py_str v
  end.

(** The truth value of a value. *)
Definition truthy_value (v : pyval) : bool :=
  match v with
  | PyNone => false
  | PyBool b => b
  | PyInt n => negb (n =? 0)%Z
  | PyFloat literal => float_truthy literal
  | PyStr s => truthy s
  | PyList l => match l with [] => false | _ => true end
  | PyDict d => negb (Nat.eqb (size d) 0)
  end.

(** [word_data[key]]: a dictionary raises [KeyError] on a missing key, and
    nothing else takes a text as index. *)
Definition subscript (word_data : pyval) (key : pystr) : outcome pyval :=
  match word_data with
  | PyDict d =>
      match d !! key with
      | Some v => Done v
      | None => Raised KeyError
      end
  | _ => Raised (Exc TypeError)
  end.

(** [word_data.get(key, '')]: only a dictionary has [get]. *)
Definition get_or_empty (word_data : pyval) (key : pystr) : outcome pyval :=
  match word_data with
  | PyDict d => Done (default (PyStr []) (d !! key))
  | _ => Raised (Exc AttributeError)
  end.

(** [generate_audio_url(text)] on any value: a value that is false gives the
    empty text, [quote] raises [TypeError] on one that is true and not a
    text. *)
Definition generate_audio_url_value (text : pyval) : result pystr :=
  match text with
  | PyStr s => generate_audio_url s
  | _ => if truthy_value text then Raise TypeError else Ok []
  end.

(** The two [try] blocks of [create_flex_bubble]: the audio link of the text
    under [key], the empty text when anything raises. *)
Definition audio_url_or_empty (word_data : pyval) (key : pystr) : pystr :=
  match (text ← subscript word_data key; lift (generate_audio_url_value text)) with
  | Done url => url
  | Raised _ => []
  end.

Definition create_flex_bubble (word_data : pyval) : outcome BubbleContainer :=
  let word_audio_url := audio_url_or_empty word_data K_word in
  let example_audio_url := audio_url_or_empty word_data K_example_sentence in
  title ← lift (new_component refuses
                  (TextComponent s_header [("weight", kstr "bold"); ("size", kstr "lg")]));
  header_box ← lift (new_component refuses (BoxComponent s_vertical [title] []));
  word ← subscript word_data K_word;
  part_of_speech ← subscript word_data K_part_of_speech;
  row1 ← lift (new_component refuses
                 (TextComponent
                    (s_books ++ format_value word ++ s_open
                     ++ format_value part_of_speech ++ s_close)
                    [("weight", kstr "bold"); ("size", kstr "xl"); ("wrap", KBool true)]));
  pronunciation ← get_or_empty word_data K_pronunciation;
  row2 ← lift (new_component refuses
                 (TextComponent (s_speaker ++ format_value pronunciation)
                    [("size", kstr "md"); ("color", kstr "#888888"); ("wrap", KBool true)]));
  definition_en ← subscript word_data K_definition_en;
  row3 ← lift (new_component refuses
                 (TextComponent (s_definition_en ++ format_value definition_en)
                    [("size", kstr "sm"); ("color", kstr "#555555"); ("wrap", KBool true)]));
  definition_zh ← subscript word_data K_definition_zh;
  row4 ← lift (new_component refuses
                 (TextComponent (s_definition_zh ++ format_value definition_zh)
                    [("size", kstr "sm"); ("color", kstr "#555555"); ("wrap", KBool true)]));
  row5 ← lift (new_component refuses
                 (TextComponent s_example
                    [("weight", kstr "bold"); ("size", kstr "sm"); ("wrap", KBool true)]));
  example_sentence ← subscript word_data K_example_sentence;
  row6 ← lift (new_component refuses
                 (TextComponent (s_dot ++ format_value example_sentence)
                    [("wrap", KBool true); ("size", kstr "sm"); ("color", kstr "#333333")]));
  example_translation ← subscript word_data K_example_translation;
  row7 ← lift (new_component refuses
                 (TextComponent (s_circle ++ format_value example_translation)
                    [("wrap", KBool true); ("size", kstr "sm"); ("color", kstr "#666666")]));
  body_box ← lift (new_component refuses
                     (BoxComponent s_vertical [row1; row2; row3; row4; row5; row6; row7]
                        [("spacing", kstr "md")]));
  word_action ← lift (new_action refuses {| label := s_word_audio; uri := word_audio_url |});
  word_button ← lift (new_component refuses
                        (ButtonComponent word_action
                           [("style", kstr "primary"); ("color", kstr "#00C300")]));
  example_action ← lift (new_action refuses
                           {| label := s_example_audio; uri := example_audio_url |});
  example_button ← lift (new_component refuses
                           (ButtonComponent example_action
                              [("style", kstr "secondary"); ("color", kstr "#1E90FF")]));
  footer_box ← lift (new_component refuses
                       (BoxComponent s_vertical [word_button; example_button]
                          [("spacing", kstr "sm")]));
  lift (new_bubble refuses
          {| header := Some header_box; hero := None;
             body := Some body_box; footer := Some footer_box |}).

(** [get_english_word], from the answer of the service on. *)
Definition get_english_word (resp : response) : outcome FlexSendMessage :=
  word_data ← lift (get_english_word_data json_loads resp);
  flex_bubble ← create_flex_bubble word_data;
  word ← subscript word_data K_word;
  lift (new_message refuses
          {| alt_text := s_alt_prefix ++ format_value word;
             contents := Bubble flex_bubble |}).

End Card.

End WordsCard.


(** ** Specifications

    The notions the statements below are written with. *)

Section Specifications.
Import Py Re Bs4 Linebot Movie Words.

(** [w] occurs in [text] as a text with the property [P]. *)
Definition occurs (P : pystr -> Prop) (text : pystr) : Prop :=
  exists pre w post, text = pre ++ w ++ post /\ P w.

(** [w] is the occurrence of a text with the property [P] that starts first
    in [text]. *)
Definition first_occurrence (P : pystr -> Prop) (text w : pystr) : Prop :=
  exists pre post,
    text = pre ++ w ++ post /\ P w /\
    forall pre' w' post', text = pre' ++ w' ++ post' -> P w' -> length pre <= length pre'.

(** A number: one decimal digit or more. *)
Definition digits (d : pystr) : Prop := d <> [] /\ forallb isdecimal d = true.

(** Hours and minutes, as in 2小時15分. *)
Definition is_duration (w : pystr) : Prop :=
  exists h m, digits h /\ digits m /\ w = h ++ [c_hour1; c_hour2] ++ m ++ [c_minute].

(** A number of weeks or of days, as in 3週 and 5天. *)
Definition is_span (w : pystr) : Prop :=
  exists n u, digits n /\ (u = c_week \/ u = c_day) /\ w = n ++ [u].

(** A release window, as in 上映3週 and 上映5天. *)
Definition is_release (w : pystr) : Prop :=
  exists v, is_span v /\ w = s_released ++ v.

(** The test of [extract_image_url] on a URL: not empty, and not starting
    with the five characters [data:], compared as they are written (a URL
    written [DATA:] passes the test). *)
Definition accepted (img_url : pystr) : bool :=
  truthy img_url && negb (startswith s_data img_url).

(** The URL a pattern finds in a style text, [None] when the pattern does not
    match or its URL is refused. *)
Definition candidate (pattern : regex) (style : pystr) : option pystr :=
  m ← search pattern style;
  let img_url := strip (strip_chars quotes (group_1 m)) in
  if accepted img_url then Some img_url else None.

(** The extractor as the claim words it: the first pattern that matches
    decides, its URL is the result when accepted and the empty text
    otherwise. *)
Fixpoint first_match_wins (ps : list regex) (style : pystr) : pystr :=
  match ps with
  | [] => []
  | pattern :: ps' =>
      match search pattern style with
      | Some m =>
          let img_url := strip (strip_chars quotes (group_1 m)) in
          if accepted img_url then img_url else []
      | None => first_match_wins ps' style
      end
  end.

Definition is_paren (c : char) : bool := (c =? c_lparen)%N || (c =? c_rparen)%N.

(** [x] is the text [w], letter case apart: character by character as a
    pattern compiled with IGNORECASE compares them. *)
Fixpoint same_i (w x : pystr) : bool :=
  match w, x with
  | [], [] => true
  | a :: w', b :: x' => one_i a b && same_i w' x'
  | _, _ => false
  end.

(** [s] starts with [w], letter case apart. *)
Fixpoint starts_i (w s : pystr) : bool :=
  match w, s with
  | [], _ => true
  | a :: w', b :: s' => one_i a b && starts_i w' s'
  | _ :: _, [] => false
  end.

(** The number of places of [s] where [w] starts, letter case apart. *)
Fixpoint count_i (w s : pystr) : nat :=
  match s with
  | [] => if starts_i w [] then 1 else 0
  | _ :: s' => (if starts_i w s then 1 else 0) + count_i w s'
  end.

(** Nothing, or one quote character. *)
Definition opt_quote (q : pystr) : bool :=
  match q with
  | [] => true
  | [c] => any_of quotes c
  | _ => false
  end.

(** A URL written without parentheses, quotes or white space. *)
Definition plain_url (u : pystr) : bool :=
  forallb (fun c => negb (is_paren c) && negb (any_of quotes c) && negb (isspace c)) u.

(** A style text with a [url(...)] in it: [pre] is what comes before
    ([background-image:], [background:] or anything else), [y] is [url(] in
    some letter case, [u] is the URL between the optional quotes [q1] and
    [q2], [tail] is what follows the closing parenthesis. *)
Definition poster_style (pre y q1 u q2 tail : pystr) : pystr :=
  pre ++ y ++ q1 ++ u ++ q2 ++ [c_rparen] ++ tail.

(** A poster element with this style, and an entry that holds it. *)
Definition poster_figure (style : pystr) : node :=
  Tag s_figure [s_poster] {[ s_style := style ]} [].

(** An entry of the page with this title and these other children. *)
Definition entry (title : pystr) (others : list node) : node :=
  Tag s_li [s_item] ∅ (Tag s_h2 [s_title] ∅ [NavigableString title] :: others).

(** The text of the first row of a card: where the renderer puts the title. *)
Definition card_title (bubble : BubbleContainer) : option pystr :=
  match body bubble with
  | Some (BoxComponent _ (TextComponent text _ :: _) _) => Some text
  | _ => None
  end.

(** The record before the status is read: the poster, the titles, the rating
    and the certificate. *)
Definition head_of_record (item : node) : gmap pystr pystr :=
  let movie : gmap pystr pystr := ∅ in
  let movie := <[K_poster := extract_image_url item]> movie in
  let movie := <[K_title := extract_text_content item s_h2 s_title]> movie in
  let movie := <[K_eng_title := extract_text_content item s_h3 s_eng_title]> movie in
  let movie := <[K_rating := extract_text_content item s_span s_icon_text]> movie in
  match find item s_div s_certificate with
  | Some cert_div =>
      match find cert_div s_span s_badge with
      | Some badge => <[K_certificate := get_text badge]> movie
      | None => movie
      end
  | None => movie
  end.

(** The audio link as the claim words it: the template followed by the
    percent-encoded text, for every text. *)
Definition audio_link_as_stated (text : pystr) : result pystr :=
  encoded_text ← quote text;
  Ok (tts_template ++ encoded_text).

End Specifications.

(** ** Sample inputs *)

Section Samples.
Import Py Re Bs4 Linebot Movie Words.

(** A style with two posters: inline data under [background-image], a
    picture under a bare [url]. *)
Definition style_two_posters : pystr :=
  lit "url(http://a/p.jpg);background-image:url(data:x)".

(** An entry that holds only a poster element with this style. *)
Definition poster_entry (style : pystr) : node :=
  Tag s_li [s_item] ∅ [poster_figure style].

End Samples.


Section MoreSamples.
Import Py Re Bs4 Linebot Movie Words.

(** Constructors that refuse everything. *)
Definition refuse_all : sdk := fun _ => Some ValueError.

(** Constructors that refuse an image whose URL is not under [https]. *)
Definition https_only : sdk := fun o =>
  match o with
  | ObjComponent (ImageComponent url _) =>
      if startswith (lit "https://") url then None else Some ValueError
  | _ => None
  end.

(** A record with a title only, and one with a poster as well. *)
Definition movie_titled (title : pystr) : gmap pystr pystr := {[ K_title := title ]}.
Definition movie_with_poster (title url : pystr) : gmap pystr pystr :=
  <[K_poster := url]> (movie_titled title).

(** A page whose entries have these titles and nothing else. *)
Definition page (titles : list pystr) : node :=
  Tag (lit "[document]") [] ∅ ((fun t => entry t []) <$> titles).

(** A run of the browser in which the list never shows up. *)
Definition timed_out_run : playwright :=
  {| launch := Ok (); set_extra_http_headers := Ok (); set_viewport_size := Ok ();
     goto := Ok (); wait_for_selector := Raise PlaywrightTimeoutError;
     scroll_and_load_images := Ok (); content := Ok []; close := Ok () |}.

(** A run in which every call succeeds. *)
Definition good_run (html : pystr) : playwright :=
  {| launch := Ok (); set_extra_http_headers := Ok (); set_viewport_size := Ok ();
     goto := Ok (); wait_for_selector := Ok ();
     scroll_and_load_images := Ok (); content := Ok html; close := Ok () |}.

End MoreSamples.


Section PageSamples.
Import Py Re Bs4 Linebot Movie Words.

(** Fifteen titles, A to O. *)
Definition fifteen_titles : list pystr :=
  (fun i => [(65 + N.of_nat i)%N]) <$> seq 0 15.

(** A parser that reads every text as the page with these fifteen entries. *)
Definition fifteen_parser : pystr -> result node := fun _ => Ok (page fifteen_titles).

(** A parser that reads every text as a page with two entries. *)
Definition two_parser : pystr -> result node :=
  fun _ => Ok (page [lit "A"; lit "B"]).

(** An entry with no title element. *)
Definition untitled_entry : node := Tag s_li [s_item] ∅ [].

(** A parser that reads every text as the page with that entry alone. *)
Definition untitled_parser : pystr -> result node :=
  fun _ => Ok (Tag (lit "[document]") [] ∅ [untitled_entry]).

(** A parser that refuses every text. *)
Definition refusing_parser : pystr -> result node :=
  fun _ => Raise ParserRejectedMarkup.

End PageSamples.


Section WordSamples.
Import Py Re Words.

(** A JSON text written with the single quote for the double quote. *)
Definition json_text (s : string) : pystr :=
  (fun c => if (c =? 39)%N then 34%N else c) <$> lit s.

(** An answer with a JSON object of seven keys between two remarks. *)
Definition sample_object_text : pystr :=
  json_text "{'word':'x','pronunciation':'/x/','part_of_speech':'noun','definition_en':'d','definition_zh':'z','example_sentence':'e','example_translation':'t'}".

Definition sample_answer : pystr :=
  lit "Here it is: " ++ sample_object_text ++ lit " I hope it helps.".

Definition sample_word_data : gmap pystr pyval :=
  <[lit "word" := PyStr (lit "x")]>
  (<[lit "pronunciation" := PyStr (lit "/x/")]>
  (<[lit "part_of_speech" := PyStr (lit "noun")]>
  (<[lit "definition_en" := PyStr (lit "d")]>
  (<[lit "definition_zh" := PyStr (lit "z")]>
  (<[lit "example_sentence" := PyStr (lit "e")]>
  (<[lit "example_translation" := PyStr (lit "t")]> ∅)))))).

(** What [json.loads] does on the texts of the sample: it reads the object,
    and refuses the answer as a whole and anything else. *)
Definition sample_loads (s : pystr) : result pyval :=
  if bool_decide (s = sample_object_text) then Ok (PyDict sample_word_data)
  else Raise JSONDecodeError.

End WordSamples.


Section Decoding.
Import Py Re Words.

(** The value of a hexadecimal digit. *)
Definition hex_value (c : char) : option N :=
  if ((48 <=? c) && (c <=? 57))%N then Some (c - 48)%N
  else if ((65 <=? c) && (c <=? 70))%N then Some (c - 55)%N
  else if ((97 <=? c) && (c <=? 102))%N then Some (c - 87)%N
  else None.

(** The bytes a percent-encoded text stands for: a percent sign and two
    hexadecimal digits are one byte, any other character is itself. *)
Fixpoint percent_decode (s : pystr) : list N :=
  match s with
  | [] => []
  | c :: s' =>
      if (c =? 37)%N then
        match s' with
        | h :: l :: rest =>
            match hex_value h, hex_value l with
            | Some a, Some b => (16 * a + b)%N :: percent_decode rest
            | _, _ => c :: percent_decode s'
            end
        | _ => c :: percent_decode s'
        end
      else c :: percent_decode s'
  end.

End Decoding.


Section TextNotions.
Import Py Re Bs4 Linebot Movie Words.

(** [x] is a part of [s], in one piece. *)
Definition part_of (x s : pystr) : Prop := exists l r, s = l ++ x ++ r.

(** A text with no white space at its start nor at its end. *)
Definition trimmed (s : pystr) : Prop :=
  (forall c, head s = Some c -> isspace c = false) /\
  (forall c, last s = Some c -> isspace c = false).

(** A text with a character that is not white space. *)
Definition visible (s : pystr) : bool := existsb (fun c => negb (isspace c)) s.

End TextNotions.


Section CardNotions.
Import Py Linebot Movie.

(** The texts a component shows, in order: its own, or those of its cells. *)
Fixpoint texts_of (c : component) : list pystr :=
  match c with
  | TextComponent text _ => [text]
  | BoxComponent _ cells _ =>
      (fix go (l : list component) : list pystr :=
         match l with
         | [] => []
         | x :: l' => texts_of x ++ go l'
         end) cells
  | _ => []
  end.

(** The addresses the buttons of a component open. *)
Fixpoint links_of (c : component) : list pystr :=
  match c with
  | ButtonComponent action _ => [uri action]
  | BoxComponent _ cells _ =>
      (fix go (l : list component) : list pystr :=
         match l with
         | [] => []
         | x :: l' => links_of x ++ go l'
         end) cells
  | _ => []
  end.

(** The texts of the body of a card, the address of the picture at its top,
    and the addresses its buttons open. *)
Definition card_texts (bubble : BubbleContainer) : list pystr :=
  match body bubble with
  | Some box => texts_of box
  | None => []
  end.

Definition hero_url (bubble : BubbleContainer) : option pystr :=
  match hero bubble with
  | Some (ImageComponent url _) => Some url
  | _ => None
  end.

Definition footer_links (bubble : BubbleContainer) : list pystr :=
  match footer bubble with
  | Some box => links_of box
  | None => []
  end.

(** What a card shows of a field of the record: nothing when the record has
    no text for it, and else the text after [prefix]. *)
Definition shown (movie : gmap pystr pystr) (prefix key : pystr) : list pystr :=
  match movie !! key with
  | Some (c :: text) => [prefix ++ c :: text]
  | _ => []
  end.

(** The texts of the card of a record, from the top. *)
Definition texts_of_record (movie : gmap pystr pystr) : list pystr :=
  [default s_unknown (movie !! K_title)]
  ++ shown movie [] K_eng_title
  ++ shown movie s_star K_rating
  ++ shown movie s_restricted K_certificate
  ++ shown movie (s_clock ++ s_space) K_duration
  ++ shown movie (s_clapper ++ s_space) K_genre
  ++ shown movie (s_calendar ++ s_space) K_release.

End CardNotions.



Section CardSamples.
Import Py Re Bs4 Linebot Movie.

(** A record with a title, a poster, a duration and a trailer. *)
Definition movie_with_trailer : gmap pystr pystr :=
  <[K_trailer := lit "https://today.line.me/t/1"]>
    (<[K_duration := lit "2小時15分"]>
       (movie_with_poster (lit "B") (lit "https://a/p.jpg"))).

End CardSamples.



Section LinkNotions.
Import Py Re Words.

(** A code point UTF-8 can encode: below 0x110000 and not a surrogate. *)
Definition encodable (c : char) : bool :=
  ((c <? 55296) || (57343 <? c) && (c <? 1114112))%N.

(** A character [quote] writes: one it leaves as it is, or the percent sign. *)
Definition quoted_char (c : char) : bool := is_safe c || (c =? 37)%N.

(** A visible ASCII character: no space, no control character. *)
Definition visible_ascii (c : char) : bool := ((32 <? c) && (c <? 127))%N.

End LinkNotions.



Section WordNotions.
Import Py Re Linebot Words WordsCard.
Variable py_str : pyval -> pystr.
Variable float_truthy : pystr -> bool.

(** The value the card shows for a key of the answer: the empty text when the
    answer has no such key. *)
Definition field_of (d : gmap pystr pyval) (key : pystr) : pyval :=
  default (PyStr []) (d !! key).

(** The texts of the body of the card of an answer, from the top. *)
Definition texts_of_word (d : gmap pystr pyval) : list pystr :=
  [s_books ++ format_value py_str (field_of d K_word) ++ s_open
     ++ format_value py_str (field_of d K_part_of_speech) ++ s_close;
   s_speaker ++ format_value py_str (field_of d K_pronunciation);
   s_definition_en ++ format_value py_str (field_of d K_definition_en);
   s_definition_zh ++ format_value py_str (field_of d K_definition_zh);
   s_example;
   s_dot ++ format_value py_str (field_of d K_example_sentence);
   s_circle ++ format_value py_str (field_of d K_example_translation)].

(** The audio link of a value, the empty text when it has none. *)
Definition audio_link_of (v : pyval) : pystr :=
  match generate_audio_url_value float_truthy v with
  | Ok url => url
  | Raise _ => []
  end.

(** The texts of the header of a card. *)
Definition header_texts (bubble : BubbleContainer) : list pystr :=
  match header bubble with
  | Some box => texts_of box
  | None => []
  end.

(** The keys [create_flex_bubble] reads by subscript in the rows of the
    card; the pronunciation is read with [get]. *)
Definition subscripted_keys : list pystr :=
  [K_word; K_part_of_speech; K_definition_en; K_definition_zh;
   K_example_sentence; K_example_translation].

(** The texts of the card of the fallback record. *)
Definition fallback_texts : list pystr :=
  Eval vm_compute in
    [lit "📚 fallback (noun)";
     lit "🔊 /ˈfɔːlbæk/";
     lit "💡 英文解釋: something or someone to turn to in case of failure or emergency";
     lit "📘 中文解釋: 備用方案、後備選擇";
     lit "✏️ 例句:";
     lit "● We need a fallback plan in case this doesn't work.";
     lit "○ 我們需要一個備用計劃，以防這個不起作用。"].

End WordNotions.

Section WordSamples2.
Import Py Re Linebot Words WordsCard.

(** A [json.loads] that reads every text as the number 5. *)
Definition number_loads : pystr -> result pyval := fun _ => Ok (PyInt 5).

(** A [str] that writes every value as [?], and floats that are all true. *)
Definition plain_str : pyval -> pystr := fun _ => [63%N].
Definition floats_true : pystr -> bool := fun _ => true.

End WordSamples2.



Section LoaderSamples.
Import Py Re Bs4 Linebot Movie.

(** A run in which the list never shows up and the browser cannot be
    closed. *)
Definition failing_close_run : playwright :=
  {| launch := Ok (); set_extra_http_headers := Ok (); set_viewport_size := Ok ();
     goto := Ok (); wait_for_selector := Raise PlaywrightTimeoutError;
     scroll_and_load_images := Ok (); content := Ok [];
     close := Raise PlaywrightError |}.

End LoaderSamples.



Section AnswerSamples.
Import Py Re Words.

(** A [json.loads] for the texts [5] and [[]], read as the number and as the
    empty list; it refuses every other text. *)
Definition value_loads (s : pystr) : result pyval :=
  if bool_decide (s = lit "5") then Ok (PyInt 5)
  else if bool_decide (s = lit "[]") then Ok (PyList [])
  else Raise JSONDecodeError.

(** An answer with one key only, and a [json.loads] that reads it. *)
Definition partial_object_text : pystr := json_text "{'word':'x'}".

Definition partial_loads (s : pystr) : result pyval :=
  if bool_decide (s = partial_object_text)
  then Ok (PyDict {[ K_word := PyStr (lit "x") ]})
  else Raise JSONDecodeError.

End AnswerSamples.



(** ** Tactics *)

(** Inversion of a hypothesis, which is then dropped. *)
Ltac invert H := inversion H; subst; clear H.

(** Linear arithmetic with quotients and remainders by constants. *)
Ltac div_lia := zify; Z.to_euclidean_division_equations; lia.

(** Two keys, or two names, that differ. *)
Ltac key_ne :=
  let H := fresh in intros H; vm_compute in H; discriminate H.

(** * Properties *)

(** ** The matcher finds what the patterns match *)

Section MatcherFacts.
Import Py Re.
Context {A : Type}.
Implicit Types (p : char -> bool) (s w : pystr) (g : option pystr).

Lemma star_greedy_sound p (k : pystr -> option A) s a :
  star_greedy p k s = Some a ->
  exists w s', s = w ++ s' /\ forallb p w = true /\ k s' = Some a.
Proof.
  induction s as [|c s IH]; simpl.
  - intros H. by exists [], [].
  - destruct (p c) eqn:Hp.
    + destruct (star_greedy p k s) as [a0|] eqn:Hs.
      * intros [= <-]. destruct (IH eq_refl) as (w & s' & -> & Hw & Hk).
        exists (c :: w), s'. simpl. by rewrite Hp, Hw.
      * intros H. by exists [], (c :: s).
    + intros H. by exists [], (c :: s).
Qed.

Lemma star_greedy_total p (k : pystr -> option A) s a :
  k s = Some a -> is_Some (star_greedy p k s).
Proof.
  intros Hk. destruct s as [|c s]; simpl; [by rewrite Hk|].
  destruct (p c); [|by rewrite Hk].
  destruct (star_greedy p k s); [done|by rewrite Hk].
Qed.

Lemma star_greedy_complete p (k : pystr -> option A) w s a :
  forallb p w = true -> k s = Some a -> is_Some (star_greedy p k (w ++ s)).
Proof.
  induction w as [|c w IH]; simpl; intros Hw Hk.
  - by eapply star_greedy_total.
  - apply andb_true_iff in Hw as [Hc Hw]. rewrite Hc.
    destruct (IH Hw Hk) as [a' ->]. done.
Qed.

Lemma star_lazy_sound p (k : pystr -> option A) s a :
  star_lazy p k s = Some a ->
  exists w s', s = w ++ s' /\ forallb p w = true /\ k s' = Some a.
Proof.
  induction s as [|c s IH]; simpl.
  - destruct (k []) eqn:Hk; [|done]. intros [= <-]. by exists [], [].
  - destruct (k (c :: s)) eqn:Hk.
    + intros [= <-]. by exists [], (c :: s).
    + destruct (p c) eqn:Hp; [|done].
      intros H. destruct (IH H) as (w & s' & -> & Hw & Hk').
      exists (c :: w), s'. simpl. by rewrite Hp, Hw.
Qed.

Lemma star_lazy_complete p (k : pystr -> option A) w s a :
  forallb p w = true -> k s = Some a -> is_Some (star_lazy p k (w ++ s)).
Proof.
  induction w as [|c w IH]; simpl; intros Hw Hk.
  - destruct s; simpl; by rewrite Hk.
  - apply andb_true_iff in Hw as [Hc Hw].
    destruct (k (c :: w ++ s)); [done|]. rewrite Hc. by apply IH.
Qed.

(** Whatever the matcher returns comes from a match. *)
Lemma run_sound r s g (k : pystr -> option pystr -> option A) a :
  run r s g k = Some a ->
  exists w s' g', s = w ++ s' /\ matches r w g g' /\ k s' g' = Some a.
Proof.
  revert s g k a.
  induction r as [p|r1 IH1 r2 IH2|r1 IH1 r2 IH2|r IH|p|p|p|p]; intros s g k a; simpl.
  - destruct s as [|c s]; [done|]. destruct (p c) eqn:Hp; [|done].
    intros Hk. exists [c], s, g. split_and!; [done| |done]. by constructor.
  - intros H. apply IH1 in H as (w1 & s1 & g1 & -> & Hm1 & H).
    apply IH2 in H as (w2 & s2 & g2 & -> & Hm2 & H).
    exists (w1 ++ w2), s2, g2. rewrite <-(assoc_L (++)).
    split_and!; [done| |done]. by econstructor.
  - destruct (run r1 s g k) as [a1|] eqn:H1.
    + intros [= <-]. apply IH1 in H1 as (w & s' & g' & -> & Hm & H).
      exists w, s', g'. split_and!; [done| |done]. by apply M_AltL.
    + intros H. apply IH2 in H as (w & s' & g' & -> & Hm & H).
      exists w, s', g'. split_and!; [done| |done]. by apply M_AltR.
  - intros H. apply IH in H as (w & s' & g' & -> & Hm & H).
    rewrite length_app, Nat.add_sub, take_app_length in H.
    exists w, s', (Some w). split_and!; [done| |done]. by econstructor.
  - destruct s as [|c s].
    + intros H. exists [], [], g. split_and!; [done| |done]. constructor.
    + destruct (p c) eqn:Hp.
      * destruct (k s g) as [a1|] eqn:H1.
        -- intros [= <-]. exists [c], s, g. split_and!; [done| |done].
           by apply M_OptSome.
        -- intros H. exists [], (c :: s), g. split_and!; [done| |done]. constructor.
      * intros H. exists [], (c :: s), g. split_and!; [done| |done]. constructor.
  - intros H. apply star_greedy_sound in H as (w & s' & -> & Hw & H).
    exists w, s', g. split_and!; [done| |done]. by constructor.
  - destruct s as [|c s]; [done|]. destruct (p c) eqn:Hp; [|done].
    intros H. apply star_greedy_sound in H as (w & s' & -> & Hw & H).
    exists (c :: w), s', g. split_and!; [done| |done].
    constructor; [done|]. simpl. by rewrite Hp, Hw.
  - intros H. apply star_lazy_sound in H as (w & s' & -> & Hw & H).
    exists w, s', g. split_and!; [done| |done]. by constructor.
Qed.

(** Where there is a match that the rest of the pattern can go on from, the
    matcher finds one. *)
Lemma run_complete r w g g' :
  matches r w g g' ->
  forall s (k : pystr -> option pystr -> option A) a,
    k s g' = Some a -> is_Some (run r (w ++ s) g k).
Proof.
  induction 1 as [p c g Hp|r1 r2 w1 w2 g g1 g2 _ IH1 _ IH2|r1 r2 w g g' _ IH
                 |r1 r2 w g g' _ IH|r w g g' _ IH|p g|p c g Hp|p w g Hw
                 |p w g Hne Hw|p w g Hw]; intros s k a Hk; simpl.
  - by rewrite Hp, Hk.
  - rewrite <-(assoc_L (++)).
    destruct (IH2 s k a Hk) as [a2 H2]. by eapply IH1.
  - destruct (IH s k a Hk) as [a1 ->]. done.
  - destruct (run r1 (w ++ s) g k); [done|]. by eapply IH.
  - eapply (IH s _ a). by rewrite length_app, Nat.add_sub, take_app_length.
  - destruct s as [|c s]; simpl; [by rewrite Hk|].
    destruct (p c); [|by rewrite Hk]. destruct (k s g); [done|by rewrite Hk].
  - rewrite Hp. destruct (k s g) eqn:E; [done|]. by rewrite Hk in E.
  - by eapply star_greedy_complete.
  - destruct w as [|c w]; [done|]. simpl in *.
    apply andb_true_iff in Hw as [-> Hw]. by eapply star_greedy_complete.
  - by eapply star_lazy_complete.
Qed.

End MatcherFacts.

Section SearchFacts.
Import Py Re.
Implicit Types (r : regex) (s w : pystr) (g : option pystr).

Lemma match_here_sound r s g rest :
  match_here r s = Some (g, rest) -> exists w, s = w ++ rest /\ matches r w None g.
Proof.
  unfold match_here. intros H.
  apply run_sound in H as (w & s' & g' & -> & Hm & [= <- <-]). by exists w.
Qed.

Lemma match_here_complete r w g post :
  matches r w None g -> is_Some (match_here r (w ++ post)).
Proof. intros Hm. unfold match_here. by eapply run_complete. Qed.

Lemma match_here_None r s w post g :
  match_here r s = None -> s = w ++ post -> ~ matches r w None g.
Proof.
  intros Hn -> Hm. destruct (match_here_complete r w g post Hm) as [x Hx].
  by rewrite Hx in Hn.
Qed.

(** A search that fails: the pattern matches nowhere. *)
Lemma search_from_None r i s :
  search_from r i s = None ->
  forall pre w post g, s = pre ++ w ++ post -> ~ matches r w None g.
Proof.
  revert i. induction s as [|c s IH]; intros i; simpl.
  - destruct (match_here r []) as [[g0 rest]|] eqn:Hh; [done|].
    intros _ pre w post g Hs. symmetry in Hs.
    apply app_eq_nil in Hs as [-> Hs]. by eapply match_here_None.
  - destruct (match_here r (c :: s)) as [[g0 rest]|] eqn:Hh; [done|].
    intros Hn pre w post g Hs. destruct pre as [|c' pre].
    + by eapply match_here_None.
    + injection Hs as -> Hs. by eapply IH.
Qed.

(** A search that succeeds: the match it returns is a match of the pattern,
    and none starts before it. *)
Lemma search_from_Some r i s m :
  search_from r i s = Some m ->
  exists pre post,
    s = pre ++ group0 m ++ post /\ start m = i + length pre /\
    matches r (group0 m) None (group1 m) /\
    forall pre' w' post' g', s = pre' ++ w' ++ post' -> matches r w' None g' ->
                             length pre <= length pre'.
Proof.
  revert i. induction s as [|c s IH]; intros i.
  - simpl. destruct (match_here r []) as [[g0 rest]|] eqn:Hh; [|done].
    intros [= <-]. apply match_here_sound in Hh as (w & Hs & Hm).
    symmetry in Hs. apply app_eq_nil in Hs as [-> ->].
    exists [], []. simpl. split_and!; [done|lia|done|]. intros; lia.
  - cbn [search_from]. destruct (match_here r (c :: s)) as [[g0 rest]|] eqn:Hh.
    + intros [= <-]. clear IH. apply match_here_sound in Hh as (w & Hs & Hm).
      assert (Ht : take (S (length s) - length rest) (c :: s) = w).
      { change (S (length s)) with (length (c :: s)).
        rewrite Hs, length_app, Nat.add_sub. apply take_app_length. }
      exists [], rest. cbn [group0 group1 start]. rewrite Ht.
      split_and!; [done|simpl; lia|done|]. intros; simpl; lia.
    + intros Hn. apply IH in Hn as (pre & post & Hs & Hst & Hm & Hfirst).
      exists (c :: pre), post. split_and!.
      * by rewrite Hs at 1.
      * simpl. lia.
      * done.
      * intros [|c' pre'] w' post' g' Hs' Hm'.
        -- exfalso. exact (match_here_None r (c :: s) w' post' g' Hh Hs' Hm').
        -- injection Hs' as -> Hs'. simpl. apply le_n_S. by eapply Hfirst.
Qed.

Lemma search_is_Some r s pre w post g :
  s = pre ++ w ++ post -> matches r w None g -> is_Some (search r s).
Proof.
  intros Hs Hm. destruct (search r s) eqn:E; [done|].
  exfalso. by eapply search_from_None.
Qed.

(** A literal text in a pattern matches a text of the same length, character
    by character. *)
Lemma matches_str f lit_w tail x g g' :
  matches (str f lit_w tail) x g g' <->
  exists x1 x2, x = x1 ++ x2 /\ Forall2 (fun c y => f c y = true) lit_w x1 /\
                matches tail x2 g g'.
Proof.
  revert x g. induction lit_w as [|c lw IH]; intros x g; simpl.
  - split.
    + intros H. exists [], x. by split_and!.
    + intros (x1 & x2 & -> & Hf & H). by inversion Hf.
  - split.
    + intros H. inversion H as [|? ? w1 w2 ? g1 ? H1 H2| | | | | | | |]; subst.
      inversion H1; subst. apply IH in H2 as (x1 & x2 & -> & Hf & Ht).
      exists (c0 :: x1), x2. split_and!; [done| |done]. by constructor.
    + intros (x1 & x2 & -> & Hf & Ht). inversion Hf as [|? y ? x1' Hc Hf']; subst.
      apply (M_Cat _ _ [y] (x1' ++ x2) g g g'); [by constructor|].
      apply IH. by exists x1', x2.
Qed.

End SearchFacts.

(** ** A field read by a search is the first occurrence of its pattern *)

Section Occurrences.
Import Py Re.

Lemma one_true c x : one c x = true <-> x = c.
Proof. unfold one. apply N.eqb_eq. Qed.

Lemma Forall2_one w x : Forall2 (fun c y => one c y = true) w x <-> x = w.
Proof.
  split.
  - induction 1 as [|c y w x Hc _ IH]; [done|]. apply one_true in Hc. by subst.
  - intros ->. induction w; constructor; [by apply one_true|done].
Qed.

(** Two numbers, each followed by something that is not a digit, at the head
    of the same text, are the same number. *)
Lemma digits_run_unique d1 d2 a b r1 r2 :
  forallb isdecimal d1 = true -> forallb isdecimal d2 = true ->
  isdecimal a = false -> isdecimal b = false ->
  d1 ++ a :: r1 = d2 ++ b :: r2 -> d1 = d2 /\ a = b /\ r1 = r2.
Proof.
  revert d2. induction d1 as [|x d1 IH]; intros [|y d2]; simpl; intros H1 H2 Ha Hb E.
  - by injection E as -> ->.
  - injection E as -> _. apply andb_true_iff in H2 as [H2 _]. congruence.
  - injection E as -> _. apply andb_true_iff in H1 as [H1 _]. congruence.
  - injection E as -> E. apply andb_true_iff in H1 as [_ H1].
    apply andb_true_iff in H2 as [_ H2].
    destruct (IH d2 H1 H2 Ha Hb E) as (-> & -> & ->). done.
Qed.

Section Field.
(** A pattern [r], the property [P] of the texts it matches, and how the
    field is made from the group of the match. *)
Variable r : regex.
Variable P : pystr -> Prop.
Variable field : option pystr -> pystr.
Hypothesis matches_P : forall w g, matches r w None g -> P w /\ field g = w.
Hypothesis P_matches : forall w, P w -> exists g, matches r w None g.
Hypothesis P_unique : forall w w' post post',
  P w -> P w' -> w ++ post = w' ++ post' -> w = w'.

Lemma search_field_first text m :
  search r text = Some m -> first_occurrence P text (field (group1 m)).
Proof.
  intros H. apply search_from_Some in H as (pre & post & Hs & _ & Hm & Hfirst).
  destruct (matches_P _ _ Hm) as [HP ->].
  exists pre, post. split_and!; [done..|].
  intros pre' w' post' Hs' HP'. destruct (P_matches _ HP') as [g' Hm'].
  by eapply Hfirst.
Qed.

Lemma first_occurrence_unique text w w' :
  first_occurrence P text w -> first_occurrence P text w' -> w = w'.
Proof.
  intros (pre & post & Hs & HP & Hmin) (pre' & post' & Hs' & HP' & Hmin').
  assert (length pre = length pre') as Hlen.
  { apply Nat.le_antisymm; [by eapply Hmin|by eapply Hmin']. }
  rewrite Hs' in Hs. apply app_inj_1 in Hs as [_ Hs]; [|done].
  symmetry. by eapply P_unique.
Qed.

Lemma search_field_Some text w :
  field ∘ group1 <$> search r text = Some w <-> first_occurrence P text w.
Proof.
  split.
  - destruct (search r text) as [m|] eqn:E; [|done]. simpl.
    intros [= <-]. by apply search_field_first.
  - intros Hw. pose proof Hw as (pre & post & Hs & HP & _).
    destruct (P_matches _ HP) as [g Hm].
    destruct (search_is_Some r text pre w post g Hs Hm) as [m E].
    rewrite E. simpl. f_equal.
    eapply first_occurrence_unique; [|done]. by apply search_field_first.
Qed.

Lemma search_field_None text :
  field ∘ group1 <$> search r text = None <-> ~ occurs P text.
Proof.
  split.
  - destruct (search r text) as [m|] eqn:E; [done|]. intros _ (pre & w & post & Hs & HP).
    destruct (P_matches _ HP) as [g Hm]. by eapply search_from_None.
  - intros Hno. destruct (search r text) as [m|] eqn:E; [|done].
    exfalso. apply Hno. apply search_field_first in E as (pre & post & Hs & HP & _).
    by exists pre, (field (group1 m)), post.
Qed.

End Field.
End Occurrences.

(** ** The duration and the release window (C3) *)

Section Status.
Import Py Re Bs4 Movie.

Lemma matches_plus_digits w g g' :
  matches (Plus isdecimal) w g g' <-> digits w /\ g' = g.
Proof.
  split.
  - intros H. invert H. by split.
  - intros [[Hne Hd] ->]. by constructor.
Qed.

Lemma matches_duration w g :
  matches pat_duration w None g <-> is_duration w /\ g = Some w.
Proof.
  unfold pat_duration. split.
  - intros H. invert H.
    match goal with H : matches (Cat _ _) _ _ _ |- _ => invert H end.
    match goal with H : matches (Cat _ _) _ _ _ |- _ => invert H end.
    match goal with H : matches (Cat _ _) _ _ _ |- _ => invert H end.
    match goal with H : matches (Cat _ _) _ _ _ |- _ => invert H end.
    repeat match goal with
           | H : matches (Plus _) _ _ _ |- _ => apply matches_plus_digits in H as [? ->]
           | H : matches (Chr _) _ _ _ |- _ => invert H
           | H : one _ _ = true |- _ => apply one_true in H; subst
           end.
    split; [|done]. eexists _, _. split_and!; [| |reflexivity]; done.
  - intros [(h & m & Hh & Hm & ->) ->].
    apply (M_Grp _ _ None None).
    apply (M_Cat _ _ h _ None None None); [by apply matches_plus_digits|].
    apply (M_Cat _ _ [c_hour1] _ None None None); [by constructor|].
    apply (M_Cat _ _ [c_hour2] _ None None None); [by constructor|].
    apply (M_Cat _ _ m [c_minute] None None None); [by apply matches_plus_digits|].
    by constructor.
Qed.

Lemma matches_span w g g' :
  matches (Alt (Cat (Plus isdecimal) (Chr (one c_week)))
               (Cat (Plus isdecimal) (Chr (one c_day)))) w g g' <->
  is_span w /\ g' = g.
Proof.
  split.
  - intros H. invert H;
      match goal with H : matches (Cat _ _) _ _ _ |- _ => invert H end;
      repeat match goal with
             | H : matches (Plus _) _ _ _ |- _ => apply matches_plus_digits in H as [? ->]
             | H : matches (Chr _) _ _ _ |- _ => invert H
             | H : one _ _ = true |- _ => apply one_true in H; subst
             end;
      (split; [|done]); eexists _, _; (split_and!; [| |reflexivity]); eauto.
  - intros [(n & u & Hn & [-> | ->] & ->) ->].
    + apply M_AltL. apply (M_Cat _ _ n [c_week] g g g);
        [by apply matches_plus_digits|by constructor].
    + apply M_AltR. apply (M_Cat _ _ n [c_day] g g g);
        [by apply matches_plus_digits|by constructor].
Qed.

Lemma matches_release w g :
  matches pat_release w None g <->
  exists v, is_span v /\ w = s_released ++ v /\ g = Some v.
Proof.
  unfold pat_release. rewrite matches_str. split.
  - intros (x1 & x2 & -> & Hx1 & H). apply Forall2_one in Hx1 as ->.
    invert H. match goal with H : matches (Alt _ _) _ _ _ |- _ =>
                           apply matches_span in H as [? _] end.
    by exists x2.
  - intros (v & Hv & -> & ->). exists s_released, v.
    split_and!; [done|by apply Forall2_one|].
    apply (M_Grp _ _ None None). by apply matches_span.
Qed.

Lemma is_duration_unique w w' post post' :
  is_duration w -> is_duration w' -> w ++ post = w' ++ post' -> w = w'.
Proof.
  intros (h & m & [_ Hh] & [_ Hm] & ->) (h' & m' & [_ Hh'] & [_ Hm'] & ->) E.
  rewrite <- !app_assoc in E. simpl in E.
  apply digits_run_unique in E as (-> & _ & E); [|done..].
  injection E as E.
  apply digits_run_unique in E as (-> & _ & _); done.
Qed.

Lemma is_release_unique w w' post post' :
  is_release w -> is_release w' -> w ++ post = w' ++ post' -> w = w'.
Proof.
  intros (v & (n & u & [_ Hn] & Hu & ->) & ->) (v' & (n' & u' & [_ Hn'] & Hu' & ->) & ->) E.
  rewrite <- !app_assoc in E. apply app_inv_head in E. simpl in E.
  apply digits_run_unique in E as (-> & -> & _); [done|done|done| |].
  - by destruct Hu as [-> | ->].
  - by destruct Hu' as [-> | ->].
Qed.

Lemma duration_of_Some text w :
  duration_of text = Some w <-> first_occurrence is_duration text w.
Proof.
  unfold duration_of.
  apply (search_field_Some pat_duration is_duration (default [])).
  - intros w0 g H. apply matches_duration in H as [H ->]. done.
  - intros w0 H. exists (Some w0). by apply matches_duration.
  - apply is_duration_unique.
Qed.

Lemma duration_of_None text :
  duration_of text = None <-> ~ occurs is_duration text.
Proof.
  unfold duration_of.
  apply (search_field_None pat_duration is_duration (default [])).
  - intros w0 g H. apply matches_duration in H as [H ->]. done.
  - intros w0 H. exists (Some w0). by apply matches_duration.
Qed.

Lemma release_of_Some text w :
  release_of text = Some w <-> first_occurrence is_release text w.
Proof.
  unfold release_of.
  apply (search_field_Some pat_release is_release (fun g => s_released ++ default [] g)).
  - intros w0 g H. apply matches_release in H as (v & Hv & -> & ->).
    split; [by exists v|done].
  - intros w0 (v & Hv & ->). exists (Some v). apply matches_release. by exists v.
  - apply is_release_unique.
Qed.

Lemma release_of_None text :
  release_of text = None <-> ~ occurs is_release text.
Proof.
  unfold release_of.
  apply (search_field_None pat_release is_release (fun g => s_released ++ default [] g)).
  - intros w0 g H. apply matches_release in H as (v & Hv & -> & ->).
    split; [by exists v|done].
  - intros w0 (v & Hv & ->). exists (Some v). apply matches_release. by exists v.
Qed.

End Status.

(** ** The record of an entry, key by key *)

Section Record.
Import Py Re Bs4 Movie.
Implicit Types (movie : gmap pystr pystr) (item : node).

Lemma lookup_set_if_ne key key' v movie :
  key <> key' -> set_if key v movie !! key' = movie !! key'.
Proof. intros Hne. destruct v; simpl; [by rewrite lookup_insert_ne|done]. Qed.

Lemma lookup_set_if key v movie :
  movie !! key = None -> set_if key v movie !! key = v.
Proof. intros Hm. destruct v; simpl; [by rewrite lookup_insert_eq|done]. Qed.

Lemma lookup_category_ne item movie key :
  key <> K_genre -> extract_category_info item movie !! key = movie !! key.
Proof.
  intros Hne. unfold extract_category_info.
  repeat case_match; try done. by rewrite lookup_insert_ne.
Qed.

Lemma extract_movie_info_unfold item :
  extract_movie_info item =
  let movie := extract_category_info item (extract_status_info item (head_of_record item)) in
  match find item s_a s_trailer with
  | Some trailer =>
      match attr trailer s_href with
      | Some href => <[K_trailer := s_origin ++ href]> movie
      | None => movie
      end
  | None => movie
  end.
Proof. reflexivity. Qed.

Lemma head_of_record_title item :
  head_of_record item !! K_title = Some (extract_text_content item s_h2 s_title).
Proof.
  unfold head_of_record. repeat case_match;
    rewrite ?(lookup_insert_ne _ K_certificate) by key_ne;
    rewrite (lookup_insert_ne _ K_rating) by key_ne;
    rewrite (lookup_insert_ne _ K_eng_title) by key_ne;
    by rewrite lookup_insert_eq.
Qed.

Lemma head_of_record_no_status item key :
  key = K_duration \/ key = K_release -> head_of_record item !! key = None.
Proof.
  unfold head_of_record. intros [-> | ->]; repeat case_match;
    rewrite ?(lookup_insert_ne _ K_certificate) by key_ne;
    rewrite (lookup_insert_ne _ K_rating) by key_ne;
    rewrite (lookup_insert_ne _ K_eng_title) by key_ne;
    rewrite (lookup_insert_ne _ K_title) by key_ne;
    by rewrite (lookup_insert_ne _ K_poster) by key_ne.
Qed.

Lemma extract_movie_info_title item :
  extract_movie_info item !! K_title = Some (extract_text_content item s_h2 s_title).
Proof.
  rewrite extract_movie_info_unfold. cbv zeta.
  assert (extract_category_info item (extract_status_info item (head_of_record item))
            !! K_title = Some (extract_text_content item s_h2 s_title)) as H.
  { rewrite lookup_category_ne by key_ne. unfold extract_status_info.
    case_match; [|apply head_of_record_title].
    rewrite !lookup_set_if_ne by key_ne. apply head_of_record_title. }
  repeat case_match; try done. by rewrite lookup_insert_ne by key_ne.
Qed.

Lemma extract_movie_info_status item key :
  key = K_duration \/ key = K_release ->
  extract_movie_info item !! key = extract_status_info item (head_of_record item) !! key.
Proof.
  intros Hk. rewrite extract_movie_info_unfold. cbv zeta.
  assert (key <> K_genre /\ key <> K_trailer) as [H1 H2].
  { destruct Hk as [-> | ->]; split; key_ne. }
  repeat case_match; rewrite ?lookup_insert_ne by done; by rewrite lookup_category_ne.
Qed.

Lemma extract_movie_info_duration item :
  extract_movie_info item !! K_duration =
  status ← find item s_div s_status; duration_of (get_text status).
Proof.
  rewrite extract_movie_info_status by auto. unfold extract_status_info.
  destruct (find item s_div s_status) as [status|]; simpl.
  - rewrite lookup_set_if_ne by key_ne. apply lookup_set_if.
    apply head_of_record_no_status. auto.
  - apply head_of_record_no_status. auto.
Qed.

Lemma extract_movie_info_release item :
  extract_movie_info item !! K_release =
  status ← find item s_div s_status; release_of (get_text status).
Proof.
  rewrite extract_movie_info_status by auto. unfold extract_status_info.
  destruct (find item s_div s_status) as [status|]; simpl.
  - apply lookup_set_if. rewrite lookup_set_if_ne by key_ne.
    apply head_of_record_no_status. auto.
  - apply head_of_record_no_status. auto.
Qed.

End Record.

Section StatusClaim.
Import Py Re Bs4 Movie.

(** C3.  For the text of the status element of an entry: the duration field is
    the occurrence of hours and minutes (as in 2小時15分) that starts first in
    the text, and is absent exactly when the text has none; independently, the
    release window is the first occurrence of 上映 followed by a number of 週
    or of 天, and is absent exactly when the text has none.  An entry with no
    status element has neither field. *)
Theorem status_fields_first_occurrence (item : node) :
  let movie := extract_movie_info item in
  match find item s_div s_status with
  | Some status =>
      let text := get_text status in
      (forall w, movie !! K_duration = Some w <-> first_occurrence is_duration text w) /\
      (movie !! K_duration = None <-> ~ occurs is_duration text) /\
      (forall w, movie !! K_release = Some w <-> first_occurrence is_release text w) /\
      (movie !! K_release = None <-> ~ occurs is_release text)
  | None => movie !! K_duration = None /\ movie !! K_release = None
  end.
Proof.
  cbv zeta. rewrite extract_movie_info_duration, extract_movie_info_release.
  destruct (find item s_div s_status) as [status|]; simpl; [|done].
  split_and!.
  - apply duration_of_Some.
  - apply duration_of_None.
  - apply release_of_Some.
  - apply release_of_None.
Qed.

(** The texts of the specification. *)
Example duration_2h15 :
  duration_of (lit "2小時15分") = Some (lit "2小時15分") /\
  duration_of (lit "片長 2小時15分，上映3週") = Some (lit "2小時15分") /\
  duration_of (lit "上映3週") = None.
Proof. by vm_compute. Qed.

Example release_weeks_days :
  release_of (lit "上映3週") = Some (lit "上映3週") /\
  release_of (lit "上映5天") = Some (lit "上映5天") /\
  release_of (lit "2小時15分") = None.
Proof. by vm_compute. Qed.

End StatusClaim.

(** ** Entries without a title (C1) *)

Section Untitled.
Import Py Re Bs4 Movie.
Variable html_parser : pystr -> result node.

Lemma has_title_iff item :
  has (extract_movie_info item) K_title = true <->
  extract_text_content item s_h2 s_title <> [].
Proof.
  unfold has. rewrite extract_movie_info_title.
  by destruct (extract_text_content item s_h2 s_title).
Qed.

Lemma collect_movies_filter items movies :
  collect_movies items movies =
  movies ++ (extract_movie_info <$>
             (filter (fun i => extract_text_content i s_h2 s_title <> []) items)).
Proof.
  revert movies. induction items as [|item items IH]; intros movies; simpl.
  - by rewrite app_nil_r.
  - rewrite filter_cons. destruct (has (extract_movie_info item) K_title) eqn:E.
    + apply has_title_iff in E. rewrite decide_True by done.
      rewrite IH, <-app_assoc. done.
    + rewrite decide_False; [by apply IH|].
      intros H. apply has_title_iff in H. congruence.
Qed.

(** The records of a page are those of its entries with a title, in the order
    of the page. *)
Lemma parse_movies_filter html soup :
  html_parser html = Ok soup ->
  parse_movies_from_html html_parser html =
  Ok (extract_movie_info <$>
        (filter (fun i => extract_text_content i s_h2 s_title <> [])
                (find_all soup s_li s_item))).
Proof.
  intros Hsoup. unfold parse_movies_from_html. rewrite Hsoup. simpl.
  by rewrite collect_movies_filter.
Qed.

(** The parser returns records only from a tree, and raises what the
    construction of the tree raises. *)
Lemma parse_movies_Ok html movies :
  parse_movies_from_html html_parser html = Ok movies ->
  exists soup,
    html_parser html = Ok soup /\
    movies = extract_movie_info <$>
               (filter (fun i => extract_text_content i s_h2 s_title <> [])
                       (find_all soup s_li s_item)).
Proof.
  destruct (html_parser html) as [soup|e] eqn:Hsoup.
  - rewrite (parse_movies_filter html soup Hsoup). intros [= <-]. by exists soup.
  - unfold parse_movies_from_html. by rewrite Hsoup.
Qed.

Lemma parse_movies_Raise html e :
  parse_movies_from_html html_parser html = Raise e <-> html_parser html = Raise e.
Proof.
  unfold parse_movies_from_html. destruct (html_parser html); simpl; [done|].
  split; by intros [= ->].
Qed.

Lemma parsed_movie_has_title html movies movie :
  parse_movies_from_html html_parser html = Ok movies ->
  movie ∈ movies ->
  exists t, movie !! K_title = Some t /\ t <> [].
Proof.
  intros Hp H. apply parse_movies_Ok in Hp as (soup & _ & ->).
  apply list_elem_of_fmap in H as (item & -> & H).
  apply list_elem_of_filter in H as [H _].
  exists (extract_text_content item s_h2 s_title).
  by rewrite extract_movie_info_title.
Qed.

(** C1.  For an entry with no title element: the extractor finds no title
    (the text it stores under 中文片名 is empty), the record of the entry is not
    in what the parser returns, and every record the parser returns has a
    title that is not empty. *)
Theorem untitled_entry_left_out (html : pystr) (item : node) :
  find item s_h2 s_title = None ->
  extract_text_content item s_h2 s_title = [] /\
  extract_movie_info item !! K_title = Some [] /\
  has (extract_movie_info item) K_title = false /\
  (forall movies,
     parse_movies_from_html html_parser html = Ok movies ->
     (extract_movie_info item ∉ movies) /\
     (forall movie, movie ∈ movies ->
                    exists t, movie !! K_title = Some t /\ t <> [])).
Proof.
  intros Hfind.
  assert (extract_text_content item s_h2 s_title = []) as Hno.
  { unfold extract_text_content. by rewrite Hfind. }
  assert (extract_movie_info item !! K_title = Some []) as Hkey.
  { by rewrite extract_movie_info_title, Hno. }
  split_and!; [done|done| |].
  - unfold has. by rewrite Hkey.
  - intros movies Hp. split.
    + intros Hin. apply (parsed_movie_has_title html movies _ Hp) in Hin
        as (t & Ht & Hne). congruence.
    + intros movie. by apply (parsed_movie_has_title html movies).
Qed.

End Untitled.

(** ** Stripping *)

Section Stripping.
Import Py.
Implicit Types (p : char -> bool) (s x y : pystr).

Lemma lstrip_app p x y :
  lstrip p (x ++ y) = if forallb p x then lstrip p y else lstrip p x ++ y.
Proof.
  induction x as [|c x IH]; simpl; [done|].
  destruct (p c); simpl; [done|]. by destruct y.
Qed.

Lemma lstrip_all p x : forallb p x = true -> lstrip p x = [].
Proof.
  induction x as [|c x IH]; simpl; [done|].
  intros H. apply andb_true_iff in H as [-> H]. auto.
Qed.

Lemma lstrip_none p x : forallb (fun c => negb (p c)) x = true -> lstrip p x = x.
Proof.
  destruct x as [|c x]; simpl; [done|].
  intros H. apply andb_true_iff in H as [H _]. by destruct (p c).
Qed.

Lemma forallb_rev (q : char -> bool) x : forallb q (rev x) = forallb q x.
Proof.
  induction x as [|c x IH]; simpl; [done|].
  rewrite forallb_app, IH. simpl. rewrite andb_true_r. apply andb_comm.
Qed.

Lemma rstrip_none p x : forallb (fun c => negb (p c)) x = true -> rstrip p x = x.
Proof.
  intros H. unfold rstrip. rewrite lstrip_none.
  - apply rev_involutive.
  - by rewrite forallb_rev.
Qed.

Lemma rstrip_snoc p x c : p c = true -> rstrip p (x ++ [c]) = rstrip p x.
Proof. intros Hc. unfold rstrip. rewrite rev_app_distr. simpl. by rewrite Hc. Qed.

Lemma rstrip_nil p : rstrip p [] = [].
Proof. done. Qed.

(** One character of the stripped class, before or after a text, changes
    nothing to the text stripped at both ends. *)
Lemma strip_both_cons p x c :
  p c = true -> rstrip p (lstrip p (c :: x)) = rstrip p (lstrip p x).
Proof. intros Hc. simpl. by rewrite Hc. Qed.

Lemma strip_both_snoc p x c :
  p c = true -> rstrip p (lstrip p (x ++ [c])) = rstrip p (lstrip p x).
Proof.
  intros Hc. rewrite lstrip_app. destruct (forallb p x) eqn:E.
  - simpl. rewrite Hc. by rewrite lstrip_all.
  - by apply rstrip_snoc.
Qed.

Lemma strip_both_none p x :
  forallb (fun c => negb (p c)) x = true -> rstrip p (lstrip p x) = x.
Proof. intros H. rewrite lstrip_none by done. by apply rstrip_none. Qed.

End Stripping.

(** ** The poster URL (C2) *)

Section Poster.
Import Py Re Bs4 Movie.
Implicit Types (s x w pre tail u body : pystr) (c d : char).

(** A character of a pattern that is not a letter matches itself only, also
    with IGNORECASE. *)
Lemma one_i_exact c d : (c <? 65)%N = true -> one_i c d = true -> d = c.
Proof.
  intros Hc. apply N.ltb_lt in Hc. unfold one_i.
  assert (lower_ascii c = c) as ->.
  { unfold lower_ascii. destruct (N.leb_spec 65 c); [lia|done]. }
  assert ((c =? 105) = false /\ (c =? 107) = false /\ (c =? 115) = false)%N
    as (-> & -> & ->) by (split_and!; apply N.eqb_neq; lia).
  simpl. rewrite !orb_false_r. intros H. apply N.eqb_eq in H.
  unfold lower_ascii in H.
  destruct (N.leb_spec 65 d), (N.leb_spec d 90); simpl in H; lia.
Qed.

Lemma one_i_refl c : one_i c c = true.
Proof. unfold one_i. by rewrite N.eqb_refl. Qed.

Lemma Forall2_one_i_refl w : Forall2 (fun c y => one_i c y = true) w w.
Proof. induction w; constructor; [apply one_i_refl|done]. Qed.

Lemma opt_quote_cases q :
  opt_quote q = true -> q = [] \/ exists c, q = [c] /\ any_of quotes c = true.
Proof. destruct q as [|c [|]]; simpl; intros H; [by left|right; by exists c|done]. Qed.

Lemma matches_opt_quote q g g' :
  matches (Opt (any_of quotes)) q g g' <-> opt_quote q = true /\ g' = g.
Proof.
  split.
  - intros H. invert H; [done|]. by split.
  - intros [H ->]. apply opt_quote_cases in H as [-> | (c & -> & Hc)]; by constructor.
Qed.

(** What the tail of the three patterns matches: three characters and an
    opening parenthesis, then the group between two optional quotes, then a
    closing parenthesis. *)
Lemma matches_url_core x g g' :
  matches url_core x g g' ->
  exists w q1 body q2,
    x = w ++ [c_lparen] ++ q1 ++ body ++ q2 ++ [c_rparen] /\
    opt_quote q1 = true /\ opt_quote q2 = true /\
    forallb dot body = true /\ g' = Some body.
Proof.
  unfold url_core. rewrite matches_str. intros (x1 & x2 & -> & Hx1 & H).
  change (lit "url(") with [117; 114; 108; c_lparen]%N in Hx1.
  invert Hx1.
  repeat match goal with H : Forall2 _ (_ :: _) _ |- _ => invert H end.
  match goal with H : Forall2 _ [] _ |- _ => invert H end.
  match goal with H : one_i c_lparen _ = true |- _ => apply one_i_exact in H as ->; [|done] end.
  repeat match goal with
         | H : matches (Cat _ _) _ _ _ |- _ => invert H
         | H : matches (Grp _) _ _ _ |- _ => invert H
         | H : matches (LazyStar _) _ _ _ |- _ => invert H
         | H : matches (Opt _) _ _ _ |- _ => apply matches_opt_quote in H as [? ->]
         | H : matches (Chr _) _ _ _ |- _ => invert H
         | H : one_i c_rparen _ = true |- _ => apply one_i_exact in H as ->; [|done]
         end.
  eexists [_; _; _], _, _, _. by split_and!.
Qed.

Lemma matches_patterns p x g :
  p ∈ patterns -> matches p x None g ->
  exists w q1 body q2,
    x = w ++ [c_lparen] ++ q1 ++ body ++ q2 ++ [c_rparen] /\
    opt_quote q1 = true /\ opt_quote q2 = true /\
    forallb dot body = true /\ g = Some body.
Proof.
  unfold patterns. rewrite !elem_of_cons, elem_of_nil.
  intros [-> | [-> | [-> | []]]]; [| |apply matches_url_core];
    (unfold pat_background_image, pat_background;
     rewrite matches_str; intros (x1 & x2 & -> & _ & H); invert H;
     match goal with H : matches (Star _) _ _ _ |- _ => invert H end;
     match goal with H : matches url_core _ _ _ |- _ =>
       apply matches_url_core in H as (w & q1 & body & q2 & -> & ? & ? & ? & ->) end;
     exists (x1 ++ w1 ++ w), q1, body, q2; split_and!; try done;
     by rewrite <-!app_assoc).
Qed.

Lemma forallb_impl (f f' : char -> bool) s :
  (forall c, f c = true -> f' c = true) -> forallb f s = true -> forallb f' s = true.
Proof. intros Hi. rewrite !forallb_forall. auto. Qed.

Lemma opt_quote_forallb (f : char -> bool) q :
  f c_quote = true -> f c_dquote = true -> opt_quote q = true -> forallb f q = true.
Proof.
  intros H1 H2 Hq. apply opt_quote_cases in Hq as [-> | (c & -> & Hc)]; [done|].
  simpl. rewrite andb_true_r. unfold any_of, quotes in Hc. simpl in Hc.
  rewrite orb_false_r in Hc. apply orb_true_iff in Hc as [Hc | Hc];
    apply N.eqb_eq in Hc; by subst.
Qed.

End Poster.

Section PosterStyle.
Import Py Re Bs4 Movie.
Implicit Types (s x w pre tail u body : pystr) (c d : char).

Lemma strip_plain u :
  plain_url u = true -> strip (strip_chars quotes u) = u.
Proof.
  intros Hu. unfold strip, strip_chars.
  rewrite (strip_both_none (fun c => existsb (N.eqb c) quotes)).
  - apply strip_both_none. revert Hu. apply forallb_impl. intros c H.
    by apply andb_true_iff in H as [_ H].
  - revert Hu. apply forallb_impl. intros c H.
    apply andb_true_iff in H as [H _]. by apply andb_true_iff in H as [_ H].
Qed.

Lemma startswith_spec (w s : pystr) :
  startswith w s = true <-> exists r, s = w ++ r.
Proof.
  revert s. induction w as [|a w IH]; intros s; simpl.
  - split; [by exists s|done].
  - destruct s as [|b s]; [split; [done|by intros (r & ?)]|].
    rewrite andb_true_iff, IH, N.eqb_eq. split.
    + intros [-> (r & ->)]. by exists r.
    + intros (r & [= -> ->]). split; [done|by exists r].
Qed.

End PosterStyle.

Section Count.
Import Py Re Bs4 Movie.
Implicit Types (w x s r a : pystr).

Lemma same_i_Forall2 w x :
  same_i w x = true <-> Forall2 (fun c y => one_i c y = true) w x.
Proof.
  revert x. induction w as [|a w IH]; intros [|b x]; simpl; split; try done.
  - intros H. inversion H.
  - intros H. inversion H.
  - intros H. apply andb_true_iff in H as [H1 H2]. constructor; [done|by apply IH].
  - intros H. inversion H; subst. apply andb_true_iff. split; [done|by apply IH].
Qed.

Lemma starts_i_app w x r : same_i w x = true -> starts_i w (x ++ r) = true.
Proof.
  revert x. induction w as [|a w IH]; intros [|b x]; simpl; try done.
  intros H. apply andb_true_iff in H as [-> H]. by apply IH.
Qed.

Lemma same_i_length w x : same_i w x = true -> length x = length w.
Proof.
  revert x. induction w as [|a w IH]; intros [|b x]; simpl; try done.
  intros H. apply andb_true_iff in H as [_ H]. by rewrite (IH x H).
Qed.

Lemma count_i_ge w a r : starts_i w r = true -> 1 <= count_i w (a ++ r).
Proof.
  intros H. induction a as [|c a IH]; simpl.
  - destruct r; simpl; rewrite H; lia.
  - lia.
Qed.

Lemma count_i_lt w a1 r1 a2 r2 :
  a1 ++ r1 = a2 ++ r2 -> starts_i w r1 = true -> starts_i w r2 = true ->
  length a1 < length a2 -> 2 <= count_i w (a1 ++ r1).
Proof.
  revert a2. induction a1 as [|c a1 IH]; intros [|c' a2] E H1 H2 Hlen;
    simpl in *; try lia.
  - subst r1. simpl in *. rewrite H1. pose proof (count_i_ge w a2 r2 H2). lia.
  - injection E as -> E. assert (length a1 < length a2) as Hl by lia.
    pose proof (IH a2 E H1 H2 Hl). lia.
Qed.

Lemma count_i_one w s a1 r1 a2 r2 :
  count_i w s = 1 -> s = a1 ++ r1 -> s = a2 ++ r2 ->
  starts_i w r1 = true -> starts_i w r2 = true -> a1 = a2 /\ r1 = r2.
Proof.
  intros Hc E1 E2 H1 H2.
  assert (length a1 = length a2) as Hlen.
  { destruct (Nat.lt_trichotomy (length a1) (length a2)) as [Hl | [Hl | Hl]]; [|done|].
    - assert (a1 ++ r1 = a2 ++ r2) as E by congruence.
      pose proof (count_i_lt w a1 r1 a2 r2 E H1 H2 Hl). rewrite <-E1 in H. lia.
    - assert (a2 ++ r2 = a1 ++ r1) as E by congruence.
      pose proof (count_i_lt w a2 r2 a1 r1 E H2 H1 Hl). rewrite <-E2 in H. lia. }
  apply app_inj_1; [done|congruence].
Qed.

End Count.

Section Operational.
Import Py Re Bs4 Movie.
Context {A : Type}.
Implicit Types (w x s r u b : pystr) (g : option pystr).

Lemma run_str f w x tail s g (k : pystr -> option pystr -> option A) :
  Forall2 (fun c y => f c y = true) w x ->
  run (str f w tail) (x ++ s) g k = run tail s g k.
Proof. induction 1 as [|c y w x Hc _ IH]; simpl; [done|]. by rewrite Hc. Qed.

Lemma star_greedy_run p (K : pystr -> option A) sp s a :
  forallb p sp = true -> K s = Some a ->
  (forall c s', s = c :: s' -> p c = false) ->
  star_greedy p K (sp ++ s) = Some a.
Proof.
  intros Hsp HK Hs. induction sp as [|c sp IH]; simpl in *.
  - destruct s as [|c s']; simpl; [done|]. by rewrite (Hs c s' eq_refl).
  - apply andb_true_iff in Hsp as [-> Hsp]. by rewrite (IH Hsp).
Qed.

Lemma star_lazy_here p (F : pystr -> option A) s a :
  F s = Some a -> star_lazy p F s = Some a.
Proof. intros H. destruct s; simpl; by rewrite H. Qed.

Lemma star_lazy_skip p (F : pystr -> option A) u rest :
  forallb p u = true ->
  (forall u1 c u2, u = u1 ++ c :: u2 -> F (c :: u2 ++ rest) = None) ->
  star_lazy p F (u ++ rest) = star_lazy p F rest.
Proof.
  induction u as [|c u IH]; intros Hp HF; [done|]. simpl in *.
  apply andb_true_iff in Hp as [-> Hp]. rewrite (HF [] c u eq_refl).
  apply IH; [done|]. intros u1 c' u2 ->. by apply (HF (c :: u1) c' u2).
Qed.

End Operational.

Section UrlTail.
Import Py Re Bs4 Movie.
Implicit Types (w x s r u b q : pystr) (g : option pystr) (c : char).

Lemma quote_not_rparen c : any_of quotes c = true -> one_i c_rparen c = false.
Proof.
  unfold any_of, quotes. simpl. rewrite orb_false_r. intros H.
  apply orb_true_iff in H as [H | H]; apply N.eqb_eq in H; by subst.
Qed.

Lemma plain_char c :
  negb (is_paren c) && negb (any_of quotes c) && negb (isspace c) = true ->
  any_of quotes c = false /\ one_i c_rparen c = false /\ dot c = true.
Proof.
  intros H. apply andb_true_iff in H as [H H3]. apply andb_true_iff in H as [H1 H2].
  apply negb_true_iff in H1, H2, H3. split_and!; [done| |].
  - destruct (one_i c_rparen c) eqn:E; [|done].
    apply one_i_exact in E as ->; [|done]. by vm_compute in H1.
  - unfold dot. destruct (N.eqb_spec c 10) as [-> |]; [by vm_compute in H3|done].
Qed.

(** The end of the pattern, after the group: an optional quote and the
    closing parenthesis. *)
Lemma run_close {A : Type} q b g (K : pystr -> option pystr -> option A) :
  opt_quote q = true ->
  run (Cat (Opt (any_of quotes)) (Chr (one_i c_rparen))) (q ++ [c_rparen] ++ b) g K
  = K b g.
Proof.
  intros Hq. apply opt_quote_cases in Hq as [-> | (c & -> & Hc)]; cbn [run app].
  - assert (any_of quotes c_rparen = false) as -> by done.
    assert (one_i c_rparen c_rparen = true) as -> by done. done.
  - rewrite Hc. assert (one_i c_rparen c_rparen = true) as -> by done.
    rewrite (quote_not_rparen c Hc). by destruct (K b g).
Qed.

Lemma run_close_fail {A : Type} c s g (K : pystr -> option pystr -> option A) :
  any_of quotes c = false -> one_i c_rparen c = false ->
  run (Cat (Opt (any_of quotes)) (Chr (one_i c_rparen))) (c :: s) g K = None.
Proof. intros H1 H2. cbn [run]. by rewrite H1, H2. Qed.

Lemma run_group u q2 b g :
  plain_url u = true -> opt_quote q2 = true ->
  run (Cat (Grp (LazyStar dot))
         (Cat (Opt (any_of quotes)) (Chr (one_i c_rparen))))
      (u ++ q2 ++ [c_rparen] ++ b) g (fun rest g' => Some (g', rest))
  = Some (Some u, b).
Proof.
  intros Hu Hq. cbn [run].
  rewrite star_lazy_skip.
  - apply star_lazy_here.
    change (run (Cat (Opt (any_of quotes)) (Chr (one_i c_rparen)))
              (q2 ++ [c_rparen] ++ b)
              (Some (take (length (u ++ q2 ++ [c_rparen] ++ b)
                           - length (q2 ++ [c_rparen] ++ b))
                          (u ++ q2 ++ [c_rparen] ++ b)))
              (fun rest g' => Some (g', rest)) = Some (Some u, b)).
    rewrite run_close by done.
    by rewrite length_app, Nat.add_sub, take_app_length.
  - revert Hu. apply forallb_impl. intros c Hc. by apply plain_char in Hc as (_ & _ & ?).
  - intros u1 c u2 ->. unfold plain_url in Hu. rewrite forallb_app in Hu.
    apply andb_true_iff in Hu as [_ Hu]. simpl in Hu.
    apply andb_true_iff in Hu as [Hc _]. apply plain_char in Hc as (H1 & H2 & _).
    change (run (Cat (Opt (any_of quotes)) (Chr (one_i c_rparen)))
              (c :: u2 ++ q2 ++ [c_rparen] ++ b)
              (Some (take (length ((u1 ++ c :: u2) ++ q2 ++ [c_rparen] ++ b)
                           - length (c :: u2 ++ q2 ++ [c_rparen] ++ b))
                          ((u1 ++ c :: u2) ++ q2 ++ [c_rparen] ++ b)))
              (fun rest g' => Some (g', rest)) = None).
    by apply run_close_fail.
Qed.

End UrlTail.

Section Steps.
Import Py Re Bs4 Movie.
Context {A : Type}.
Implicit Types (s : pystr) (g : option pystr) (k : pystr -> option pystr -> option A).

Lemma run_cat r1 r2 s g k :
  run (Cat r1 r2) s g k = run r1 s g (fun s' g' => run r2 s' g' k).
Proof. reflexivity. Qed.

Lemma run_star p s g k : run (Star p) s g k = star_greedy p (fun s' => k s' g) s.
Proof. reflexivity. Qed.

Lemma run_opt_some p c s g k a :
  p c = true -> k s g = Some a -> run (Opt p) (c :: s) g k = Some a.
Proof. intros Hc Hk. cbn [run]. by rewrite Hc, Hk. Qed.

Lemma run_opt_skip p c s g k :
  p c = false -> run (Opt p) (c :: s) g k = k (c :: s) g.
Proof. intros Hc. cbn [run]. by rewrite Hc. Qed.

End Steps.

Section UrlCore.
Import Py Re Bs4 Movie.
Implicit Types (w x s u b q y : pystr) (g : option pystr) (c : char).

Lemma run_url_tail q1 u q2 b :
  opt_quote q1 = true -> opt_quote q2 = true -> plain_url u = true ->
  run (Cat (Opt (any_of quotes))
         (Cat (Grp (LazyStar dot))
            (Cat (Opt (any_of quotes)) (Chr (one_i c_rparen)))))
      (q1 ++ u ++ q2 ++ [c_rparen] ++ b) None (fun rest g' => Some (g', rest))
  = Some (Some u, b).
Proof.
  intros Hq1 Hq2 Hu. rewrite run_cat.
  apply opt_quote_cases in Hq1 as [-> | (c1 & -> & Hc1)].
  - rewrite app_nil_l. destruct u as [|c u'].
    + rewrite app_nil_l.
      pose proof (run_group [] [] b None eq_refl eq_refl) as Hg.
      rewrite !app_nil_l in Hg.
      apply opt_quote_cases in Hq2 as [-> | (c2 & -> & Hc2)].
      * rewrite app_nil_l. change ([c_rparen] ++ b) with (c_rparen :: b) in *.
        by rewrite run_opt_skip.
      * change ([c2] ++ [c_rparen] ++ b) with (c2 :: [c_rparen] ++ b).
        by apply run_opt_some.
    + assert (any_of quotes c = false) as Hc.
      { simpl in Hu. apply andb_true_iff in Hu as [Hc _].
        by apply plain_char in Hc as (? & _). }
      change ((c :: u') ++ q2 ++ [c_rparen] ++ b)
        with (c :: u' ++ q2 ++ [c_rparen] ++ b).
      rewrite run_opt_skip by done.
      by apply (run_group (c :: u') q2 b None).
  - change ([c1] ++ u ++ q2 ++ [c_rparen] ++ b) with (c1 :: u ++ q2 ++ [c_rparen] ++ b).
    apply run_opt_some; [done|]. by apply run_group.
Qed.

Lemma match_here_url y q1 u q2 b :
  same_i (lit "url(") y = true ->
  opt_quote q1 = true -> opt_quote q2 = true -> plain_url u = true ->
  match_here pat_url (y ++ q1 ++ u ++ q2 ++ [c_rparen] ++ b) = Some (Some u, b).
Proof.
  intros Hy Hq1 Hq2 Hu. unfold match_here, pat_url, url_core.
  rewrite run_str by (by apply same_i_Forall2). by apply run_url_tail.
Qed.

Lemma url_open_not_space y c y' :
  same_i (lit "url(") y = true -> y = c :: y' -> isspace c = false.
Proof.
  intros Hy ->. change (lit "url(") with [117; 114; 108; c_lparen]%N in Hy.
  simpl in Hy. apply andb_true_iff in Hy as [Hc _]. unfold one_i in Hc.
  change (lower_ascii 117 =? 105)%N with false in Hc.
  change (lower_ascii 117 =? 107)%N with false in Hc.
  change (lower_ascii 117 =? 115)%N with false in Hc.
  rewrite !orb_false_r in Hc. apply N.eqb_eq in Hc.
  change (lower_ascii 117) with 117%N in Hc. unfold lower_ascii in Hc.
  destruct ((65 <=? c) && (c <=? 90))%N.
  - assert (c = 85%N) as -> by lia. done.
  - by subst.
Qed.

Lemma match_here_background head x1 sp y q1 u q2 b :
  Forall2 (fun c d => one_i c d = true) head x1 ->
  forallb isspace sp = true ->
  same_i (lit "url(") y = true ->
  opt_quote q1 = true -> opt_quote q2 = true -> plain_url u = true ->
  match_here (str one_i head (Cat (Star isspace) url_core))
    (x1 ++ sp ++ y ++ q1 ++ u ++ q2 ++ [c_rparen] ++ b) = Some (Some u, b).
Proof.
  intros Hx Hsp Hy Hq1 Hq2 Hu. unfold match_here.
  rewrite run_str by done. rewrite run_cat, run_star.
  apply star_greedy_run; [done| |].
  - by apply (match_here_url y q1 u q2 b).
  - intros c s' E. destruct y as [|c' y']; [done|].
    injection E as -> _. by eapply url_open_not_space.
Qed.

(** A search that succeeds returns what the matcher finds where the match
    starts. *)
Lemma search_from_here r i s m :
  search_from r i s = Some m ->
  exists pre post,
    s = pre ++ group0 m ++ post /\
    match_here r (group0 m ++ post) = Some (group1 m, post).
Proof.
  revert i. induction s as [|c s IH]; intros i.
  - simpl. destruct (match_here r []) as [[g0 rest]|] eqn:Hh; [|done].
    intros [= <-]. pose proof Hh as Hh'.
    apply match_here_sound in Hh' as (w & Hs & Hm).
    symmetry in Hs. apply app_eq_nil in Hs as [-> ->].
    exists [], []. by split.
  - cbn [search_from]. destruct (match_here r (c :: s)) as [[g0 rest]|] eqn:Hh.
    + intros [= <-]. clear IH. pose proof Hh as Hh'.
      apply match_here_sound in Hh' as (w & Hs & Hm).
      assert (Ht : take (S (length s) - length rest) (c :: s) = w).
      { change (S (length s)) with (length (c :: s)).
        rewrite Hs, length_app, Nat.add_sub. apply take_app_length. }
      exists [], rest. cbn [group0 group1]. rewrite Ht, <-Hs. by split.
    + intros Hn. apply IH in Hn as (pre & post & Hs & Hm).
      exists (c :: pre), post. split; [by rewrite Hs at 1|done].
Qed.

End UrlCore.

Section OneUrl.
Import Py Re Bs4 Movie.
Variables (pre y q1 u q2 tail : pystr).
Hypothesis y_url : same_i (lit "url(") y = true.
Hypothesis q1_quote : opt_quote q1 = true.
Hypothesis q2_quote : opt_quote q2 = true.
Hypothesis u_plain : plain_url u = true.
Hypothesis one_url : count_i (lit "url(") (poster_style pre y q1 u q2 tail) = 1.

(** A place of the style where [url(] starts is the place after [pre]. *)
Lemma url_place a x r :
  poster_style pre y q1 u q2 tail = a ++ x ++ r ->
  Forall2 (fun c d => one_i c d = true) (lit "url(") x ->
  a = pre /\ x ++ r = y ++ q1 ++ u ++ q2 ++ [c_rparen] ++ tail.
Proof.
  intros Hs Hx.
  apply (count_i_one (lit "url(") (poster_style pre y q1 u q2 tail)); try done.
  - apply starts_i_app. by apply same_i_Forall2.
  - by apply starts_i_app.
Qed.

(** Whatever pattern matches, its group is [u]. *)
Lemma poster_style_group p m :
  p ∈ patterns -> search p (poster_style pre y q1 u q2 tail) = Some m ->
  group_1 m = u.
Proof.
  intros Hp Hm. apply search_from_here in Hm as (a & post & Hs & Hh).
  pose proof Hh as Hm. apply match_here_sound in Hm as (w & Hw & Hm).
  apply app_inv_tail in Hw as <-.
  assert (match_here p (group0 m ++ post) = Some (Some u, tail)) as Hrun.
  { revert Hp. unfold patterns. rewrite !elem_of_cons, elem_of_nil.
    intros [-> | [-> | [-> | []]]].
    - unfold pat_background_image in *.
      apply matches_str in Hm as (x1 & x2 & Hg & Hx1 & Hm).
      invert Hm. match goal with H : matches (Star _) _ _ _ |- _ => invert H end.
      match goal with H : matches url_core _ _ _ |- _ =>
        unfold url_core in H; apply matches_str in H as (x3 & x4 & -> & Hx3 & _) end.
      rewrite Hg in Hs |- *.
      destruct (url_place (a ++ x1 ++ w1) x3 (x4 ++ post)) as [_ E]; [|done|].
      { rewrite Hs. by rewrite <-!app_assoc. }
      rewrite <-!app_assoc. rewrite E.
      by apply match_here_background.
    - unfold pat_background in *.
      apply matches_str in Hm as (x1 & x2 & Hg & Hx1 & Hm).
      invert Hm. match goal with H : matches (Star _) _ _ _ |- _ => invert H end.
      match goal with H : matches url_core _ _ _ |- _ =>
        unfold url_core in H; apply matches_str in H as (x3 & x4 & -> & Hx3 & _) end.
      rewrite Hg in Hs |- *.
      destruct (url_place (a ++ x1 ++ w1) x3 (x4 ++ post)) as [_ E]; [|done|].
      { rewrite Hs. by rewrite <-!app_assoc. }
      rewrite <-!app_assoc. rewrite E.
      by apply match_here_background.
    - unfold pat_url, url_core in Hm.
      apply matches_str in Hm as (x3 & x4 & Hg & Hx3 & _).
      rewrite Hg in Hs |- *.
      destruct (url_place a x3 (x4 ++ post)) as [_ E]; [|done|].
      { rewrite Hs. by rewrite <-!app_assoc. }
      rewrite <-!app_assoc. rewrite E.
      by apply match_here_url. }
  rewrite Hrun in Hh. injection Hh as Hg _. unfold group_1. by rewrite <-Hg.
Qed.

(** The bare pattern matches in the style. *)
Lemma poster_style_bare :
  is_Some (search pat_url (poster_style pre y q1 u q2 tail)).
Proof.
  destruct (search pat_url (poster_style pre y q1 u q2 tail)) as [m|] eqn:E; [done|].
  exfalso. unfold search in E.
  assert (forall j s, search_from pat_url j s = None -> match_here pat_url s = None)
    as Hhead.
  { intros j s H.
    destruct s; cbn [search_from] in H;
      by destruct (match_here pat_url _) as [[? ?]|] eqn:E'. }
  assert (forall a s j, search_from pat_url j (a ++ s) = None ->
                        match_here pat_url s = None) as Hany.
  { induction a as [|c a IH]; intros s j H; [by eapply Hhead|].
    change ((c :: a) ++ s) with (c :: a ++ s) in H. cbn [search_from] in H.
    destruct (match_here pat_url (c :: a ++ s)) as [[? ?]|]; [done|].
    by eapply IH. }
  apply (Hany pre) in E.
  by rewrite match_here_url in E.
Qed.

Lemma image_url_of_poster_style :
  image_url_of_style patterns (poster_style pre y q1 u q2 tail)
  = if accepted u then u else [].
Proof.
  pose proof poster_style_bare as [m3 H3].
  assert (pat_background_image ∈ patterns /\ pat_background ∈ patterns
          /\ pat_url ∈ patterns) as (P1 & P2 & P3).
  { unfold patterns. rewrite !elem_of_cons. auto 10. }
  assert (forall p m, p ∈ patterns ->
            search p (poster_style pre y q1 u q2 tail) = Some m ->
            strip (strip_chars quotes (group_1 m)) = u) as U.
  { intros p m Hp Hm. rewrite (poster_style_group p m Hp Hm). by apply strip_plain. }
  unfold patterns. cbn [image_url_of_style]. cbv zeta.
  rewrite H3, (U _ _ P3 H3).
  change (truthy u && negb (startswith s_data u)) with (accepted u).
  destruct (search pat_background_image _) as [m1|] eqn:E1.
  { rewrite (U _ _ P1 E1).
    change (truthy u && negb (startswith s_data u)) with (accepted u).
    destruct (accepted u) eqn:Ha; [done|].
    destruct (search pat_background _) as [m2|] eqn:E2; [|done].
    rewrite (U _ _ P2 E2).
    change (truthy u && negb (startswith s_data u)) with (accepted u).
    by rewrite Ha. }
  destruct (search pat_background _) as [m2|] eqn:E2; [|by destruct (accepted u)].
  rewrite (U _ _ P2 E2).
  change (truthy u && negb (startswith s_data u)) with (accepted u).
  by destruct (accepted u).
Qed.

End OneUrl.

Section PosterClaim.
Import Py Re Bs4 Movie.
Local Arguments startswith : simpl never.

Lemma image_url_first_candidate ps style :
  image_url_of_style ps style
  = default [] (head (omap (fun p => candidate p style) ps)).
Proof.
  induction ps as [|p ps IH]; simpl; [done|].
  unfold candidate at 1. destruct (search p style) as [m|]; simpl; [|done].
  fold (accepted (strip (strip_chars quotes (group_1 m)))).
  by destruct (accepted _).
Qed.

Lemma image_url_no_match ps style :
  (forall p, p ∈ ps -> search p style = None) -> image_url_of_style ps style = [].
Proof.
  induction ps as [|p ps IH]; simpl; [done|]. intros H.
  rewrite (H p) by (apply elem_of_cons; auto).
  apply IH. intros p' Hp'. apply H. apply elem_of_cons. auto.
Qed.

Lemma accepted_false u :
  accepted u = false <-> u = [] \/ exists r, u = s_data ++ r.
Proof.
  unfold accepted. rewrite andb_false_iff, negb_false_iff, startswith_spec.
  destruct u as [|c u]; simpl; [split; auto|].
  split; intros [H | H]; [done|by right|done|by right].
Qed.




End PosterClaim.

(** ** The cards (C4, C7, C8, C10) *)

Section Cards.
Import Py Re Bs4 Linebot Movie.
Implicit Types (movie : gmap pystr pystr) (movie_list : list (gmap pystr pystr)).
Local Arguments truthy : simpl never.

Lemma info_rows_permissive l contents :
  exists rows, info_rows permissive l contents = Ok (contents ++ rows).
Proof.
  revert contents. induction l as [|[info icon] l IH]; intros contents; simpl.
  - exists []. by rewrite app_nil_r.
  - destruct info as [[|c text]|]; try apply IH.
    edestruct IH as [rows ->]. eexists. by rewrite <-app_assoc.
Qed.

Local Arguments info_rows : simpl never.

(** With constructors that refuse nothing, every record gives a card, and its
    first row is the title, or the label 未知電影 when the record has no title
    key. *)
Lemma build_movie_bubble_permissive movie :
  exists bubble,
    build_movie_bubble permissive movie = Ok bubble /\
    card_title bubble = Some (default s_unknown (movie !! K_title)).
Proof.
  unfold build_movie_bubble.
  destruct (has movie K_poster), (has movie K_eng_title), (has movie K_rating),
    (has movie K_certificate); simpl;
    match goal with
    | |- context [info_rows permissive ?l ?c] =>
        destruct (info_rows_permissive l c) as [rows ->]
    end; simpl; destruct (has movie K_trailer); simpl; eexists; split; reflexivity.
Qed.

Lemma create_movie_bubble_permissive movie :
  exists bubble,
    create_movie_bubble permissive movie = Some bubble /\
    card_title bubble = Some (default s_unknown (movie !! K_title)).
Proof.
  unfold create_movie_bubble.
  destruct (build_movie_bubble_permissive movie) as (bubble & -> & Ht). eauto.
Qed.

Lemma omap_id_fmap {A B : Type} (f : A -> option B) (l : list A) :
  omap id (f <$> l) = omap f l.
Proof.
  induction l as [|x l IH]; [done|]. csimpl. destruct (f x); simpl; by rewrite IH.
Qed.

Lemma bubbles_of_omap refuses movie_list :
  bubbles_of refuses movie_list
  = omap (create_movie_bubble refuses) (take MAX_MOVIES movie_list).
Proof. unfold bubbles_of. apply omap_id_fmap. Qed.

Lemma length_omap_le {A B : Type} (f : A -> option B) (l : list A) :
  length (omap f l) <= length l.
Proof. induction l as [|x l IH]; [done|]. csimpl. destruct (f x); simpl; lia. Qed.

Lemma bubbles_of_length refuses movie_list :
  length (bubbles_of refuses movie_list) <= MAX_MOVIES.
Proof.
  rewrite bubbles_of_omap. etrans; [apply length_omap_le|].
  rewrite length_take. lia.
Qed.

Lemma bubbles_of_titles movie_list :
  card_title <$> bubbles_of permissive movie_list
  = (fun movie => Some (default s_unknown (movie !! K_title)))
      <$> take MAX_MOVIES movie_list.
Proof.
  rewrite bubbles_of_omap. induction (take MAX_MOVIES movie_list) as [|movie l IH];
    [done|]. csimpl.
  destruct (create_movie_bubble_permissive movie) as (bubble & -> & Ht).
  csimpl. by rewrite Ht, IH.
Qed.

End Cards.

Section Pages.
Import Py Re Bs4 Linebot Movie.
Variable html_parser : pystr -> result node.

Lemma descendants_cons name classes attrs c cs :
  descendants (Tag name classes attrs (c :: cs))
  = c :: descendants c ++ descendants (Tag name classes attrs cs).
Proof. reflexivity. Qed.

Lemma find_all_page titles :
  find_all (page titles) s_li s_item = (fun t => entry t []) <$> titles.
Proof.
  unfold find_all, page. induction titles as [|t titles IH]; [done|].
  rewrite fmap_cons, descendants_cons, filter_cons, filter_app, IH.
  rewrite decide_True by (by vm_compute). reflexivity.
Qed.

Lemma extract_text_entry t :
  extract_text_content (entry t []) s_h2 s_title = strip t.
Proof.
  unfold extract_text_content.
  assert (find (entry t []) s_h2 s_title
          = Some (Tag s_h2 [s_title] ∅ [NavigableString t])) as -> by (by vm_compute).
  unfold get_text, stripped_strings. simpl.
  destruct (strip t); simpl; [done|]. by rewrite app_nil_r.
Qed.

Lemma parse_page html titles :
  html_parser html = Ok (page titles) ->
  Forall (fun t => strip t <> []) titles ->
  exists movies,
    parse_movies_from_html html_parser html = Ok movies /\
    (fun movie => movie !! K_title) <$> movies
    = (fun t => Some (strip t)) <$> titles.
Proof.
  intros Hp Ht. eexists. split; [by apply parse_movies_filter|].
  rewrite find_all_page. clear Hp.
  induction Ht as [|t titles Hne _ IH]; [done|].
  rewrite fmap_cons, filter_cons.
  rewrite decide_True by (by rewrite extract_text_entry).
  rewrite !fmap_cons, IH, extract_movie_info_title, extract_text_entry. done.
Qed.

(** The carousel of a message holds the cards made from the records of the
    page. *)
Lemma get_movies_message (refuses : sdk) p message :
  get_movies html_parser refuses p = Ok (Some message) ->
  exists movie_list,
    get_line_today_top_movies html_parser p = Ok movie_list /\
    contents message = CarouselContainer (bubbles_of refuses movie_list).
Proof.
  unfold get_movies.
  destruct (get_line_today_top_movies html_parser p) as [movie_list|]; [|done].
  simpl. unfold render_movies. intros H. exists movie_list. split; [done|].
  destruct movie_list as [|movie rest]; [done|].
  destruct (bubbles_of refuses (movie :: rest)) as [|b bs]; [done|].
  unfold new_container, new_message, construct in H.
  destruct (refuses (ObjContainer _)); [done|]. simpl in H.
  destruct (refuses (ObjMessage _)); [done|]. by injection H as <-.
Qed.

(** C4.  The card stage makes at most [MAX_MOVIES] = 10 cards: those of the
    first ten records, in the order of the records, whatever comes after the
    tenth being dropped; the carousel [get_movies] returns holds these cards.
    The parser does not cut: it returns the record of every entry with a
    title, in the order of the page, so that a page with any number of titled
    entries gives that many records, and the cards carry the titles of the
    first ten. *)
Theorem at_most_ten_cards_in_order (refuses : sdk) :
  (forall movie_list, length (bubbles_of refuses movie_list) <= MAX_MOVIES) /\
  (forall p message,
     get_movies html_parser refuses p = Ok (Some message) ->
     exists movie_list,
       get_line_today_top_movies html_parser p = Ok movie_list /\
       contents message = CarouselContainer (bubbles_of refuses movie_list)) /\
  (forall movie_list,
     bubbles_of refuses movie_list
     = omap (create_movie_bubble refuses) (take MAX_MOVIES movie_list)) /\
  (forall first_ten others,
     length first_ten = MAX_MOVIES ->
     bubbles_of refuses (first_ten ++ others) = bubbles_of refuses first_ten) /\
  (forall movie_list,
     card_title <$> bubbles_of permissive movie_list
     = (fun movie => Some (default s_unknown (movie !! K_title)))
         <$> take MAX_MOVIES movie_list) /\
  (forall html soup,
     html_parser html = Ok soup ->
     parse_movies_from_html html_parser html
     = Ok (extract_movie_info <$>
             (filter (fun i => extract_text_content i s_h2 s_title <> [])
                     (find_all soup s_li s_item)))) /\
  (forall html titles,
     html_parser html = Ok (page titles) ->
     Forall (fun t => strip t <> []) titles ->
     exists movies,
       parse_movies_from_html html_parser html = Ok movies /\
       length movies = length titles /\
       (fun movie => movie !! K_title) <$> movies
       = (fun t => Some (strip t)) <$> titles /\
       card_title <$> bubbles_of permissive movies
       = (fun t => Some (strip t)) <$> take MAX_MOVIES titles).
Proof.
  split_and!.
  - apply bubbles_of_length.
  - apply get_movies_message.
  - apply bubbles_of_omap.
  - intros first_ten others Hlen. rewrite !bubbles_of_omap.
    rewrite take_app, <-Hlen, Nat.sub_diag, take_0, app_nil_r. done.
  - apply bubbles_of_titles.
  - apply parse_movies_filter.
  - intros html titles Hp Ht.
    destruct (parse_page html titles Hp Ht) as (movies & Hm & Hk).
    exists movies. split_and!; [done| |done|].
    + apply (f_equal length) in Hk. by rewrite !length_fmap in Hk.
    + rewrite bubbles_of_titles.
      transitivity ((fun o => Some (default s_unknown o)) <$>
                    take MAX_MOVIES ((fun movie => movie !! K_title) <$> movies)).
      { by rewrite <-fmap_take, <-list_fmap_compose. }
      by rewrite Hk, <-fmap_take, <-list_fmap_compose.
Qed.

End Pages.

Section CardClaims.
Import Py Re Bs4 Linebot Movie.
Variable html_parser : pystr -> result node.
Variable refuses : sdk.
Implicit Types (movie : gmap pystr pystr) (movie_list : list (gmap pystr pystr)).

(** Fifteen entries on the page: fifteen records, ten cards, those of the
    first ten entries. *)
Lemma fifteen_entries_ten_cards :
  exists movies,
    parse_movies_from_html fifteen_parser [] = Ok movies /\
    length movies = 15 /\
    card_title <$> bubbles_of permissive movies
    = (fun t => Some t) <$> take 10 fifteen_titles.
Proof.
  destruct (at_most_ten_cards_in_order fifteen_parser permissive)
    as (_ & _ & _ & _ & _ & _ & H).
  destruct (H [] fifteen_titles) as (movies & Hm & Hlen & _ & Hcards).
  - reflexivity.
  - unfold fifteen_titles. simpl. repeat constructor; by vm_compute.
  - exists movies. split_and!; [exact Hm|exact Hlen|]. rewrite Hcards. by vm_compute.
Defined.

(** With constructors that refuse nothing, every record gives a card,
    whatever keys it has: no field is needed.  The first row of the card is
    the title of the record, and the label 未知電影 when the record has no title
    key.  The label is put in by the renderer: the record the extractor makes
    holds the text of the title element, the empty text when there is none. *)
Lemma card_needs_no_field movie :
  (exists bubble,
     create_movie_bubble permissive movie = Some bubble /\
     card_title bubble = Some (default s_unknown (movie !! K_title)) /\
     (movie !! K_title = None -> card_title bubble = Some s_unknown)) /\
  (forall item,
     extract_movie_info item !! K_title
     = Some (extract_text_content item s_h2 s_title) /\
     (find item s_h2 s_title = None -> extract_movie_info item !! K_title = Some [])).
Proof.
  split.
  - destruct (create_movie_bubble_permissive movie) as (bubble & Hb & Ht).
    exists bubble. split_and!; [done..|]. intros Hno. by rewrite Ht, Hno.
  - intros item. rewrite extract_movie_info_title. split; [done|].
    intros Hno. unfold extract_text_content. by rewrite Hno.
Qed.

(** The card of the empty record. *)
Lemma card_of_empty_record :
  exists bubble,
    create_movie_bubble permissive ∅ = Some bubble /\
    card_title bubble = Some s_unknown.
Proof.
  destruct (card_needs_no_field ∅) as [(bubble & Hb & _ & Ht) _].
  exists bubble. split; [exact Hb|]. by apply Ht.
Defined.

(** C8.  A record whose card cannot be built gives [None], not an exception,
    and has no card among those of the carousel; the cards of the records
    before and after it are the ones they have without it. *)
Theorem failed_card_is_dropped movie e :
  build_movie_bubble refuses movie = Raise e ->
  create_movie_bubble refuses movie = None /\
  forall before after,
    bubbles_of refuses (before ++ movie :: after)
    = omap (create_movie_bubble refuses) (take MAX_MOVIES before)
      ++ omap (create_movie_bubble refuses)
           (take (MAX_MOVIES - S (length before)) after).
Proof.
  intros Hraise.
  assert (create_movie_bubble refuses movie = None) as Hnone.
  { unfold create_movie_bubble. by rewrite Hraise. }
  split; [done|]. intros before after.
  rewrite bubbles_of_omap, take_app, omap_app. f_equal.
  destruct (MAX_MOVIES - length before) as [|n] eqn:E.
  - by replace (MAX_MOVIES - S (length before)) with 0 by lia.
  - replace (MAX_MOVIES - S (length before)) with n by lia.
    rewrite firstn_cons. csimpl. by rewrite Hnone.
Qed.

(** C10.  [get_movies] returns [None] when the page gave no record, and also
    when it gave records and no card could be built: the two cases give the
    same answer. *)
Theorem no_cards_looks_like_no_movies (p : playwright) movie_list :
  get_line_today_top_movies html_parser p = Ok movie_list ->
  (movie_list = [] -> get_movies html_parser refuses p = Ok None) /\
  (movie_list <> [] ->
   (forall movie, movie ∈ take MAX_MOVIES movie_list ->
                  create_movie_bubble refuses movie = None) ->
   get_movies html_parser refuses p = Ok None).
Proof.
  intros Hlist. unfold get_movies. rewrite Hlist. simpl. split.
  - by intros ->.
  - intros Hne Hall. unfold render_movies.
    destruct movie_list as [|movie rest]; [done|].
    assert (bubbles_of refuses (movie :: rest) = []) as ->; [|done].
    rewrite bubbles_of_omap.
    induction (take MAX_MOVIES (movie :: rest)) as [|m l IH]; [done|]. csimpl.
    rewrite (Hall m) by (apply elem_of_cons; auto).
    apply IH. intros m' Hm'. apply Hall. apply elem_of_cons. auto.
Qed.

(** C6, amended.  When the wait for the list is reached (the browser was
    launched, the headers and the window size were set, the page was opened)
    and times out, the closing of the browser in the [finally] block decides:
    when it succeeds, the loader returns the empty list and [get_movies]
    returns [None]; when it raises, the loader and [get_movies] raise that
    exception. *)
Theorem timeout_gives_no_movies (p : playwright) :
  launch p = Ok () ->
  set_extra_http_headers p = Ok () ->
  set_viewport_size p = Ok () ->
  goto p = Ok () ->
  wait_for_selector p = Raise PlaywrightTimeoutError ->
  (close p = Ok () ->
   get_line_today_top_movies html_parser p = Ok [] /\
   get_movies html_parser refuses p = Ok None) /\
  (forall e,
     close p = Raise e ->
     get_line_today_top_movies html_parser p = Raise e /\
     get_movies html_parser refuses p = Raise e).
Proof.
  intros H1 H2 H3 H4 H5. split.
  - intros H6.
    assert (get_line_today_top_movies html_parser p = Ok []) as Hl.
    { unfold get_line_today_top_movies, try_finally.
      by rewrite H1, H2, H3, H4, H5, H6. }
    split; [done|]. unfold get_movies. by rewrite Hl.
  - intros e H6.
    assert (get_line_today_top_movies html_parser p = Raise e) as Hl.
    { unfold get_line_today_top_movies, try_finally. by rewrite H1, H6. }
    split; [done|]. unfold get_movies. by rewrite Hl.
Qed.

End CardClaims.

Section CardWitnesses.
Import Py Re Bs4 Linebot Movie.

(** A record whose poster is refused, between two records without a poster:
    the two cards are there. *)
Lemma failed_card_sample :
  build_movie_bubble https_only (movie_with_poster (lit "B") (lit "http://a/p.jpg"))
  = Raise ValueError /\
  card_title <$> bubbles_of https_only
                   [movie_titled (lit "A");
                    movie_with_poster (lit "B") (lit "http://a/p.jpg");
                    movie_titled (lit "C")]
  = [Some (lit "A"); Some (lit "C")].
Proof.
  assert (build_movie_bubble https_only
            (movie_with_poster (lit "B") (lit "http://a/p.jpg")) = Raise ValueError)
    as Hraise by (by vm_compute).
  split; [exact Hraise|].
  destruct (failed_card_is_dropped https_only _ _ Hraise) as [_ H].
  rewrite (H [movie_titled (lit "A")] [movie_titled (lit "C")]
           : bubbles_of https_only
               [movie_titled (lit "A");
                movie_with_poster (lit "B") (lit "http://a/p.jpg");
                movie_titled (lit "C")] = _).
  by vm_compute.
Defined.

(** Two records on the page and constructors that refuse everything: no card,
    and the answer of an empty page. *)
Lemma no_cards_sample :
  get_line_today_top_movies two_parser (good_run []) <> Ok [] /\
  get_movies two_parser refuse_all (good_run []) = Ok None /\
  get_movies two_parser refuse_all timed_out_run = Ok None.
Proof.
  destruct (parse_page two_parser [] [lit "A"; lit "B"]) as (movies & Hp & Ht);
    [done|repeat constructor; by vm_compute|].
  assert (movies <> []) as Hne by (by intros ->).
  assert (get_line_today_top_movies two_parser (good_run []) = Ok movies) as Hl
    by exact Hp.
  split_and!.
  - rewrite Hl. by intros [= ->].
  - destruct (no_cards_looks_like_no_movies two_parser refuse_all (good_run [])
                movies Hl) as [_ H].
    apply H; [done|]. intros movie _.
    unfold create_movie_bubble, build_movie_bubble. by destruct (has movie K_poster).
  - destruct (no_cards_looks_like_no_movies two_parser refuse_all timed_out_run
                [] eq_refl) as [H _].
    by apply H.
Defined.

Lemma timeout_sample :
  get_line_today_top_movies two_parser timed_out_run = Ok [] /\
  get_movies two_parser permissive timed_out_run = Ok None /\
  get_movies two_parser permissive failing_close_run = Raise PlaywrightError.
Proof.
  destruct (timeout_gives_no_movies two_parser permissive timed_out_run
              eq_refl eq_refl eq_refl eq_refl eq_refl) as [H _].
  destruct (H eq_refl) as [Hl Hm]. split_and!; [exact Hl|exact Hm|].
  destruct (timeout_gives_no_movies two_parser permissive failing_close_run
              eq_refl eq_refl eq_refl eq_refl eq_refl) as [_ H'].
  by destruct (H' PlaywrightError eq_refl).
Defined.

(** The claim as stated fails: the wait times out, closing the browser
    raises, and the loader raises instead of returning the empty list. *)
Lemma timeout_with_failing_close :
  wait_for_selector failing_close_run = Raise PlaywrightTimeoutError /\
  get_line_today_top_movies two_parser failing_close_run = Raise PlaywrightError /\
  get_line_today_top_movies two_parser failing_close_run <> Ok [].
Proof. split_and!; by vm_compute. Qed.

End CardWitnesses.

Section EntryWitness.
Import Py Re Bs4 Movie.

Lemma untitled_entry_sample :
  find untitled_entry s_h2 s_title = None /\
  parse_movies_from_html untitled_parser [] = Ok [] /\
  (extract_movie_info untitled_entry ∉ ([] : list (gmap pystr pystr))).
Proof.
  split; [reflexivity|].
  destruct (untitled_entry_left_out untitled_parser [] untitled_entry eq_refl)
    as (_ & _ & _ & H).
  assert (parse_movies_from_html untitled_parser [] = Ok []) as Hp by (by vm_compute).
  split; [exact Hp|]. by destruct (H [] Hp) as [Hout _].
Defined.

End EntryWitness.

Section EmptyTitle.
Import Py Re Bs4 Linebot Movie.


End EmptyTitle.

(** ** The vocabulary record (C5) *)

Section Vocabulary.
Import Py Re Words.
Implicit Types (s pre body post : pystr) (d : gmap pystr pyval).

Lemma greedy_stops_nowhere {A : Type} (K : pystr -> option A) post :
  forallb (fun a => negb (a =? c_rbrace)%N) post = true ->
  star_greedy dot_all
    (fun s' => match s' with
               | c :: s'' => if one c_rbrace c then K s'' else None
               | [] => None
               end) post = None.
Proof.
  induction post as [|c post IH]; simpl; [done|].
  intros H. apply andb_true_iff in H as [Hc H]. rewrite (IH H).
  unfold one. by destruct (c =? c_rbrace)%N.
Qed.

(** The greedy star runs to the last closing brace. *)
Lemma greedy_to_last_brace {A : Type} (K : pystr -> option A) body post a :
  forallb (fun a => negb (a =? c_rbrace)%N) post = true ->
  K post = Some a ->
  star_greedy dot_all
    (fun s' => match s' with
               | c :: s'' => if one c_rbrace c then K s'' else None
               | [] => None
               end) (body ++ c_rbrace :: post) = Some a.
Proof.
  intros Hpost HK. induction body as [|c body IH]; simpl.
  - by rewrite greedy_stops_nowhere.
  - by rewrite IH.
Qed.

Lemma match_here_json body post :
  forallb (fun a => negb (a =? c_rbrace)%N) post = true ->
  match_here pat_json (c_lbrace :: body ++ c_rbrace :: post)
  = Some (Some (c_lbrace :: body ++ [c_rbrace]), post).
Proof.
  intros Hpost. unfold match_here, pat_json. cbn [run].
  change (one c_lbrace c_lbrace) with true. cbv iota.
  erewrite (greedy_to_last_brace _ body post); [|done|reflexivity].
  do 2 f_equal. f_equal.
  change (c_lbrace :: body ++ c_rbrace :: post)
    with ((c_lbrace :: body) ++ c_rbrace :: post).
  rewrite (app_assoc _ [c_rbrace] post : (c_lbrace :: body) ++ c_rbrace :: post = _).
  by rewrite length_app, Nat.add_sub, take_app_length.
Qed.

Lemma match_here_json_other c s :
  c <> c_lbrace -> match_here pat_json (c :: s) = None.
Proof.
  intros Hc. unfold match_here, pat_json. cbn [run]. unfold one.
  by apply N.eqb_neq in Hc as ->.
Qed.

Lemma search_json_skip pre rest i :
  forallb (fun a => negb (a =? c_lbrace)%N) pre = true ->
  search_from pat_json i (pre ++ rest) = search_from pat_json (i + length pre) rest.
Proof.
  revert i. induction pre as [|c pre IH]; intros i H; simpl.
  - by rewrite Nat.add_0_r.
  - apply andb_true_iff in H as [Hc H].
    rewrite match_here_json_other.
    + rewrite IH by done. f_equal. lia.
    + intros ->. by rewrite N.eqb_refl in Hc.
Qed.

(** The pattern finds the span from the first opening brace to the last
    closing brace. *)
Lemma search_json_span pre body post :
  forallb (fun a => negb (a =? c_lbrace)%N) pre = true ->
  forallb (fun a => negb (a =? c_rbrace)%N) post = true ->
  group_1 <$> search pat_json (pre ++ [c_lbrace] ++ body ++ [c_rbrace] ++ post)
  = Some ([c_lbrace] ++ body ++ [c_rbrace]).
Proof.
  intros Hpre Hpost. unfold search. rewrite search_json_skip by done.
  simpl. rewrite match_here_json by done. done.
Qed.

(** Without a closing brace after an opening one, the pattern finds
    nothing. *)
Lemma search_json_None s :
  (forall pre body post, s <> pre ++ [c_lbrace] ++ body ++ [c_rbrace] ++ post) ->
  search pat_json s = None.
Proof.
  intros Hno. destruct (search pat_json s) as [m|] eqn:E; [|done]. exfalso.
  apply search_from_Some in E as (pre & post & Hs & _ & Hm & _).
  unfold pat_json in Hm. invert Hm.
  repeat match goal with
         | H : matches (Cat _ _) _ _ _ |- _ => invert H
         | H : matches (Chr _) _ _ _ |- _ => invert H
         | H : matches (Star _) _ _ _ |- _ => invert H
         | H : one _ _ = true |- _ => apply one_true in H; subst
         end.
  match goal with
  | H : [c_lbrace] ++ ?x ++ [c_rbrace] = group0 m |- _ =>
      rewrite <-H in Hno; apply (Hno pre x post)
  end.
  by rewrite <-!app_assoc.
Qed.

Lemma fill_required_dict fields d :
  exists d',
    fill_required fields (PyDict d) = Ok (PyDict d') /\
    forall key,
      d' !! key = match d !! key with
                  | Some v => Some v
                  | None => if bool_decide (key ∈ fields) then Some (PyStr []) else None
                  end.
Proof.
  revert d. induction fields as [|f fields IH]; intros d; simpl.
  - exists d. split; [done|]. intros key. by destruct (d !! key).
  - destruct (d !! f) as [v|] eqn:Ef; simpl.
    + destruct (IH d) as (d' & -> & Hd'). exists d'. split; [done|].
      intros key. rewrite Hd'. destruct (d !! key) eqn:Ek; [done|].
      assert (key <> f) by congruence.
      rewrite (bool_decide_ext (key ∈ f :: fields) (key ∈ fields)); [done|].
      rewrite elem_of_cons. split; [by intros [? | ?]|auto].
    + destruct (IH (<[f := PyStr []]> d)) as (d' & -> & Hd'). exists d'.
      split; [done|]. intros key. rewrite Hd'.
      destruct (decide (key = f)) as [-> | Hne].
      * rewrite lookup_insert_eq, Ef, bool_decide_eq_true_2; [done|].
        apply elem_of_cons. auto.
      * rewrite lookup_insert_ne by done. destruct (d !! key); [done|].
        rewrite (bool_decide_ext (key ∈ f :: fields) (key ∈ fields)); [done|].
        rewrite elem_of_cons. split; [by intros [? | ?]|auto].
Qed.

End Vocabulary.

Section VocabularyClaim.
Import Py Re Words.
Variable json_loads : pystr -> result pyval.
Implicit Types (s pre body post : pystr) (d : gmap pystr pyval).

(** X17.  For an answer that is a text [s].  What [json.loads] reads from [s]
    is the record.  When it raises [JSONDecodeError], the span from the first
    opening brace to the last closing brace is parsed instead, and with no
    such span nothing is parsed.  When nothing could be parsed, the record is
    the fallback record, whose word is [fallback].  In a record that is a
    JSON object, each of the seven required keys that is missing is added with
    the empty text, and nothing else changes: an object with the seven keys
    is the record as it was read. *)
Theorem vocabulary_record_recovered s :
  (forall v, json_loads s = Ok v -> recover json_loads (RespStr s) = v) /\
  (json_loads s = Raise JSONDecodeError ->
   (forall pre body post,
      s = pre ++ [c_lbrace] ++ body ++ [c_rbrace] ++ post ->
      forallb (fun a => negb (a =? c_lbrace)%N) pre = true ->
      forallb (fun a => negb (a =? c_rbrace)%N) post = true ->
      parse_response json_loads (RespStr s)
      = json_loads ([c_lbrace] ++ body ++ [c_rbrace])) /\
   ((forall pre body post, s <> pre ++ [c_lbrace] ++ body ++ [c_rbrace] ++ post) ->
    parse_response json_loads (RespStr s) = Raise ValueError)) /\
  (forall e,
     parse_response json_loads (RespStr s) = Raise e ->
     get_english_word_data json_loads (RespStr s) = Ok (PyDict fallback_word_data) /\
     fallback_word_data !! K_word = Some (PyStr (lit "fallback"))) /\
  (forall d,
     recover json_loads (RespStr s) = PyDict d ->
     exists d',
       get_english_word_data json_loads (RespStr s) = Ok (PyDict d') /\
       (forall key,
          d' !! key = match d !! key with
                      | Some v => Some v
                      | None => if bool_decide (key ∈ required_fields)
                                then Some (PyStr []) else None
                      end) /\
       ((forall f, f ∈ required_fields -> is_Some (d !! f)) -> d' = d)).
Proof.
  split_and!.
  - intros v Hv. unfold recover, parse_response, loads_or_extract. rewrite Hv.
    by destruct v.
  - intros Hraise. unfold parse_response, loads_or_extract. rewrite Hraise. split.
    + intros pre body post -> Hpre Hpost.
      pose proof (search_json_span pre body post Hpre Hpost) as Hs.
      destruct (search pat_json _) as [m|]; [|done]. by injection Hs as ->.
    + intros Hno. by rewrite search_json_None.
  - intros e He. unfold get_english_word_data, recover. rewrite He.
    split; by vm_compute.
  - intros d Hd. unfold get_english_word_data. rewrite Hd.
    destruct (fill_required_dict required_fields d) as (d' & Hfill & Hkeys).
    exists d'. split_and!; [done..|]. intros Hall. apply map_eq. intros key.
    rewrite Hkeys. destruct (d !! key) eqn:Ek; [done|].
    rewrite bool_decide_eq_false_2; [done|]. intros Hin.
    destruct (Hall key Hin) as [v Hv]. congruence.
Qed.

End VocabularyClaim.

Section VocabularyWitness.
Import Py Re Words.

(** An object of seven keys between two remarks is read as it is; a text
    without braces gives the fallback record; an object with the word only
    gets the six other keys, with the empty text. *)
Lemma vocabulary_sample :
  get_english_word_data sample_loads (RespStr sample_answer)
  = Ok (PyDict sample_word_data) /\
  get_english_word_data sample_loads (RespStr (lit "no JSON here"))
  = Ok (PyDict fallback_word_data) /\
  exists d',
    get_english_word_data partial_loads (RespStr partial_object_text)
    = Ok (PyDict d') /\
    d' !! K_word = Some (PyStr (lit "x")) /\
    Forall (fun key => d' !! key = Some (PyStr [])) (tail required_fields).
Proof.
  split_and!.
  - destruct (vocabulary_record_recovered sample_loads sample_answer)
      as (_ & Hspan & _ & Hfill).
    destruct (Hspan eq_refl) as [Hspan' _].
    specialize (Hspan' (lit "Here it is: ")
                  (take (length sample_object_text - 2) (drop 1 sample_object_text))
                  (lit " I hope it helps.") eq_refl eq_refl eq_refl).
    destruct (Hfill sample_word_data) as (d' & -> & _ & Hsame).
    + unfold recover. rewrite Hspan'. reflexivity.
    + rewrite Hsame; [done|]. intros f Hf.
      unfold required_fields in Hf. rewrite !elem_of_cons, elem_of_nil in Hf.
      destruct Hf as [-> | [-> | [-> | [-> | [-> | [-> | [-> | []]]]]]]];
        vm_compute; by eexists.
  - destruct (vocabulary_record_recovered sample_loads (lit "no JSON here"))
      as (_ & _ & Hfall & _).
    by destruct (Hfall ValueError eq_refl) as [-> _].
  - destruct (vocabulary_record_recovered partial_loads partial_object_text)
      as (Hread & _ & _ & Hfill).
    destruct (Hfill {[ K_word := PyStr (lit "x") ]}) as (d' & Hd & Hkeys & _).
    { by apply Hread. }
    exists d'. split_and!; [exact Hd|by rewrite Hkeys|].
    unfold required_fields. simpl tail.
    repeat (constructor; [by rewrite Hkeys|]). constructor.
Defined.

(** C5.  A text answer that is JSON and not an object is read without an
    exception, so neither the span between the braces nor the fallback record
    is used; the loop over the required keys, which is outside the [try],
    then raises [TypeError], and no record is returned.  So for the answers
    [5] and [[]], and for every answer read as [null], a Boolean, a number, the
    empty list or the empty text. *)
Theorem non_object_answer_gives_no_record :
  parse_response value_loads (RespStr (lit "5")) = Ok (PyInt 5) /\
  get_english_word_data value_loads (RespStr (lit "5")) = Raise TypeError /\
  get_english_word_data value_loads (RespStr (lit "[]")) = Raise TypeError /\
  (forall (json_loads : pystr -> result pyval) s v,
     json_loads s = Ok v ->
     match v with
     | PyNone | PyBool _ | PyInt _ | PyFloat _ | PyList [] | PyStr [] => True
     | _ => False
     end ->
     get_english_word_data json_loads (RespStr s) = Raise TypeError).
Proof.
  split_and!; [reflexivity..|].
  intros json_loads s v Hv Hshape.
  unfold get_english_word_data, recover, parse_response, loads_or_extract.
  rewrite Hv. by destruct v as [| | | |[|? ?]|[|? ?]|].
Qed.

End VocabularyWitness.

(** ** The audio link (C9) *)

Section Audio.
Import Py Re Words.

Lemma hex_value_digit n : (n < 16)%N -> hex_value (hex_digit n) = Some n.
Proof.
  intros Hn. unfold hex_value, hex_digit.
  destruct (N.ltb_spec n 10).
  - replace ((48 <=? 48 + n) && (48 + n <=? 57))%N with true.
    + f_equal. lia.
    + symmetry. apply andb_true_iff. split; apply N.leb_le; lia.
  - replace ((48 <=? 55 + n) && (55 + n <=? 57))%N with false.
    + replace ((65 <=? 55 + n) && (55 + n <=? 70))%N with true.
      * f_equal. lia.
      * symmetry. apply andb_true_iff. split; apply N.leb_le; lia.
    + symmetry. apply andb_false_iff. right. apply N.leb_gt. lia.
Qed.

Lemma percent_decode_byte b rest :
  (b < 256)%N -> percent_decode (quote_byte b ++ rest) = b :: percent_decode rest.
Proof.
  intros Hb. unfold quote_byte. destruct (is_safe b) eqn:Hs.
  - simpl. destruct (N.eqb_spec b 37) as [-> |]; [done|done].
  - cbn [app percent_decode]. change (37 =? 37)%N with true. cbv iota.
    rewrite !hex_value_digit by div_lia. f_equal. div_lia.
Qed.

Lemma percent_decode_bytes bs :
  Forall (fun b => (b < 256)%N) bs ->
  percent_decode (concat (map quote_byte bs)) = bs.
Proof.
  induction 1 as [|b bs Hb _ IH]; [done|]. simpl.
  by rewrite percent_decode_byte, IH.
Qed.

Lemma utf8_encode_char_bytes c bs :
  utf8_encode_char c = Ok bs -> Forall (fun b => (b < 256)%N) bs.
Proof.
  unfold utf8_encode_char.
  destruct (N.ltb_spec c 128); [intros [= <-]; repeat constructor; lia|].
  destruct (N.ltb_spec c 2048); [intros [= <-]; repeat constructor; div_lia|].
  destruct ((55296 <=? c) && (c <=? 57343))%N; [done|].
  destruct (N.ltb_spec c 65536); [intros [= <-]; repeat constructor; div_lia|].
  destruct (N.ltb_spec c 1114112); [intros [= <-]; repeat constructor; div_lia|done].
Qed.

Lemma utf8_decode_char c bs rest :
  utf8_encode_char c = Ok bs -> utf8_decode (bs ++ rest) = c :: utf8_decode rest.
Proof.
  unfold utf8_encode_char.
  destruct (N.ltb_spec c 128) as [H1|H1].
  { intros [= <-]. simpl. by destruct (N.ltb_spec c 128); [|lia]. }
  destruct (N.ltb_spec c 2048) as [H2|H2].
  { intros [= <-]. cbn [app utf8_decode].
    destruct (N.ltb_spec (192 + c / 64) 128); [div_lia|].
    destruct (N.ltb_spec (192 + c / 64) 224); [|div_lia].
    f_equal. div_lia. }
  destruct ((55296 <=? c) && (c <=? 57343))%N; [done|].
  destruct (N.ltb_spec c 65536) as [H3|H3].
  { intros [= <-]. cbn [app utf8_decode].
    destruct (N.ltb_spec (224 + c / 4096) 128); [div_lia|].
    destruct (N.ltb_spec (224 + c / 4096) 224); [div_lia|].
    destruct (N.ltb_spec (224 + c / 4096) 240); [|div_lia].
    f_equal. div_lia. }
  destruct (N.ltb_spec c 1114112) as [H4|H4]; [|done].
  intros [= <-]. cbn [app utf8_decode].
  destruct (N.ltb_spec (240 + c / 262144) 128); [div_lia|].
  destruct (N.ltb_spec (240 + c / 262144) 224); [div_lia|].
  destruct (N.ltb_spec (240 + c / 262144) 240); [div_lia|].
  f_equal. div_lia.
Qed.

Lemma utf8_encode_decode text bs :
  utf8_encode text = Ok bs ->
  Forall (fun b => (b < 256)%N) bs /\ utf8_decode bs = text.
Proof.
  revert bs. induction text as [|c text IH]; intros bs; simpl.
  - by intros [= <-].
  - destruct (utf8_encode_char c) as [cs|] eqn:Ec; [|done]. simpl.
    destruct (utf8_encode text) as [rest|] eqn:Er; [|done]. simpl.
    intros [= <-]. destruct (IH rest eq_refl) as [Hb Hd]. split.
    + apply Forall_app. split; [by eapply utf8_encode_char_bytes|done].
    + by rewrite (utf8_decode_char c cs rest Ec), Hd.
Qed.

(** What [quote] writes stands for the UTF-8 bytes of the text. *)
Lemma quote_decodes text encoded_text :
  quote text = Ok encoded_text -> utf8_decode (percent_decode encoded_text) = text.
Proof.
  unfold quote. destruct (utf8_encode text) as [bs|] eqn:E; [|done]. simpl.
  intros [= <-]. destruct (utf8_encode_decode text bs E) as [Hb Hd].
  by rewrite percent_decode_bytes.
Qed.

(** The claim as stated fails on the empty text: the link is empty, not the
    template with an empty query. *)
Lemma empty_text_has_no_link :
  generate_audio_url [] <> audio_link_as_stated [].
Proof. by vm_compute. Qed.

(** C9, amended.  For a text that is not empty, the audio link is the
    template of the text-to-speech query followed by the text as [quote]
    percent-encodes it, that is by a text that stands for the UTF-8 bytes of
    the input (and the call raises when [quote] does, on a text that UTF-8
    cannot encode); for the empty text the link is the empty text. *)
Theorem audio_link_of_text (text : pystr) :
  (text <> [] -> generate_audio_url text = audio_link_as_stated text) /\
  (text <> [] -> forall encoded_text,
     quote text = Ok encoded_text ->
     generate_audio_url text = Ok (tts_template ++ encoded_text) /\
     utf8_decode (percent_decode encoded_text) = text) /\
  (text = [] -> generate_audio_url text = Ok []).
Proof.
  unfold generate_audio_url, audio_link_as_stated. split_and!.
  - by destruct text.
  - intros Hne encoded_text Hq. split; [|by apply quote_decodes].
    destruct text; [done|]. simpl truthy. cbv iota.
    simpl negb. cbv iota. by rewrite Hq.
  - by intros ->.
Qed.

Lemma audio_link_sample :
  generate_audio_url (lit "a b") = Ok (tts_template ++ lit "a%20b").
Proof.
  destruct (audio_link_of_text (lit "a b")) as (_ & H & _).
  by apply H.
Defined.

End Audio.

(** * Further properties of the code *)

(** ** The text of an element *)

Section TextFields.
Import Py Re Bs4 Movie.
Implicit Types (p : char -> bool) (s x : pystr) (item element : node).

Lemma lstrip_suffix p s : exists l, s = l ++ lstrip p s /\ forallb p l = true.
Proof.
  induction s as [|c s IH]; simpl; [by exists []|].
  destruct (p c) eqn:Hc; [|by exists []].
  destruct IH as (l & Hs & Hl). exists (c :: l). simpl. by rewrite Hc, Hl, <-Hs.
Qed.

Lemma lstrip_head p s c : head (lstrip p s) = Some c -> p c = false.
Proof.
  induction s as [|a s IH]; simpl; [done|].
  destruct (p a) eqn:Ha; [done|]. simpl. by intros [= <-].
Qed.

Lemma rstrip_prefix p s : exists r, s = rstrip p s ++ r /\ forallb p r = true.
Proof.
  unfold rstrip. destruct (lstrip_suffix p (rev s)) as (l & Hs & Hl).
  exists (rev l). split; [|by rewrite forallb_rev].
  by rewrite <-rev_app_distr, <-Hs, rev_involutive.
Qed.

Lemma last_rev_head (l : pystr) : last (rev l) = head l.
Proof. destruct l as [|a l]; [done|]. simpl. by rewrite last_snoc. Qed.

Lemma rstrip_last p s c : last (rstrip p s) = Some c -> p c = false.
Proof. unfold rstrip. rewrite last_rev_head. apply lstrip_head. Qed.

Lemma rstrip_head p s c :
  (forall a, head s = Some a -> p a = false) ->
  head (rstrip p s) = Some c -> p c = false.
Proof.
  intros Hs. destruct (rstrip_prefix p s) as (r & E & _).
  destruct (rstrip p s) as [|a t]; [done|]. simpl. intros [= <-].
  apply Hs. by rewrite E.
Qed.

Lemma strip_trimmed s : trimmed (strip s).
Proof.
  unfold strip. split.
  - intros c. apply rstrip_head. intros a. apply lstrip_head.
  - intros c. apply rstrip_last.
Qed.

Lemma strip_part_of s : part_of (strip s) s.
Proof.
  unfold strip. destruct (lstrip_suffix isspace s) as (l & Hs & _).
  destruct (rstrip_prefix isspace (lstrip isspace s)) as (r & Hr & _).
  exists l, r. by rewrite <-Hr.
Qed.

(** Stripping leaves nothing exactly when the text is white space. *)
Lemma strip_nil s : strip s = [] <-> visible s = false.
Proof.
  unfold visible. split.
  - intros E. destruct (strip_part_of s) as (l & r & Hs). rewrite E in Hs.
    unfold strip in E.
    destruct (lstrip_suffix isspace s) as (l' & Hs' & Hl').
    destruct (rstrip_prefix isspace (lstrip isspace s)) as (r' & Hr' & Hr'').
    rewrite E in Hr'. simpl in Hr'. rewrite Hr' in Hs'. rewrite Hs'.
    apply not_true_iff_false. rewrite existsb_exists. intros (c & Hin & Hc).
    apply in_app_or in Hin as [Hin | Hin].
    + rewrite forallb_forall in Hl'. rewrite (Hl' c Hin) in Hc. done.
    + rewrite forallb_forall in Hr''. rewrite (Hr'' c Hin) in Hc. done.
  - intros Hv. unfold strip. rewrite lstrip_all; [done|].
    apply forallb_forall. intros c Hin.
    destruct (isspace c) eqn:Hc; [done|]. exfalso.
    apply not_true_iff_false in Hv. apply Hv. apply existsb_exists.
    exists c. by rewrite Hc.
Qed.

Lemma concat_head (pieces : list pystr) c :
  Forall (fun t => t <> []) pieces ->
  head (concat pieces) = Some c -> exists t, head pieces = Some t /\ head t = Some c.
Proof.
  intros Hne. destruct Hne as [|t pieces Ht _]; [done|].
  simpl. destruct t as [|a t]; [done|]. simpl. intros [= <-]. by exists (a :: t).
Qed.

Lemma concat_last (pieces : list pystr) c :
  Forall (fun t => t <> []) pieces ->
  last (concat pieces) = Some c -> exists t, last pieces = Some t /\ last t = Some c.
Proof.
  induction 1 as [|t pieces Ht Hne IH]; [done|]. simpl.
  destruct pieces as [|t' pieces].
  - simpl. rewrite app_nil_r. intros H. by exists t.
  - intros H. destruct (IH) as (t0 & Hl & Hc).
    + inversion Hne as [|? ? Ht' _]; subst.
      assert (concat (t' :: pieces) <> []) as Hcne.
      { simpl. destruct t'; [done|]. done. }
      rewrite last_app in H. destruct (last (concat (t' :: pieces))) eqn:E; [done|].
      apply last_None in E. done.
    + exists t0. split; [|done]. by rewrite last_cons, Hl.
Qed.

Lemma stripped_strings_spec element t :
  t ∈ stripped_strings element <->
  exists s, NavigableString s ∈ descendants element /\ t = strip s /\ t <> [].
Proof.
  unfold stripped_strings. rewrite list_elem_of_omap. split.
  - intros (d & Hd & H). destruct d as [| s |]; try done.
    destruct (strip s) as [|a t'] eqn:E; [done|]. simpl in H. injection H as <-.
    exists s. by rewrite E.
  - intros (s & Hd & -> & Hne). exists (NavigableString s). split; [done|].
    by destruct (strip s).
Qed.

End TextFields.

Section TextFieldClaim.
Import Py Re Bs4 Movie.
Implicit Types (s x : pystr) (item element : node).

Lemma stripped_strings_nonempty element :
  Forall (fun t => t <> []) (stripped_strings element).
Proof.
  apply Forall_forall. intros t Ht.
  apply stripped_strings_spec in Ht as (s & _ & _ & Hne). done.
Qed.

Lemma get_text_trimmed element : trimmed (get_text element).
Proof.
  unfold get_text. split; intros c Hc.
  - apply concat_head in Hc as (t & Ht & Hc); [|apply stripped_strings_nonempty].
    assert (t ∈ stripped_strings element) as Hin.
    { destruct (stripped_strings element); [done|]. injection Ht as ->. left. }
    apply stripped_strings_spec in Hin as (s & _ & -> & _).
    destruct (strip_trimmed s) as [H _]. by apply H.
  - apply concat_last in Hc as (t & Ht & Hc); [|apply stripped_strings_nonempty].
    assert (t ∈ stripped_strings element) as Hin.
    { apply last_Some in Ht as (l' & ->). apply elem_of_app. right. left. }
    apply stripped_strings_spec in Hin as (s & _ & -> & _).
    destruct (strip_trimmed s) as [_ H]. by apply H.
Qed.

Lemma get_text_visible element :
  get_text element <> [] <->
  exists s, NavigableString s ∈ descendants element /\ visible s = true.
Proof.
  unfold get_text. split.
  - intros Hne. destruct (stripped_strings element) as [|t pieces] eqn:E; [done|].
    assert (t ∈ stripped_strings element) as Hin by (rewrite E; left).
    apply stripped_strings_spec in Hin as (s & Hs & -> & Ht).
    exists s. split; [done|]. destruct (visible s) eqn:Hv; [done|].
    by apply strip_nil in Hv.
  - intros (s & Hs & Hv) Hnil.
    assert (strip s ∈ stripped_strings element) as Hin.
    { apply stripped_strings_spec. exists s. split_and!; [done..|].
      intros E. apply strip_nil in E. congruence. }
    apply list_elem_of_In, in_split in Hin as (l1 & l2 & E).
    rewrite E, concat_app in Hnil. simpl in Hnil.
    apply app_eq_nil in Hnil as [_ Hnil]. apply app_eq_nil in Hnil as [Hnil _].
    apply strip_nil in Hnil. congruence.
Qed.

(** X1.  The text the extractor reads from an element (the titles, the
    rating) has no white space at its start nor at its end, and it is not
    empty exactly when the element is there and one of the text nodes below
    it has a character that is not white space.  So the parser keeps an entry
    exactly when its title element has such a text node: a title of white
    space counts as no title. *)
Theorem text_field_trimmed_and_visible item tag class_name :
  trimmed (extract_text_content item tag class_name) /\
  (extract_text_content item tag class_name <> [] <->
   exists element s,
     find item tag class_name = Some element /\
     NavigableString s ∈ descendants element /\ visible s = true) /\
  (has (extract_movie_info item) K_title = true <->
   exists element s,
     find item s_h2 s_title = Some element /\
     NavigableString s ∈ descendants element /\ visible s = true).
Proof.
  assert (forall tag class_name,
            extract_text_content item tag class_name <> [] <->
            exists element s,
              find item tag class_name = Some element /\
              NavigableString s ∈ descendants element /\ visible s = true) as Hv.
  { intros tg cl. unfold extract_text_content.
    destruct (find item tg cl) as [element|].
    - rewrite get_text_visible. split.
      + intros (s & Hs & Hvis). by exists element, s.
      + intros (e & s & [= <-] & Hs & Hvis). by exists s.
    - split; [done|]. by intros (e & s & [=] & _). }
  split_and!.
  - unfold extract_text_content. destruct (find item tag class_name).
    + apply get_text_trimmed.
    + by split.
  - apply Hv.
  - rewrite has_title_iff. apply Hv.
Qed.

End TextFieldClaim.

(** ** What the poster URL always is *)

Section PosterInvariant.
Import Py Re Bs4 Movie.
Implicit Types (f : char -> bool) (s x y style : pystr) (item : node).

Lemma part_of_trans x y s : part_of x y -> part_of y s -> part_of x s.
Proof.
  intros (l1 & r1 & ->) (l2 & r2 & ->). exists (l2 ++ l1), (r1 ++ r2).
  by rewrite <-!app_assoc.
Qed.

Lemma strip_by_part_of f s : part_of (rstrip f (lstrip f s)) s.
Proof.
  destruct (lstrip_suffix f s) as (l & Hs & _).
  destruct (rstrip_prefix f (lstrip f s)) as (r & Hr & _).
  exists l, r. by rewrite <-Hr.
Qed.

Lemma part_of_forallb f x s :
  part_of x s -> forallb f s = true -> forallb f x = true.
Proof.
  intros (l & r & ->). rewrite !forallb_app.
  intros H. apply andb_true_iff in H as [_ H]. by apply andb_true_iff in H as [H _].
Qed.

(** The URL a pattern finds is a part of the style, with no newline in it. *)
Lemma found_url_part_of_style pattern style m :
  pattern ∈ patterns -> search pattern style = Some m ->
  part_of (strip (strip_chars quotes (group_1 m))) style /\
  forallb dot (strip (strip_chars quotes (group_1 m))) = true.
Proof.
  intros Hp Hm. apply search_from_Some in Hm as (a & b & Hs & _ & Hm & _).
  apply (matches_patterns _ _ _ Hp) in Hm
    as (w & q1 & body & q2 & Hg0 & _ & _ & Hdot & Hg1).
  unfold group_1. rewrite Hg1. simpl.
  assert (part_of (strip (strip_chars quotes body)) body) as Hpart.
  { eapply part_of_trans; [apply strip_part_of|]. apply strip_by_part_of. }
  split.
  - eapply part_of_trans; [exact Hpart|].
    exists (a ++ w ++ [c_lparen] ++ q1), (q2 ++ [c_rparen] ++ b).
    rewrite Hs, Hg0. by rewrite <-!app_assoc.
  - by eapply part_of_forallb.
Qed.

Lemma image_url_of_style_found ps style :
  (forall p, p ∈ ps -> p ∈ patterns) ->
  image_url_of_style ps style = [] \/
  (part_of (image_url_of_style ps style) style /\
   forallb dot (image_url_of_style ps style) = true /\
   startswith s_data (image_url_of_style ps style) = false /\
   trimmed (image_url_of_style ps style)).
Proof.
  induction ps as [|p ps IH]; intros Hps; [by left|]. cbn [image_url_of_style].
  assert (forall p', p' ∈ ps -> p' ∈ patterns) as Hps'.
  { intros p' Hp'. apply Hps. apply elem_of_cons. auto. }
  destruct (search p style) as [m|] eqn:Hm; [|by apply IH]. cbv zeta.
  destruct (truthy _ && negb _) eqn:Hacc; [|by apply IH].
  right. apply andb_true_iff in Hacc as [_ Hdata].
  destruct (found_url_part_of_style p style m) as [Hpart Hdot];
    [apply Hps, elem_of_cons; auto|done|].
  split_and!; [done|done| |apply strip_trimmed].
  by apply negb_true_iff in Hdata.
Qed.

(** X2.  The poster URL of an entry is empty, or it is a part of the style
    text of the poster element, in one piece and as written there; it then
    has no newline in it, no white space at its start nor at its end, and
    does not start with [data:]. *)
Theorem poster_url_comes_from_style item :
  extract_image_url item = [] \/
  exists figure style,
    find item s_figure s_poster = Some figure /\
    attr figure s_style = Some style /\
    part_of (extract_image_url item) style /\
    Forall (fun c => c <> 10%N) (extract_image_url item) /\
    trimmed (extract_image_url item) /\
    startswith s_data (extract_image_url item) = false.
Proof.
  unfold extract_image_url.
  destruct (find item s_figure s_poster) as [figure|]; [|by left].
  destruct (attr figure s_style) as [style|] eqn:Hattr; [|by left].
  destruct (image_url_of_style_found patterns style) as [H | (Hp & Hd & Hs & Ht)];
    [done|by left|].
  right. exists figure, style. split_and!; try done.
  apply Forall_forall. intros c Hc Hnl. rewrite forallb_forall in Hd.
  apply list_elem_of_In in Hc. specialize (Hd c Hc). unfold dot in Hd.
  by rewrite Hnl in Hd.
Qed.

End PosterInvariant.

(** ** The genre *)

Section Genre.
Import Py Re Bs4 Movie.
Implicit Types (p : char -> bool) (s t cur rest : pystr) (item : node).

Lemma after_last_spec sep s :
  existsb (N.eqb sep) s = true ->
  exists pre, s = pre ++ sep :: after_last sep s /\
              existsb (N.eqb sep) (after_last sep s) = false.
Proof.
  induction s as [|c s IH]; [done|]. intros Hin. cbn [after_last].
  destruct ((c =? sep)%N && negb (existsb (N.eqb sep) s)) eqn:E.
  - apply andb_true_iff in E as [Hc Hs]. apply N.eqb_eq in Hc as ->.
    exists []. split; [done|]. by apply negb_true_iff in Hs.
  - rewrite Hin.
    assert (existsb (N.eqb sep) s = true) as Hs.
    { simpl in Hin. apply orb_true_iff in Hin as [Hc | Hs]; [|done].
      apply N.eqb_eq in Hc as ->. rewrite N.eqb_refl in E. simpl in E.
      by apply negb_false_iff in E. }
    destruct (IH Hs) as (pre & Heq & Hno). exists (c :: pre).
    split; [|done]. simpl. by rewrite <-Heq.
Qed.

(** The pieces a split returns hold, in order, the characters that are not
    separators. *)
Lemma split_runs_concat p s cur insep :
  (insep = true -> cur = []) ->
  concat (split_runs p s cur insep) = cur ++ List.filter (fun c => negb (p c)) s.
Proof.
  revert cur insep. induction s as [|c s IH]; intros cur insep Hcur; simpl.
  - by rewrite app_nil_r.
  - destruct (p c); simpl.
    + destruct insep; simpl; rewrite IH by done; [|done]. by rewrite Hcur.
    + rewrite IH by done. by rewrite <-app_assoc.
Qed.

Lemma split_runs_free p s cur insep :
  forallb (fun c => negb (p c)) cur = true ->
  Forall (fun t => forallb (fun c => negb (p c)) t = true) (split_runs p s cur insep).
Proof.
  revert cur insep. induction s as [|c s IH]; intros cur insep Hcur; simpl.
  - by constructor.
  - destruct (p c) eqn:Hc.
    + destruct insep; [by apply IH|]. constructor; [done|by apply IH].
    + apply IH. rewrite forallb_app, Hcur. simpl. by rewrite Hc.
Qed.

Lemma split_runs_token p t rest cur insep :
  t <> [] -> forallb (fun c => negb (p c)) t = true ->
  (insep = true -> cur = []) ->
  split_runs p (t ++ rest) cur insep = split_runs p rest (cur ++ t) false.
Proof.
  revert cur insep. induction t as [|c t IH]; [done|]. intros cur insep _ Ht Hcur.
  simpl in *. apply andb_true_iff in Ht as [Hc Ht].
  apply negb_true_iff in Hc. rewrite Hc.
  destruct t as [|c' t].
  - done.
  - rewrite (IH (cur ++ [c]) false) by done. by rewrite <-app_assoc.
Qed.

Lemma split_runs_separator p sp rest cur :
  sp <> [] -> forallb p sp = true ->
  split_runs p (sp ++ rest) cur false = cur :: split_runs p rest [] true.
Proof.
  intros Hne Hsp. destruct sp as [|c sp]; [done|]. simpl in *.
  apply andb_true_iff in Hsp as [-> Hsp]. f_equal. clear Hne.
  induction sp as [|c' sp IH]; [done|]. simpl in *.
  apply andb_true_iff in Hsp as [-> Hsp]. by apply IH.
Qed.

(** Joining pieces with a separator and splitting again gives the pieces. *)
Lemma split_join p sep tokens cur insep :
  sep <> [] -> forallb p sep = true ->
  Forall (fun t => t <> [] /\ forallb (fun c => negb (p c)) t = true) tokens ->
  tokens <> [] -> (insep = true -> cur = []) ->
  split_runs p (join sep tokens) cur insep
  = match tokens with
    | [] => []
    | t :: rest => (cur ++ t) :: rest
    end.
Proof.
  intros Hsep Hp Htok. revert cur insep.
  induction Htok as [|t tokens [Ht Hfree] Htok IH]; [done|]. intros cur insep _ Hcur.
  destruct tokens as [|t' tokens].
  - simpl. rewrite <-(app_nil_r t) at 1. by rewrite split_runs_token.
  - change (join sep (t :: t' :: tokens)) with (t ++ sep ++ join sep (t' :: tokens)).
    rewrite split_runs_token, split_runs_separator by done.
    by rewrite IH.
Qed.

Lemma filter_truthy_tokens (tokens : list pystr) :
  Forall (fun t => t <> []) tokens ->
  filter (fun t => truthy t = true) tokens = tokens.
Proof.
  induction 1 as [|t tokens Ht _ IH]; [done|].
  rewrite filter_cons, decide_True by (by destruct t). by rewrite IH.
Qed.

Lemma concat_filter_truthy (pieces : list pystr) :
  concat (filter (fun t => truthy t = true) pieces) = concat pieces.
Proof.
  induction pieces as [|t pieces IH]; [done|]. rewrite filter_cons.
  destruct t as [|c t]; simpl; [done|]. by rewrite IH.
Qed.

(** The genre of a record, from the text of the category element. *)
Lemma lookup_genre item :
  extract_movie_info item !! K_genre
  = match find item s_div s_category with
    | Some category =>
        let text := get_text category in
        if existsb (N.eqb c_level) text then
          match filter (fun t => truthy t = true)
                  (split_plus genre_separator (after_last c_level text)) with
          | [] => None
          | t :: rest => Some (join s_bullet_sep (t :: rest))
          end
        else None
    | None => None
    end.
Proof.
  rewrite extract_movie_info_unfold. cbv zeta.
  assert (extract_status_info item (head_of_record item) !! K_genre = None) as Hbase.
  { unfold extract_status_info. case_match.
    - rewrite !lookup_set_if_ne by key_ne.
      unfold head_of_record. repeat case_match;
        rewrite ?(lookup_insert_ne _ K_certificate) by key_ne;
        rewrite (lookup_insert_ne _ K_rating) by key_ne;
        rewrite (lookup_insert_ne _ K_eng_title) by key_ne;
        rewrite (lookup_insert_ne _ K_title) by key_ne;
        by rewrite (lookup_insert_ne _ K_poster) by key_ne.
    - unfold head_of_record. repeat case_match;
        rewrite ?(lookup_insert_ne _ K_certificate) by key_ne;
        rewrite (lookup_insert_ne _ K_rating) by key_ne;
        rewrite (lookup_insert_ne _ K_eng_title) by key_ne;
        rewrite (lookup_insert_ne _ K_title) by key_ne;
        by rewrite (lookup_insert_ne _ K_poster) by key_ne. }
  assert (extract_category_info item (extract_status_info item (head_of_record item))
            !! K_genre
          = match find item s_div s_category with
            | Some category =>
                let text := get_text category in
                if existsb (N.eqb c_level) text then
                  match filter (fun t => truthy t = true)
                          (split_plus genre_separator (after_last c_level text)) with
                  | [] => None
                  | t :: rest => Some (join s_bullet_sep (t :: rest))
                  end
                else None
            | None => None
            end) as Hcat.
  { unfold extract_category_info. destruct (find item s_div s_category); [|done].
    cbv zeta. destruct (existsb _ _); [|done].
    destruct (filter _ _); [done|]. by rewrite lookup_insert_eq. }
  destruct (find item s_a s_trailer) as [trailer|]; [|done].
  destruct (attr trailer s_href); [|done]. by rewrite lookup_insert_ne by key_ne.
Qed.

End Genre.

Section GenreClaim.
Import Py Re Bs4 Movie.
Implicit Types (s t : pystr) (item : node).

(** X3.  The genre of a record comes from the text of the category element,
    from what follows the last 級 in it.  When the record has a genre, it is
    a list of tokens joined by a bullet between two spaces: the tokens are not
    empty, have no bullet and no white space in them, and hold, in order, the
    characters after the last 級 that are neither; splitting the genre again
    gives the same tokens.  The record has no genre when the element is
    missing, when its text has no 級, and when only bullets and white space
    follow the last 級. *)
Theorem genre_is_normalised item :
  match extract_movie_info item !! K_genre with
  | Some genre =>
      exists category pre types tokens,
        find item s_div s_category = Some category /\
        get_text category = pre ++ [c_level] ++ types /\
        Forall (fun c => c <> c_level) types /\
        tokens <> [] /\
        Forall (fun t => t <> [] /\
                         forallb (fun c => negb (genre_separator c)) t = true) tokens /\
        concat tokens = List.filter (fun c => negb (genre_separator c)) types /\
        genre = join s_bullet_sep tokens /\
        filter (fun t => truthy t = true) (split_plus genre_separator genre) = tokens
  | None =>
      match find item s_div s_category with
      | Some category =>
          existsb (N.eqb c_level) (get_text category) = false \/
          forallb genre_separator (after_last c_level (get_text category)) = true
      | None => True
      end
  end.
Proof.
  rewrite lookup_genre.
  destruct (find item s_div s_category) as [category|]; [|done]. cbv zeta.
  destruct (existsb (N.eqb c_level) (get_text category)) eqn:Hlevel; [|by left].
  destruct (after_last_spec c_level _ Hlevel) as (pre & Htext & Hno).
  set (types := after_last c_level (get_text category)) in *.
  pose proof (split_runs_free genre_separator types [] false eq_refl) as Hfree.
  pose proof (split_runs_concat genre_separator types [] false) as Hconcat.
  fold (split_plus genre_separator types) in Hfree, Hconcat.
  destruct (filter _ (split_plus genre_separator types)) as [|t rest] eqn:Htokens.
  - right. apply forallb_forall. intros c Hc.
    destruct (genre_separator c) eqn:Hsep; [done|]. exfalso.
    assert (In c (concat (filter (fun t => truthy t = true)
                            (split_plus genre_separator types)))) as Hin.
    { rewrite concat_filter_truthy, Hconcat by done. simpl.
      apply filter_In. by rewrite Hsep. }
    by rewrite Htokens in Hin.
  - assert (Forall (fun t => t <> [] /\
                             forallb (fun c => negb (genre_separator c)) t = true)
              (t :: rest)) as Hall.
    { rewrite <-Htokens. apply Forall_forall. intros x Hx.
      apply list_elem_of_filter in Hx as [Hx Hin].
      split; [by destruct x|]. rewrite Forall_forall in Hfree. by apply Hfree. }
    exists category, pre, types, (t :: rest). split_and!; try done.
    + apply Forall_forall. intros c Hc ->.
      apply not_true_iff_false in Hno. apply Hno. apply existsb_exists.
      exists c_level. split; [by apply list_elem_of_In|apply N.eqb_refl].
    + by rewrite <-Htokens, concat_filter_truthy, Hconcat.
    + unfold split_plus. rewrite (split_join genre_separator s_bullet_sep (t :: rest));
        [|done|done|done|done|done].
      apply filter_truthy_tokens. eapply Forall_impl; [exact Hall|]. by intros x [Hx _].
Qed.

(** A category of the page, and one with no genre after the level. *)
Example genre_samples :
  extract_movie_info
    (Tag s_li [s_item] ∅
       [Tag s_div [s_category] ∅ [NavigableString (lit "普遍級 動作•冒險")]])
    !! K_genre = Some (lit "動作 • 冒險") /\
  extract_movie_info
    (Tag s_li [s_item] ∅ [Tag s_div [s_category] ∅ [NavigableString (lit "保護級")]])
    !! K_genre = None.
Proof. split; by vm_compute. Qed.

End GenreClaim.

(** ** The keys of a record *)

Section Schema.
Import Py Re Bs4 Movie.
Implicit Types (movie : gmap pystr pystr) (item : node) (key : pystr).

(** The poster, the titles, the rating and the certificate are not touched by
    what is read after them. *)
Lemma extract_movie_info_head item key :
  key <> K_duration -> key <> K_release -> key <> K_genre -> key <> K_trailer ->
  extract_movie_info item !! key = head_of_record item !! key.
Proof.
  intros H1 H2 H3 H4. rewrite extract_movie_info_unfold. cbv zeta.
  assert (extract_category_info item (extract_status_info item (head_of_record item))
            !! key = head_of_record item !! key) as H.
  { rewrite lookup_category_ne by done. unfold extract_status_info.
    case_match; [|done]. by rewrite !lookup_set_if_ne. }
  repeat case_match; try done. by rewrite lookup_insert_ne.
Qed.

Lemma head_of_record_lookup item :
  head_of_record item !! K_poster = Some (extract_image_url item) /\
  head_of_record item !! K_eng_title
  = Some (extract_text_content item s_h3 s_eng_title) /\
  head_of_record item !! K_rating
  = Some (extract_text_content item s_span s_icon_text) /\
  head_of_record item !! K_certificate
  = (cert_div ← find item s_div s_certificate;
     badge ← find cert_div s_span s_badge;
     Some (get_text badge)).
Proof.
  unfold head_of_record.
  destruct (find item s_div s_certificate) as [cert_div|]; simpl;
    [destruct (find cert_div s_span s_badge) as [badge|]; simpl|];
    split_and!;
    repeat first [ rewrite lookup_insert_eq
                 | rewrite lookup_insert_ne by key_ne
                 | rewrite lookup_empty ];
    reflexivity.
Qed.

Lemma head_of_record_other item key :
  key <> K_poster -> key <> K_title -> key <> K_eng_title -> key <> K_rating ->
  key <> K_certificate -> head_of_record item !! key = None.
Proof.
  intros H1 H2 H3 H4 H5. unfold head_of_record.
  repeat case_match; by rewrite ?lookup_insert_ne, lookup_empty by done.
Qed.

Lemma lookup_trailer item :
  extract_movie_info item !! K_trailer
  = (trailer ← find item s_a s_trailer;
     href ← attr trailer s_href;
     Some (s_origin ++ href)).
Proof.
  rewrite extract_movie_info_unfold. cbv zeta.
  assert (extract_category_info item (extract_status_info item (head_of_record item))
            !! K_trailer = None) as H.
  { rewrite lookup_category_ne by key_ne. unfold extract_status_info.
    case_match; rewrite ?lookup_set_if_ne by key_ne;
      apply head_of_record_other; key_ne. }
  destruct (find item s_a s_trailer) as [trailer|]; [|done]. simpl.
  destruct (attr trailer s_href); [|done]. simpl. by rewrite lookup_insert_eq.
Qed.

Lemma is_duration_not_empty w : is_duration w -> w <> [].
Proof. intros (h & m & _ & _ & ->) E. apply app_eq_nil in E as [_ E]. done. Qed.

Lemma is_release_not_empty w : is_release w -> w <> [].
Proof. by intros (v & _ & ->). Qed.

Lemma join_not_empty sep t (rest : list pystr) : t <> [] -> join sep (t :: rest) <> [].
Proof. destruct t; [done|]. by destruct rest. Qed.

Lemma lookup_duration_not_empty item :
  extract_movie_info item !! K_duration <> Some [].
Proof.
  rewrite extract_movie_info_duration.
  destruct (find item s_div s_status) as [status|]; [|done]. simpl.
  intros H. apply duration_of_Some in H as (_ & _ & _ & H & _).
  by apply is_duration_not_empty in H.
Qed.

Lemma lookup_release_not_empty item :
  extract_movie_info item !! K_release <> Some [].
Proof.
  rewrite extract_movie_info_release.
  destruct (find item s_div s_status) as [status|]; [|done]. simpl.
  intros H. apply release_of_Some in H as (_ & _ & _ & H & _).
  by apply is_release_not_empty in H.
Qed.

Lemma lookup_genre_not_empty item :
  extract_movie_info item !! K_genre <> Some [].
Proof.
  rewrite lookup_genre. destruct (find item s_div s_category) as [category|]; [|done].
  cbv zeta. destruct (existsb _ _); [|done].
  destruct (filter _ _) as [|t rest] eqn:E; [done|].
  intros H. apply (join_not_empty s_bullet_sep t rest); [|congruence].
  assert (t ∈ filter (fun t => truthy t = true)
                (split_plus genre_separator (after_last c_level (get_text category))))
    as Hin by (rewrite E; left).
  apply list_elem_of_filter in Hin as [Hin _]. by destruct t.
Qed.

Lemma lookup_trailer_not_empty item :
  extract_movie_info item !! K_trailer <> Some [].
Proof.
  rewrite lookup_trailer. destruct (find item s_a s_trailer) as [trailer|]; [|done].
  simpl. by destruct (attr trailer s_href).
Qed.

End Schema.

Section SchemaClaims.
Import Py Re Bs4 Movie.
Implicit Types (movie : gmap pystr pystr) (item : node) (key : pystr).

(** X4.  The record of an entry always has the poster, the two titles and the
    rating, each with what its extractor returned (the empty text when the
    page has none), and the certificate when the certificate element holds a
    badge: nothing read later replaces them.  The record has no key besides
    these five, the duration, the release window, the genre and the trailer
    link. *)
Theorem record_keys item :
  extract_movie_info item !! K_poster = Some (extract_image_url item) /\
  extract_movie_info item !! K_title = Some (extract_text_content item s_h2 s_title) /\
  extract_movie_info item !! K_eng_title
  = Some (extract_text_content item s_h3 s_eng_title) /\
  extract_movie_info item !! K_rating
  = Some (extract_text_content item s_span s_icon_text) /\
  extract_movie_info item !! K_certificate
  = (cert_div ← find item s_div s_certificate;
     badge ← find cert_div s_span s_badge;
     Some (get_text badge)) /\
  (forall key,
     is_Some (extract_movie_info item !! key) ->
     key ∈ [K_poster; K_title; K_eng_title; K_rating; K_certificate;
            K_duration; K_release; K_genre; K_trailer]).
Proof.
  destruct (head_of_record_lookup item) as (Hp & He & Hr & Hc).
  split_and!.
  - by rewrite extract_movie_info_head by key_ne.
  - apply extract_movie_info_title.
  - by rewrite extract_movie_info_head by key_ne.
  - by rewrite extract_movie_info_head by key_ne.
  - by rewrite extract_movie_info_head by key_ne.
  - intros key Hkey.
    destruct (decide (key = K_duration)) as [->|H1]; [set_solver|].
    destruct (decide (key = K_release)) as [->|H2]; [set_solver|].
    destruct (decide (key = K_genre)) as [->|H3]; [set_solver|].
    destruct (decide (key = K_trailer)) as [->|H4]; [set_solver|].
    rewrite extract_movie_info_head in Hkey by done.
    destruct (decide (key = K_poster)) as [->|H5]; [set_solver|].
    destruct (decide (key = K_title)) as [->|H6]; [set_solver|].
    destruct (decide (key = K_eng_title)) as [->|H7]; [set_solver|].
    destruct (decide (key = K_rating)) as [->|H8]; [set_solver|].
    destruct (decide (key = K_certificate)) as [->|H9]; [set_solver|].
    rewrite head_of_record_other in Hkey by done. by destruct Hkey.
Qed.

(** X5.  The duration, the release window, the genre and the trailer link are
    in the record only with a text that is not empty, so the test the renderer
    makes on them is true for each one the record has.  The trailer link is the
    [href] of the first trailer anchor, as written, after
    [https://today.line.me]; an anchor without [href] gives no link. *)
Theorem optional_fields_not_empty item :
  extract_movie_info item !! K_duration <> Some [] /\
  extract_movie_info item !! K_release <> Some [] /\
  extract_movie_info item !! K_genre <> Some [] /\
  extract_movie_info item !! K_trailer <> Some [] /\
  extract_movie_info item !! K_trailer
  = (trailer ← find item s_a s_trailer;
     href ← attr trailer s_href;
     Some (s_origin ++ href)) /\
  (forall key,
     key ∈ [K_duration; K_release; K_genre; K_trailer] ->
     has (extract_movie_info item) key = true <->
     is_Some (extract_movie_info item !! key)).
Proof.
  pose proof (lookup_duration_not_empty item) as Hd.
  pose proof (lookup_release_not_empty item) as Hr.
  pose proof (lookup_genre_not_empty item) as Hg.
  pose proof (lookup_trailer_not_empty item) as Ht.
  split_and!; [done|done|done|done|apply lookup_trailer|].
  intros key Hkey. unfold has.
  assert (extract_movie_info item !! key <> Some []) as Hne.
  { repeat (apply elem_of_cons in Hkey as [->|Hkey]; [done|]).
    by apply elem_of_nil in Hkey. }
  destruct (extract_movie_info item !! key) as [[|c v]|]; [done| |].
  - split; [by eexists|done].
  - split; [done|]. by intros [? ?].
Qed.

(** The certificate is unlike them: a badge with no text is stored, with the
    empty text.  And a trailer whose [href] is a full address is not kept as
    it is. *)
Example certificate_and_trailer_samples :
  extract_movie_info
    (Tag s_li [s_item] ∅
       [Tag s_div [s_certificate] ∅ [Tag s_span [s_badge] ∅ []]])
    !! K_certificate = Some [] /\
  extract_movie_info
    (Tag s_li [s_item] ∅
       [Tag s_a [s_trailer] {[ s_href := lit "https://v.example/t" ]} []])
    !! K_trailer = Some (lit "https://today.line.mehttps://v.example/t").
Proof. split; by vm_compute. Qed.

End SchemaClaims.

(** ** What a card shows *)

Section CardContents.
Import Py Re Bs4 Linebot Movie.
Implicit Types (movie : gmap pystr pystr) (refuses : sdk).
Local Arguments truthy : simpl never.

Lemma texts_of_box layout cells opts :
  texts_of (BoxComponent layout cells opts) = concat (texts_of <$> cells).
Proof. induction cells as [|c cells IH]; [done|]. csimpl in *. by rewrite <-IH. Qed.

Lemma links_of_box layout cells opts :
  links_of (BoxComponent layout cells opts) = concat (links_of <$> cells).
Proof. induction cells as [|c cells IH]; [done|]. csimpl in *. by rewrite <-IH. Qed.

(** A constructor returns what it was given, or raises. *)
Lemma construct_Ok refuses {A : Type} (inj : A -> sdk_object) (a b : A) :
  construct refuses inj a = Ok b -> b = a /\ construct permissive inj a = Ok b.
Proof. unfold construct. destruct (refuses (inj a)); [done|]. by intros [= ->]. Qed.

Lemma info_rows_any refuses l contents rows :
  info_rows refuses l contents = Ok rows -> info_rows permissive l contents = Ok rows.
Proof.
  revert contents. induction l as [|[info icon] l IH]; intros contents; simpl; [done|].
  destruct info as [[|c text]|]; try apply IH.
  unfold new_component, construct. destruct (refuses _); [done|]. simpl. apply IH.
Qed.

Lemma info_rows_texts l contents :
  exists rows,
    info_rows permissive l contents = Ok (contents ++ rows) /\
    concat (texts_of <$> rows)
    = concat ((fun '(info, icon) =>
                 match info with
                 | Some (c :: text) => [icon ++ s_space ++ c :: text]
                 | _ => []
                 end) <$> l).
Proof.
  revert contents. induction l as [|[info icon] l IH]; intros contents; simpl.
  - exists []. by rewrite app_nil_r.
  - destruct info as [[|c text]|]; try apply IH.
    edestruct IH as (rows & -> & Hrows). eexists. split; [by rewrite <-app_assoc|].
    csimpl. by rewrite Hrows.
Qed.

Local Arguments info_rows : simpl never.

(** The constructors of the library decide whether there is a card, not what
    is on it. *)
Lemma build_movie_bubble_any refuses movie bubble :
  build_movie_bubble refuses movie = Ok bubble ->
  build_movie_bubble permissive movie = Ok bubble.
Proof.
  unfold build_movie_bubble, new_component, new_action, new_bubble, construct.
  intros H.
  destruct (has movie K_poster), (has movie K_eng_title), (has movie K_rating),
    (has movie K_certificate), (has movie K_trailer); simpl in H |- *;
    repeat match goal with
      | H : context [refuses ?o] |- _ =>
          destruct (refuses o); simpl in H; [discriminate H|]
      | H : context [info_rows refuses ?l ?c] |- _ =>
          let E := fresh "E" in
          destruct (info_rows refuses l c) eqn:E; simpl in H; [|discriminate H];
          apply info_rows_any in E; rewrite E; simpl
      end; exact H.
Qed.

Lemma shown_has movie prefix key :
  shown movie prefix key
  = if has movie key then [prefix ++ item_of movie key] else [].
Proof. unfold shown, has, item_of. by destruct (movie !! key) as [[|c text]|]. Qed.

Lemma build_movie_bubble_contents movie :
  exists bubble,
    build_movie_bubble permissive movie = Ok bubble /\
    card_texts bubble = texts_of_record movie /\
    hero_url bubble = (if has movie K_poster then movie !! K_poster else None) /\
    footer_links bubble = shown movie [] K_trailer /\
    header bubble = None.
Proof.
  unfold texts_of_record. rewrite !shown_has.
  destruct (info_rows_texts
              [(movie !! K_duration, s_clock); (movie !! K_genre, s_clapper);
               (movie !! K_release, s_calendar)] []) as (rows & _ & Hrows).
  assert (concat (texts_of <$> rows)
          = (if has movie K_duration
             then [(s_clock ++ s_space) ++ item_of movie K_duration] else [])
            ++ (if has movie K_genre
                then [(s_clapper ++ s_space) ++ item_of movie K_genre] else [])
            ++ (if has movie K_release
                then [(s_calendar ++ s_space) ++ item_of movie K_release] else []))
    as Hinfo.
  { rewrite Hrows, <-!shown_has. unfold shown. csimpl.
    destruct (movie !! K_duration) as [[|? ?]|], (movie !! K_genre) as [[|? ?]|],
      (movie !! K_release) as [[|? ?]|]; reflexivity. }
  rewrite <-Hinfo. clear Hinfo.
  unfold build_movie_bubble, has, item_of.
  destruct (movie !! K_poster) as [[|? ?]|], (movie !! K_eng_title) as [[|? ?]|],
    (movie !! K_rating) as [[|? ?]|], (movie !! K_certificate) as [[|? ?]|];
    simpl;
    match goal with
    | |- context [info_rows permissive ?l ?c] =>
        destruct (info_rows_texts l c) as (rows' & -> & Hrows')
    end; simpl;
    destruct (movie !! K_trailer) as [[|? ?]|]; simpl;
    eexists; (split; [reflexivity|]);
    unfold card_texts, hero_url, footer_links; cbn [body hero footer header];
    rewrite texts_of_box, Hrows, <-Hrows'; split_and!; reflexivity.
Qed.

End CardContents.

Section CardContentLemmas.
Import Py Re Bs4 Linebot Movie.
Implicit Types (movie : gmap pystr pystr) (movie_list : list (gmap pystr pystr)).
Implicit Types (refuses : sdk).

Lemma create_movie_bubble_any refuses movie :
  create_movie_bubble refuses movie = None \/
  create_movie_bubble refuses movie = create_movie_bubble permissive movie.
Proof.
  unfold create_movie_bubble.
  destruct (build_movie_bubble refuses movie) as [bubble|] eqn:E; [|by left].
  right. by rewrite (build_movie_bubble_any _ _ _ E).
Qed.

Lemma create_movie_bubble_contents movie :
  exists bubble,
    create_movie_bubble permissive movie = Some bubble /\
    card_texts bubble = texts_of_record movie /\
    hero_url bubble = (if has movie K_poster then movie !! K_poster else None) /\
    footer_links bubble = shown movie [] K_trailer /\
    header bubble = None.
Proof.
  unfold create_movie_bubble.
  destruct (build_movie_bubble_contents movie) as (bubble & -> & H). eauto.
Qed.

Lemma bubbles_of_texts movie_list :
  card_texts <$> bubbles_of permissive movie_list
  = texts_of_record <$> take MAX_MOVIES movie_list.
Proof.
  rewrite bubbles_of_omap. induction (take MAX_MOVIES movie_list) as [|movie l IH];
    [done|]. csimpl.
  destruct (create_movie_bubble_contents movie) as (bubble & -> & Ht & _).
  csimpl. by rewrite Ht, IH.
Qed.

Lemma bubbles_of_permissive_length movie_list :
  length (bubbles_of permissive movie_list) = min MAX_MOVIES (length movie_list).
Proof.
  rewrite <-(length_fmap card_texts), bubbles_of_texts, length_fmap.
  apply length_take.
Qed.

Lemma bubbles_of_sublist refuses movie_list :
  sublist (bubbles_of refuses movie_list) (bubbles_of permissive movie_list).
Proof.
  rewrite !bubbles_of_omap. induction (take MAX_MOVIES movie_list) as [|movie l IH];
    [constructor|]. csimpl.
  destruct (create_movie_bubble_contents movie) as (bubble & Hb & _).
  destruct (create_movie_bubble_any refuses movie) as [-> | ->]; rewrite Hb; csimpl.
  - by apply sublist_cons.
  - by apply sublist_skip.
Qed.

End CardContentLemmas.

Section CardContentClaims.
Import Py Re Bs4 Linebot Movie.
Variable refuses : sdk.
Implicit Types (movie : gmap pystr pystr) (movie_list : list (gmap pystr pystr)).

(** X6.  A card shows the record it is made from, and nothing else.  Its body
    holds, from the top: the title (the label 未知電影 when the record has no
    title key), the English title, the rating after a star and the certificate
    after its sign, the duration, the genre and the release window, each after
    its icon and a space; a field the record does not have, or has with the
    empty text, takes no room.  The picture at the top is the poster when the
    record has one, the one button opens the trailer link when the record has
    one, and the card has no header. *)
Theorem card_shows_the_record movie bubble :
  create_movie_bubble refuses movie = Some bubble ->
  card_texts bubble = texts_of_record movie /\
  hero_url bubble = (if has movie K_poster then movie !! K_poster else None) /\
  footer_links bubble = shown movie [] K_trailer /\
  header bubble = None.
Proof.
  intros Hb. destruct (create_movie_bubble_contents movie) as (bubble' & Hp & H).
  destruct (create_movie_bubble_any refuses movie) as [E | E]; [congruence|].
  assert (bubble' = bubble) as <- by congruence. exact H.
Qed.

(** X7.  The constructors of the library decide whether a record has a card,
    never what is on it: the card of a record is the one that constructors
    refusing nothing give, or there is none.  So the cards of a list of records
    are some of the cards it has with such constructors, in the same order, and
    with such constructors there is one card for each of the first ten
    records. *)
Theorem constructors_only_drop_cards movie_list :
  (forall movie,
     create_movie_bubble refuses movie = None \/
     create_movie_bubble refuses movie = create_movie_bubble permissive movie) /\
  sublist (bubbles_of refuses movie_list) (bubbles_of permissive movie_list) /\
  length (bubbles_of permissive movie_list) = min MAX_MOVIES (length movie_list) /\
  card_texts <$> bubbles_of permissive movie_list
  = texts_of_record <$> take MAX_MOVIES movie_list.
Proof.
  split_and!.
  - intros movie. apply create_movie_bubble_any.
  - apply bubbles_of_sublist.
  - apply bubbles_of_permissive_length.
  - apply bubbles_of_texts.
Qed.

End CardContentClaims.

Section CardContentWitness.
Import Py Re Bs4 Linebot Movie.

(** The card of a record with a title, a poster, a duration and a trailer. *)
Lemma card_of_full_record :
  exists bubble,
    create_movie_bubble https_only movie_with_trailer = Some bubble /\
    card_texts bubble = [lit "B"; lit "⏱️ 2小時15分"] /\
    hero_url bubble = Some (lit "https://a/p.jpg") /\
    footer_links bubble = [lit "https://today.line.me/t/1"].
Proof.
  destruct (create_movie_bubble https_only movie_with_trailer) as [bubble|] eqn:E;
    [|by vm_compute in E].
  exists bubble. split; [done|].
  destruct (card_shows_the_record https_only movie_with_trailer bubble E)
    as (-> & -> & -> & _).
  by vm_compute.
Defined.

End CardContentWitness.

(** ** The loader and the message *)

Section Loader.
Import Py Re Bs4 Linebot Movie.
Variable html_parser : pystr -> result node.
Implicit Types (p : playwright) (movie_list : list (gmap pystr pystr)).

(** The loader returns a list only when every call on the browser but the
    wait succeeded, the wait succeeded or timed out, and the page could be
    parsed. *)
Lemma loader_Ok p movie_list :
  get_line_today_top_movies html_parser p = Ok movie_list <->
  launch p = Ok () /\ set_extra_http_headers p = Ok () /\
  set_viewport_size p = Ok () /\ goto p = Ok () /\ close p = Ok () /\
  (wait_for_selector p = Raise PlaywrightTimeoutError /\ movie_list = [] \/
   wait_for_selector p = Ok () /\ scroll_and_load_images p = Ok () /\
   exists html,
     content p = Ok html /\
     parse_movies_from_html html_parser html = Ok movie_list).
Proof.
  unfold get_line_today_top_movies, try_finally. split.
  - intros H.
    destruct (launch p) as [[]|]; [|done]. simpl in H.
    destruct (close p) as [[]|]; [|done].
    destruct (set_extra_http_headers p) as [[]|]; [|done]. simpl in H.
    destruct (set_viewport_size p) as [[]|]; [|done]. simpl in H.
    destruct (goto p) as [[]|]; [|done]. simpl in H.
    split_and!; try done.
    destruct (wait_for_selector p) as [[]|[]]; try done.
    + right. destruct (scroll_and_load_images p) as [[]|]; [|done]. simpl in H.
      destruct (content p) as [html|]; [|done]. simpl in H.
      split_and!; try done. by exists html.
    + left. by injection H as <-.
  - intros (-> & -> & -> & -> & -> & H). simpl.
    by destruct H as [(-> & ->) | (-> & -> & html & -> & H)].
Qed.

Lemma loader_launch_raises p e :
  launch p = Raise e -> get_line_today_top_movies html_parser p = Raise e.
Proof. unfold get_line_today_top_movies. by intros ->. Qed.

Lemma loader_close_raises p e :
  launch p = Ok () -> close p = Raise e ->
  get_line_today_top_movies html_parser p = Raise e.
Proof. unfold get_line_today_top_movies, try_finally. by intros -> ->. Qed.

(** The exception of the parser is raised by the loader. *)
Lemma loader_parser_raises p html e :
  launch p = Ok () -> close p = Ok () -> set_extra_http_headers p = Ok () ->
  set_viewport_size p = Ok () -> goto p = Ok () -> wait_for_selector p = Ok () ->
  scroll_and_load_images p = Ok () -> content p = Ok html ->
  html_parser html = Raise e ->
  get_line_today_top_movies html_parser p = Raise e.
Proof.
  intros H1 H2 H3 H4 H5 H6 H7 H8 H9.
  unfold get_line_today_top_movies, try_finally.
  rewrite H1, H2, H3, H4, H5, H6, H7, H8. simpl.
  unfold parse_movies_from_html. by rewrite H9.
Qed.

(** What the loader raises was raised by a call on the browser, or by the
    parser on the page the browser returned. *)
Lemma loader_raises_a_call p e :
  get_line_today_top_movies html_parser p = Raise e ->
  Exists (fun call => call = Raise e)
    [launch p; close p; set_extra_http_headers p; set_viewport_size p; goto p;
     wait_for_selector p; scroll_and_load_images p; (fun _ => ()) <$> content p] \/
  exists html, content p = Ok html /\ html_parser html = Raise e.
Proof.
  unfold get_line_today_top_movies, try_finally. rewrite !Exists_cons.
  destruct (launch p) as [[]|]; simpl; [|intros [= ->]; auto].
  destruct (close p) as [[]|]; simpl; [|intros [= ->]; auto].
  destruct (set_extra_http_headers p) as [[]|]; simpl; [|intros [= ->]; auto].
  destruct (set_viewport_size p) as [[]|]; simpl; [|intros [= ->]; auto 6].
  destruct (goto p) as [[]|]; simpl; [|intros [= ->]; auto 7].
  destruct (wait_for_selector p) as [[]|e']; simpl.
  - destruct (scroll_and_load_images p) as [[]|]; simpl; [|intros [= ->]; auto 9].
    destruct (content p) as [html|]; simpl; [|intros [= ->]; auto 10].
    intros H. right. exists html. split; [done|]. by apply parse_movies_Raise.
  - intros H. assert (e' = e) as -> by (destruct e'; congruence). auto 8.
Qed.

Lemma good_run_records html :
  get_line_today_top_movies html_parser (good_run html)
  = parse_movies_from_html html_parser html.
Proof. reflexivity. Qed.

Lemma render_movies_Some (refuses : sdk) movie_list message :
  render_movies refuses movie_list = Ok (Some message) ->
  alt_text message = s_alt_text /\
  contents message = CarouselContainer (bubbles_of refuses movie_list) /\
  bubbles_of refuses movie_list <> [].
Proof.
  unfold render_movies. destruct movie_list as [|movie rest]; [done|].
  destruct (bubbles_of refuses (movie :: rest)) as [|b bs]; [done|].
  unfold new_container, new_message, construct.
  destruct (refuses (ObjContainer _)); [done|]. simpl.
  destruct (refuses (ObjMessage _)); [done|]. by intros [= <-].
Qed.

Lemma render_movies_permissive movie_list :
  render_movies permissive movie_list
  = Ok (match movie_list with
        | [] => None
        | _ => Some {| alt_text := s_alt_text;
                       contents := CarouselContainer (bubbles_of permissive movie_list) |}
        end).
Proof.
  unfold render_movies. destruct movie_list as [|movie rest]; [done|].
  pose proof (bubbles_of_permissive_length (movie :: rest)) as Hlen.
  destruct (bubbles_of permissive (movie :: rest)) as [|b bs]; [done|]. done.
Qed.

(** The card of a record of the page has the title of an entry of the page,
    which is not empty. *)
Lemma bubble_of_page (refuses : sdk) soup bubble :
  bubble ∈ bubbles_of refuses
             (extract_movie_info <$>
                filter (fun i => extract_text_content i s_h2 s_title <> [])
                       (find_all soup s_li s_item)) ->
  exists item,
    item ∈ find_all soup s_li s_item /\
    extract_text_content item s_h2 s_title <> [] /\
    create_movie_bubble refuses (extract_movie_info item) = Some bubble /\
    card_title bubble = Some (extract_text_content item s_h2 s_title).
Proof.
  rewrite bubbles_of_omap. intros Hin.
  apply list_elem_of_omap in Hin as (movie & Hin & Hb).
  apply elem_of_take in Hin as (i & Hin & _). apply list_elem_of_lookup_2 in Hin.
  apply list_elem_of_fmap in Hin as (item & -> & Hin).
  apply list_elem_of_filter in Hin as [Hne Hin].
  exists item. split_and!; try done.
  destruct (create_movie_bubble_permissive (extract_movie_info item))
    as (bubble' & Hp & Ht).
  destruct (create_movie_bubble_any refuses (extract_movie_info item)) as [E | E];
    [congruence|].
  assert (bubble' = bubble) as <- by congruence.
  by rewrite Ht, extract_movie_info_title.
Qed.

End Loader.

Section LoaderClaims.
Import Py Re Bs4 Linebot Movie.
Variable html_parser : pystr -> result node.
Implicit Types (p : playwright) (movie_list : list (gmap pystr pystr)).

Lemma get_movies_good_run (refuses : sdk) html :
  get_movies html_parser refuses (good_run html)
  = (movie_list ← parse_movies_from_html html_parser html;
     render_movies refuses movie_list).
Proof. reflexivity. Qed.

(** X8.  A message of [get_movies] is never empty and never untitled.  Its
    alternative text is 電影排行榜; it holds a carousel of one to ten cards;
    they are cards of the records of the page the browser returned, in the
    order of the page, as constructors refusing nothing make them; and the
    first row of each is the title of an entry of that page, which is not
    empty. *)
Theorem message_holds_titled_cards (refuses : sdk) p message :
  get_movies html_parser refuses p = Ok (Some message) ->
  alt_text message = s_alt_text /\
  exists html soup movies bubbles,
    content p = Ok html /\
    html_parser html = Ok soup /\
    parse_movies_from_html html_parser html = Ok movies /\
    contents message = CarouselContainer bubbles /\
    1 <= length bubbles <= MAX_MOVIES /\
    sublist bubbles (bubbles_of permissive movies) /\
    Forall (fun bubble =>
              exists item,
                item ∈ find_all soup s_li s_item /\
                extract_text_content item s_h2 s_title <> [] /\
                card_title bubble = Some (extract_text_content item s_h2 s_title))
           bubbles.
Proof.
  unfold get_movies.
  destruct (get_line_today_top_movies html_parser p) as [movie_list|] eqn:Hl; [|done].
  simpl. intros Hm. apply render_movies_Some in Hm as (Halt & Hc & Hne).
  split; [done|].
  apply loader_Ok in Hl as (_ & _ & _ & _ & _ & [[_ ->] | (_ & _ & html & Hh & Hp)]);
    [done|].
  destruct (parse_movies_Ok html_parser html movie_list Hp) as (soup & Hsoup & Hlist).
  exists html, soup, movie_list, (bubbles_of refuses movie_list).
  split_and!; try done.
  - destruct (bubbles_of refuses _); [done|]. simpl. lia.
  - apply bubbles_of_length.
  - apply bubbles_of_sublist.
  - apply Forall_forall. intros bubble Hin. rewrite Hlist in Hin.
    apply bubble_of_page in Hin as (item & Hi & Hne' & _ & Ht). by exists item.
Qed.

(** X9.  The loader returns a list only when the browser was launched, the
    headers and the window size were set, the page was opened and the browser
    was closed without an exception, and either the wait for the list timed
    out, with the empty list as result, or the wait, the scrolling and the
    reading of the page succeeded and the page could be parsed, with the
    records of that page as result.  The time-out of the wait is the only
    exception it handles: a failure to launch is raised; once the browser is
    launched, a failure to close it is raised whatever happened before, a
    time-out included; any other exception of the wait is raised; an exception
    of the parser on the page is raised; what the loader raises was raised by
    one of its calls on the browser or by the parser; and [get_movies] raises
    what the loader raises. *)
Theorem loader_returns_or_raises p :
  (forall movie_list,
     get_line_today_top_movies html_parser p = Ok movie_list <->
     launch p = Ok () /\ set_extra_http_headers p = Ok () /\
     set_viewport_size p = Ok () /\ goto p = Ok () /\ close p = Ok () /\
     (wait_for_selector p = Raise PlaywrightTimeoutError /\ movie_list = [] \/
      wait_for_selector p = Ok () /\ scroll_and_load_images p = Ok () /\
      exists html,
        content p = Ok html /\
        parse_movies_from_html html_parser html = Ok movie_list)) /\
  (forall e, launch p = Raise e ->
             get_line_today_top_movies html_parser p = Raise e) /\
  (forall e, launch p = Ok () -> close p = Raise e ->
             get_line_today_top_movies html_parser p = Raise e) /\
  (forall e, launch p = Ok () -> close p = Ok () ->
             set_extra_http_headers p = Ok () -> set_viewport_size p = Ok () ->
             goto p = Ok () -> wait_for_selector p = Raise e ->
             e <> PlaywrightTimeoutError ->
             get_line_today_top_movies html_parser p = Raise e) /\
  (forall html e,
     launch p = Ok () -> close p = Ok () -> set_extra_http_headers p = Ok () ->
     set_viewport_size p = Ok () -> goto p = Ok () -> wait_for_selector p = Ok () ->
     scroll_and_load_images p = Ok () -> content p = Ok html ->
     html_parser html = Raise e ->
     get_line_today_top_movies html_parser p = Raise e) /\
  (forall e,
     get_line_today_top_movies html_parser p = Raise e ->
     Exists (fun call => call = Raise e)
       [launch p; close p; set_extra_http_headers p; set_viewport_size p; goto p;
        wait_for_selector p; scroll_and_load_images p; (fun _ => ()) <$> content p] \/
     exists html, content p = Ok html /\ html_parser html = Raise e) /\
  (forall (refuses : sdk) e,
     get_line_today_top_movies html_parser p = Raise e ->
     get_movies html_parser refuses p = Raise e).
Proof.
  split_and!.
  - intros movie_list. apply loader_Ok.
  - intros e. apply loader_launch_raises.
  - intros e. apply loader_close_raises.
  - intros e H1 H2 H3 H4 H5 H6 Hne. unfold get_line_today_top_movies, try_finally.
    rewrite H1, H2, H3, H4, H5, H6. simpl. by destruct e.
  - intros html e. apply loader_parser_raises.
  - intros e. apply loader_raises_a_call.
  - intros refuses e H. unfold get_movies. by rewrite H.
Qed.

(** X10.  When every call on the browser succeeds and the constructors refuse
    nothing, [get_movies] raises what the parser raises on the page, and when
    the page is parsed it returns no message when the page has no entry with a
    title, and else a message with one card for each of the first ten entries
    that have a title, in the order of the page; each card shows the record of
    its entry, the title first. *)
Theorem good_run_gives_cards html :
  match html_parser html with
  | Raise e => get_movies html_parser permissive (good_run html) = Raise e
  | Ok soup =>
      let entries :=
        filter (fun i => extract_text_content i s_h2 s_title <> [])
               (find_all soup s_li s_item) in
      let bubbles := bubbles_of permissive (extract_movie_info <$> entries) in
      get_movies html_parser permissive (good_run html)
      = Ok (match entries with
            | [] => None
            | _ => Some {| alt_text := s_alt_text;
                           contents := CarouselContainer bubbles |}
            end) /\
      length bubbles = min MAX_MOVIES (length entries) /\
      card_texts <$> bubbles
      = (fun item => texts_of_record (extract_movie_info item))
          <$> take MAX_MOVIES entries /\
      card_title <$> bubbles
      = (fun item => Some (extract_text_content item s_h2 s_title))
          <$> take MAX_MOVIES entries
  end.
Proof.
  destruct (html_parser html) as [soup|e] eqn:Hsoup.
  - intros entries bubbles. subst bubbles. split_and!.
    + rewrite get_movies_good_run, (parse_movies_filter html_parser html soup Hsoup).
      simpl. rewrite render_movies_permissive. fold entries. by destruct entries.
    + by rewrite bubbles_of_permissive_length, length_fmap.
    + by rewrite bubbles_of_texts, <-fmap_take, <-list_fmap_compose.
    + rewrite bubbles_of_titles, <-fmap_take, <-list_fmap_compose.
      apply list_fmap_ext. intros i item _. simpl.
      by rewrite extract_movie_info_title.
  - rewrite get_movies_good_run.
    assert (parse_movies_from_html html_parser html = Raise e) as ->
      by (by apply parse_movies_Raise).
    done.
Qed.

End LoaderClaims.

Section LoaderWitness.
Import Py Re Bs4 Linebot Movie.

(** The message of a page with two titled entries. *)
Lemma two_entries_message :
  exists message,
    get_movies two_parser permissive (good_run []) = Ok (Some message) /\
    alt_text message = s_alt_text /\
    exists bubbles,
      contents message = CarouselContainer bubbles /\ 1 <= length bubbles <= 10.
Proof.
  destruct (parse_page two_parser [] [lit "A"; lit "B"]) as (movies & Hp & Ht);
    [done|repeat constructor; by vm_compute|].
  assert (movies <> []) as Hne by (by intros ->).
  destruct (get_movies two_parser permissive (good_run [])) as [[message|]|] eqn:E.
  - exists message. split; [done|].
    destruct (message_holds_titled_cards two_parser permissive _ _ E)
      as (Ha & html & soup & movies' & bubbles & _ & _ & _ & Hc & Hl & _).
    split; [done|]. by exists bubbles.
  - exfalso. rewrite get_movies_good_run, Hp in E. simpl in E.
    rewrite render_movies_permissive in E. by destruct movies.
  - exfalso. rewrite get_movies_good_run, Hp in E. simpl in E.
    by rewrite render_movies_permissive in E.
Defined.

(** A page the parser refuses: the exception reaches the caller. *)
Example refused_page_raises :
  get_movies refusing_parser permissive (good_run []) = Raise ParserRejectedMarkup.
Proof. reflexivity. Qed.

End LoaderWitness.

(** ** The audio link as an address *)

Section Link.
Import Py Re Words.
Implicit Types (c b : N) (text url : pystr).

Lemma utf8_encode_char_encodable c :
  utf8_encode_char c =
  if encodable c then utf8_encode_char c else Raise UnicodeEncodeError.
Proof.
  unfold encodable, utf8_encode_char.
  destruct (N.ltb_spec c 128), (N.ltb_spec c 2048), (N.leb_spec 55296 c),
    (N.leb_spec c 57343), (N.ltb_spec c 55296), (N.ltb_spec 57343 c),
    (N.ltb_spec c 65536), (N.ltb_spec c 1114112); simpl; try reflexivity; lia.
Qed.

Lemma utf8_encode_char_Ok c :
  encodable c = true -> exists bs, utf8_encode_char c = Ok bs /\ 1 <= length bs.
Proof.
  unfold encodable, utf8_encode_char. intros H.
  destruct (N.ltb_spec c 128); [eexists; split; [done|simpl; lia]|].
  destruct (N.ltb_spec c 2048); [eexists; split; [done|simpl; lia]|].
  destruct (N.leb_spec 55296 c), (N.leb_spec c 57343), (N.ltb_spec c 55296),
    (N.ltb_spec 57343 c), (N.ltb_spec c 65536), (N.ltb_spec c 1114112);
    simpl in *; try discriminate; try lia; eexists; (split; [done|simpl; lia]).
Qed.

Lemma utf8_encode_Ok text :
  forallb encodable text = true ->
  exists bs, utf8_encode text = Ok bs /\ length text <= length bs.
Proof.
  induction text as [|c text IH]; simpl; [by exists []|].
  intros H. apply andb_true_iff in H as [Hc Ht].
  destruct (utf8_encode_char_Ok c Hc) as (cs & -> & Hlen).
  destruct (IH Ht) as (rest & -> & Hlen'). simpl. eexists. split; [done|].
  rewrite length_app. lia.
Qed.

Lemma utf8_encode_char_Raise c e :
  utf8_encode_char c = Raise e -> e = UnicodeEncodeError.
Proof.
  unfold utf8_encode_char. repeat case_match; congruence.
Qed.

Lemma utf8_encode_Raise text :
  forallb encodable text = false -> utf8_encode text = Raise UnicodeEncodeError.
Proof.
  induction text as [|c text IH]; simpl; [done|].
  intros H. apply andb_false_iff in H as [Hc | Ht].
  - by rewrite utf8_encode_char_encodable, Hc.
  - rewrite (IH Ht). destruct (utf8_encode_char c) as [|e] eqn:E; [done|].
    by rewrite (utf8_encode_char_Raise c e E).
Qed.

Lemma hex_digit_safe n : (n < 16)%N -> is_safe (hex_digit n) = true.
Proof.
  intros H. rewrite <-(N2Nat.id n). assert (N.to_nat n < 16) as Hm by lia.
  revert Hm. generalize (N.to_nat n). clear. intros m Hm.
  do 16 (destruct m as [|m]; [by vm_compute|]). lia.
Qed.

Lemma quote_byte_chars b :
  (b < 256)%N ->
  forallb quoted_char (quote_byte b) = true /\ 1 <= length (quote_byte b).
Proof.
  intros Hb. unfold quote_byte, quoted_char. destruct (is_safe b) eqn:Hs; simpl.
  - rewrite Hs. split; [done|lia].
  - rewrite !hex_digit_safe by div_lia. split; [done|lia].
Qed.

Lemma quote_bytes_chars bs :
  Forall (fun b => (b < 256)%N) bs ->
  forallb quoted_char (concat (map quote_byte bs)) = true /\
  length bs <= length (concat (map quote_byte bs)).
Proof.
  induction 1 as [|b bs Hb _ [IH1 IH2]]; [done|]. simpl.
  destruct (quote_byte_chars b Hb) as [H1 H2].
  rewrite forallb_app, H1, IH1, length_app. split; [done|lia].
Qed.

Lemma quoted_char_visible c : quoted_char c = true -> visible_ascii c = true.
Proof.
  unfold quoted_char, is_safe, visible_ascii. intros H.
  apply andb_true_iff. split; apply N.ltb_lt;
    repeat match goal with
      | H : (_ || _) = true |- _ => apply orb_true_iff in H as [H | H]
      | H : (_ && _) = true |- _ => apply andb_true_iff in H as [? ?]
      | H : (_ <=? _)%N = true |- _ => apply N.leb_le in H
      | H : (_ =? _)%N = true |- _ => apply N.eqb_eq in H
      end; lia.
Qed.

Lemma quote_Ok text :
  forallb encodable text = true ->
  exists q,
    quote text = Ok q /\ forallb quoted_char q = true /\ length text <= length q.
Proof.
  intros H. unfold quote. destruct (utf8_encode_Ok text H) as (bs & E & Hlen).
  rewrite E. simpl. eexists. split; [done|].
  destruct (utf8_encode_decode text bs E) as [Hb _].
  destruct (quote_bytes_chars bs Hb) as [H1 H2]. split; [done|lia].
Qed.

Lemma quote_Raise text :
  forallb encodable text = false -> quote text = Raise UnicodeEncodeError.
Proof. intros H. unfold quote. by rewrite utf8_encode_Raise. Qed.

(** The text can be read back from the link. *)
Lemma audio_link_decodes text url :
  generate_audio_url text = Ok url ->
  utf8_decode (percent_decode (drop (length tts_template) url)) = text.
Proof.
  unfold generate_audio_url. destruct text as [|c text]; simpl truthy; cbv iota;
    simpl negb; cbv iota.
  - by intros [= <-].
  - destruct (quote (c :: text)) as [q|] eqn:E; [|done].
    unfold mbind, result_bind. intros H.
    assert (url = tts_template ++ q) as -> by congruence.
    rewrite drop_app_length. by apply quote_decodes.
Qed.

End Link.

Section LinkClaims.
Import Py Re Words.
Implicit Types (c b : N) (text url : pystr).

(** X11.  The audio link is an address.  For a text UTF-8 can encode (no
    surrogate in it) the call returns: the empty text for the empty text, and
    else the template followed by a query value made only of letters, digits,
    the characters [_.-~/] and the percent sign, which is not shorter than the
    text.  For any other text it raises [UnicodeEncodeError].  Every link
    returned is made of visible ASCII characters: no space, no control
    character, nothing beyond ASCII. *)
Theorem audio_link_is_an_address text :
  (forallb encodable text = true ->
   exists q,
     generate_audio_url text = Ok (if truthy text then tts_template ++ q else []) /\
     forallb quoted_char q = true /\ length text <= length q) /\
  (forallb encodable text = false ->
   generate_audio_url text = Raise UnicodeEncodeError) /\
  (forall url,
     generate_audio_url text = Ok url -> forallb visible_ascii url = true).
Proof.
  assert (forallb encodable text = true ->
          exists q,
            generate_audio_url text = Ok (if truthy text then tts_template ++ q else []) /\
            forallb quoted_char q = true /\ length text <= length q) as Hok.
  { intros H. destruct (quote_Ok text H) as (q & Hq & Hc & Hlen). exists q.
    split; [|done]. unfold generate_audio_url. rewrite Hq. by destruct text. }
  assert (forallb encodable text = false ->
          generate_audio_url text = Raise UnicodeEncodeError) as Hraise.
  { intros H. unfold generate_audio_url. rewrite (quote_Raise text H).
    by destruct text. }
  split_and!; [done|done|].
  intros url Hurl. destruct (forallb encodable text) eqn:E.
  - destruct (Hok eq_refl) as (q & Hq & Hc & _). rewrite Hq in Hurl.
    destruct (truthy text); [|by assert (url = []) as -> by congruence].
    assert (url = tts_template ++ q) as -> by congruence.
    rewrite forallb_app. apply andb_true_iff. split; [by vm_compute|].
    apply forallb_forall. intros c Hin. rewrite forallb_forall in Hc.
    by apply quoted_char_visible, Hc.
  - rewrite (Hraise eq_refl) in Hurl. done.
Qed.

(** X12.  The audio link tells the text: the text is what the bytes written
    after the template stand for in UTF-8, so two texts with the same link
    are the same text. *)
Theorem audio_link_tells_the_text text url :
  generate_audio_url text = Ok url ->
  utf8_decode (percent_decode (drop (length tts_template) url)) = text /\
  forall text', generate_audio_url text' = Ok url -> text' = text.
Proof.
  intros H. pose proof (audio_link_decodes text url H) as Hd. split; [done|].
  intros text' H'. apply audio_link_decodes in H'. congruence.
Qed.

Lemma audio_link_read_back :
  utf8_decode (percent_decode
                 (drop (length tts_template) (tts_template ++ lit "caf%C3%A9%20au%20lait")))
  = lit "café au lait".
Proof.
  destruct (audio_link_tells_the_text (lit "café au lait")
              (tts_template ++ lit "caf%C3%A9%20au%20lait")) as [H _].
  - by vm_compute.
  - exact H.
Defined.

End LinkClaims.

(** ** The vocabulary card and its message *)

Section WordCard.
Import Py Re Linebot Words WordsCard.
Variable py_str : pyval -> pystr.
Variable float_truthy : pystr -> bool.
Implicit Types (d : gmap pystr pyval) (v : pyval) (key : pystr).

Lemma audio_url_or_empty_dict d key :
  audio_url_or_empty float_truthy (PyDict d) key
  = match d !! key with
    | Some v => audio_link_of float_truthy v
    | None => []
    end.
Proof.
  unfold audio_url_or_empty, audio_link_of, subscript.
  destruct (d !! key) as [v|]; [|done]. simpl.
  by destruct (generate_audio_url_value float_truthy v).
Qed.

Lemma audio_link_of_empty : audio_link_of float_truthy (PyStr []) = [].
Proof. reflexivity. Qed.

Lemma audio_link_of_form v :
  audio_link_of float_truthy v = [] \/
  exists text q,
    v = PyStr text /\ text <> [] /\ quote text = Ok q /\
    audio_link_of float_truthy v = tts_template ++ q.
Proof.
  unfold audio_link_of, generate_audio_url_value.
  destruct v as [| | | |text| |]; try (by left; destruct (truthy_value _ _)).
  unfold generate_audio_url. destruct text as [|c text]; [by left|].
  simpl truthy. simpl negb. cbv iota.
  destruct (quote (c :: text)) as [q|] eqn:E; [|by left].
  right. by exists (c :: text), q.
Qed.

(** The card of a dictionary that has the six keys the card reads by
    subscript. *)
Lemma create_flex_bubble_dict d :
  (forall key, key ∈ required_fields -> is_Some (d !! key)) ->
  exists bubble,
    create_flex_bubble permissive py_str float_truthy (PyDict d) = Done bubble /\
    header_texts bubble = [s_header] /\
    card_texts bubble = texts_of_word py_str d /\
    footer_links bubble
    = [audio_link_of float_truthy (field_of d K_word);
       audio_link_of float_truthy (field_of d K_example_sentence)] /\
    hero bubble = None.
Proof.
  intros Hall.
  assert (forall key, key ∈ required_fields -> d !! key = Some (field_of d key)) as Hk.
  { intros key Hin. unfold field_of. by destruct (Hall key Hin) as [v ->]. }
  unfold create_flex_bubble, texts_of_word. rewrite !audio_url_or_empty_dict.
  unfold subscript, get_or_empty.
  rewrite (Hk K_word), (Hk K_part_of_speech), (Hk K_definition_en),
    (Hk K_definition_zh), (Hk K_example_sentence), (Hk K_example_translation)
    by (by vm_compute; set_solver).
  fold (field_of d K_pronunciation).
  eexists. split; [reflexivity|]. split_and!; reflexivity.
Qed.

End WordCard.

Section WordMessage.
Import Py Re Linebot Words WordsCard.
Variable py_str : pyval -> pystr.
Variable float_truthy : pystr -> bool.
Variable json_loads : pystr -> result pyval.
Implicit Types (d : gmap pystr pyval) (v : pyval) (key : pystr) (resp : response).

(** After the loop over the required keys, every key has the value the card
    shows for it. *)
Lemma filled_fields d d' :
  (forall key,
     d' !! key = match d !! key with
                 | Some v => Some v
                 | None => if bool_decide (key ∈ required_fields)
                           then Some (PyStr []) else None
                 end) ->
  (forall key, field_of d' key = field_of d key) /\
  (forall key, key ∈ required_fields -> d' !! key = Some (field_of d key)).
Proof.
  intros Hkeys. split.
  - intros key. unfold field_of. rewrite Hkeys.
    destruct (d !! key); [done|]. by destruct (bool_decide _).
  - intros key Hin. unfold field_of. rewrite Hkeys.
    destruct (d !! key); [done|]. by rewrite bool_decide_eq_true_2.
Qed.

(** A value that is not a dictionary goes through the loop unchanged, or
    makes it raise [TypeError]. *)
Lemma fill_required_other fields v :
  (forall d, v <> PyDict d) ->
  fill_required fields v = Ok v \/ fill_required fields v = Raise TypeError.
Proof.
  intros Hv. induction fields as [|f fields IH]; [by left|]. simpl.
  destruct v as [| | | |s|l|d]; simpl; try (by right).
  - destruct (contains f s); simpl; [exact IH|by right].
  - destruct (existsb _ l); simpl; [exact IH|by right].
  - by destruct (Hv d).
Qed.

Lemma create_flex_bubble_other (refuses : sdk) v :
  (forall d, v <> PyDict d) ->
  (exists x, create_flex_bubble refuses py_str float_truthy v = Raised x) /\
  create_flex_bubble permissive py_str float_truthy v = Raised (Exc TypeError).
Proof.
  intros Hv. unfold create_flex_bubble, new_component, construct. split.
  - destruct (refuses (ObjComponent (TextComponent s_header _))); simpl;
      [by eexists|].
    destruct (refuses (ObjComponent (BoxComponent s_vertical [_] []))); simpl;
      [by eexists|].
    destruct v; simpl; try (by eexists). by destruct (Hv d).
  - destruct v; simpl; try done. by destruct (Hv d).
Qed.

Lemma word_message_of_object resp d :
  recover json_loads resp = PyDict d ->
  exists message bubble,
    get_english_word permissive py_str float_truthy json_loads resp = Done message /\
    alt_text message = s_alt_prefix ++ format_value py_str (field_of d K_word) /\
    contents message = Bubble bubble /\
    header_texts bubble = [s_header] /\
    card_texts bubble = texts_of_word py_str d /\
    footer_links bubble
    = [audio_link_of float_truthy (field_of d K_word);
       audio_link_of float_truthy (field_of d K_example_sentence)].
Proof.
  intros Hd. unfold get_english_word, get_english_word_data. rewrite Hd.
  destruct (fill_required_dict required_fields d) as (d' & -> & Hkeys).
  destruct (filled_fields d d' Hkeys) as [Hf Hr].
  destruct (create_flex_bubble_dict py_str float_truthy d')
    as (bubble & Hb & Hh & Ht & Hl & _).
  { intros key Hin. rewrite (Hr key Hin). by eexists. }
  simpl. rewrite Hb. simpl. unfold subscript.
  rewrite (Hr K_word) by (by vm_compute; set_solver). simpl.
  eexists _, bubble. split; [reflexivity|]. simpl. split_and!; try done.
  - rewrite Ht. unfold texts_of_word. by rewrite !Hf.
  - by rewrite Hl, !Hf.
Qed.

End WordMessage.

Section WordMessageClaims.
Import Py Re Linebot Words WordsCard.
Variable py_str : pyval -> pystr.
Variable float_truthy : pystr -> bool.
Variable json_loads : pystr -> result pyval.
Implicit Types (d : gmap pystr pyval) (v : pyval) (key : pystr) (resp : response).

(** X13.  When the answer was read as a JSON object, or could not be read
    and the fallback record took its place, and the constructors refuse
    nothing, [get_english_word] returns a message: the loop over the required
    keys makes every subscript of the card succeed.  The alternative text is
    英文單字： followed by the word.  The card has the header 📖英文單字, seven
    rows (the word with its part of speech, the pronunciation, the two
    definitions, the heading of the example, the example and its translation),
    where a key the answer did not have shows as the empty text, and two
    buttons, for the audio of the word and of the example.  The address of a
    button is empty, or the template of the audio link followed by the quoted
    text; it is empty when the value is the empty text, is not a text, or
    cannot be encoded. *)
Theorem object_gives_word_card resp d :
  recover json_loads resp = PyDict d ->
  exists message bubble,
    get_english_word permissive py_str float_truthy json_loads resp = Done message /\
    alt_text message = s_alt_prefix ++ format_value py_str (field_of d K_word) /\
    contents message = Bubble bubble /\
    header_texts bubble = [s_header] /\
    card_texts bubble = texts_of_word py_str d /\
    footer_links bubble
    = [audio_link_of float_truthy (field_of d K_word);
       audio_link_of float_truthy (field_of d K_example_sentence)] /\
    Forall (fun url =>
              url = [] \/
              exists text q,
                text <> [] /\ quote text = Ok q /\ url = tts_template ++ q)
           (footer_links bubble).
Proof.
  intros Hd.
  destruct (word_message_of_object py_str float_truthy json_loads resp d Hd)
    as (message & bubble & Hm & Ha & Hc & Hh & Ht & Hl).
  exists message, bubble. split_and!; try done.
  rewrite Hl. constructor; [|constructor; [|constructor]].
  - destruct (audio_link_of_form float_truthy (field_of d K_word))
      as [-> | (text & q & _ & Hne & Hq & ->)]; [by left|right; by exists text, q].
  - destruct (audio_link_of_form float_truthy (field_of d K_example_sentence))
      as [-> | (text & q & _ & Hne & Hq & ->)]; [by left|right; by exists text, q].
Qed.

(** X14.  When the answer was read as a JSON value that is not an object (a
    number, a text, a list, [null], a Boolean), [get_english_word] returns no
    message: it raises, whatever the constructors do, and [TypeError] when
    they refuse nothing.  The fallback record is used only when reading
    raised. *)
Theorem non_object_gives_no_card (refuses : sdk) resp :
  (forall d, recover json_loads resp <> PyDict d) ->
  (exists x,
     get_english_word refuses py_str float_truthy json_loads resp = Raised x) /\
  get_english_word permissive py_str float_truthy json_loads resp
  = Raised (Exc TypeError).
Proof.
  intros Hv. unfold get_english_word, get_english_word_data.
  destruct (fill_required_other required_fields _ Hv) as [-> | ->]; simpl.
  - destruct (create_flex_bubble_other py_str float_truthy refuses _ Hv)
      as [[x ->] ->]. split; [by exists x|done].
  - split; [by eexists|done].
Qed.

End WordMessageClaims.

Section WordMessageWitness.
Import Py Re Linebot Words WordsCard.

Lemma word_card_sample :
  exists message,
    get_english_word permissive plain_str floats_true sample_loads
      (RespJson (Ok (PyDict sample_word_data))) = Done message /\
    alt_text message = lit "英文單字：x".
Proof.
  destruct (object_gives_word_card plain_str floats_true sample_loads
              (RespJson (Ok (PyDict sample_word_data))) sample_word_data eq_refl)
    as (message & bubble & Hm & Ha & _).
  exists message. split; [exact Hm|]. rewrite Ha. by vm_compute.
Defined.

Lemma number_gives_no_card :
  get_english_word permissive plain_str floats_true number_loads (RespStr (lit "5"))
  = Raised (Exc TypeError).
Proof.
  apply (non_object_gives_no_card plain_str floats_true number_loads permissive
           (RespStr (lit "5"))).
  intros d. by vm_compute.
Defined.

End WordMessageWitness.

Section WordCardKeys.
Import Py Re Linebot Words WordsCard.
Variable py_str : pyval -> pystr.
Variable float_truthy : pystr -> bool.
Variable json_loads : pystr -> result pyval.
Implicit Types (d : gmap pystr pyval) (v : pyval) (key : pystr) (resp : response).

(** X15.  Called on a dictionary, with constructors that refuse nothing,
    [create_flex_bubble] returns a card exactly when the dictionary has the
    six keys the rows read by subscript, and raises [KeyError] otherwise.  The
    pronunciation is not one of them: without it the row shows the empty text.
    A missing word or example does not fail where the audio links are made,
    but where the rows are. *)
Theorem card_needs_six_keys d :
  (Forall (fun key => is_Some (d !! key)) subscripted_keys ->
   exists bubble,
     create_flex_bubble permissive py_str float_truthy (PyDict d) = Done bubble /\
     card_texts bubble = texts_of_word py_str d) /\
  (~ Forall (fun key => is_Some (d !! key)) subscripted_keys ->
   create_flex_bubble permissive py_str float_truthy (PyDict d) = Raised KeyError).
Proof.
  unfold subscripted_keys. rewrite !Forall_cons, Forall_nil.
  unfold create_flex_bubble, subscript, get_or_empty, texts_of_word, field_of.
  destruct (d !! K_word) as [v1|]; simpl;
    [|split; [by intros ([? ?] & _)|done]].
  destruct (d !! K_part_of_speech) as [v2|]; simpl;
    [|split; [by intros (_ & [? ?] & _)|done]].
  destruct (d !! K_definition_en) as [v3|]; simpl;
    [|split; [by intros (_ & _ & [? ?] & _)|done]].
  destruct (d !! K_definition_zh) as [v4|]; simpl;
    [|split; [by intros (_ & _ & _ & [? ?] & _)|done]].
  destruct (d !! K_example_sentence) as [v5|]; simpl;
    [|split; [by intros (_ & _ & _ & _ & [? ?] & _)|done]].
  destruct (d !! K_example_translation) as [v6|]; simpl;
    [|split; [by intros (_ & _ & _ & _ & _ & [? ?] & _)|done]].
  split.
  - intros _. eexists. split; reflexivity.
  - intros H. destruct H. split_and!; by eexists.
Qed.

(** X16.  An answer that cannot be read (a text with no JSON in it, an
    object of another kind, a [json] method that raises) gives the card of
    the fallback record: with constructors that refuse nothing the message
    says 英文單字：fallback, shows the seven rows of the fallback record, and its
    two buttons open the audio of [fallback] and of the fallback example. *)
Theorem unreadable_answer_gives_fallback_card resp e :
  parse_response json_loads resp = Raise e ->
  exists message bubble q,
    get_english_word permissive py_str float_truthy json_loads resp = Done message /\
    alt_text message = s_alt_prefix ++ lit "fallback" /\
    contents message = Bubble bubble /\
    card_texts bubble = fallback_texts /\
    quote (lit "We need a fallback plan in case this doesn't work.") = Ok q /\
    footer_links bubble = [tts_template ++ lit "fallback"; tts_template ++ q].
Proof.
  intros He.
  assert (recover json_loads resp = PyDict fallback_word_data) as Hd.
  { unfold recover. by rewrite He. }
  destruct (word_message_of_object py_str float_truthy json_loads resp _ Hd)
    as (message & bubble & Hm & Ha & Hc & _ & Ht & Hl).
  exists message, bubble. eexists. split_and!; [done| |done| | |].
  - rewrite Ha. by vm_compute.
  - rewrite Ht. by vm_compute.
  - by vm_compute.
  - rewrite Hl. by vm_compute.
Qed.

End WordCardKeys.

Section WordCardKeysWitness.
Import Py Re Linebot Words WordsCard.

Lemma other_answer_gives_fallback :
  exists message,
    get_english_word permissive plain_str floats_true number_loads RespOther
    = Done message /\
    alt_text message = lit "英文單字：fallback".
Proof.
  destruct (unreadable_answer_gives_fallback_card plain_str floats_true number_loads
              RespOther TypeError eq_refl)
    as (message & bubble & q & Hm & Ha & _).
  exists message. split; [exact Hm|]. rewrite Ha. by vm_compute.
Defined.

End WordCardKeysWitness.
